(** * ImageDrawingCanvas: the annotation canvas of the clinical assistant

    A shallow embedding of the React component [ImageDrawingCanvas]
    (coordinate transform, wheel zoom, raster history, tool styles, text
    overlay and export) together with the properties its specification
    states about it.

    Conventions of the embedding.
    - A JavaScript [number] is a rational ([Q]).  The four rounded
      operations [+ - * /] of IEEE arithmetic are fields of the class
      [JsNumber], so that a statement can be made for every arithmetic whose
      operations stay within a relative error [u] of the exact result
      ([RoundsWithin]); [Math.min], [Math.max], unary minus and comparisons
      are exact.
    - The React state of the component is the record [State]; its fields are
      grouped the way the source groups its [useState] declarations.  Every
      handler is a function [State -> State] that reads the state of the
      render it was created in and returns the state after its updates.
    - The 2D context is the record [Context2D]: the bitmap of the canvas, the
      drawing state ([Style]), the stack of [save], the current path, and a
      trace of the paint operations issued so far.  Which pixels a shape
      covers is left to the browser ([coverage]); how a covered pixel is
      combined with the bitmap is the Porter-Duff rule of the compositing
      mode ([blend]). *)

From Stdlib Require Import QArith Qabs Qminmax Qround ZArith List String Ascii Bool Lia Lqa.
From Stdlib Require DecimalString.
Import ListNotations.

Local Open Scope Q_scope.
Local Open Scope string_scope.

(** ** Numbers *)

Class JsNumber := {
  fadd : Q -> Q -> Q;
  fsub : Q -> Q -> Q;
  fmul : Q -> Q -> Q;
  fdiv : Q -> Q -> Q;
  Math_sqrt : Q -> Q;
  Math_atan2 : Q -> Q -> Q;
  Math_cos : Q -> Q;
  Math_sin : Q -> Q;
  Math_PI : Q
}.

Declare Scope js_scope.
Delimit Scope js_scope with js.
Infix "+!" := fadd (at level 50, left associativity) : js_scope.
Infix "-!" := fsub (at level 50, left associativity) : js_scope.
Infix "*!" := fmul (at level 40, left associativity) : js_scope.
Infix "/!" := fdiv (at level 40, left associativity) : js_scope.
Local Open Scope js_scope.

(** [near u x y]: [x] is [y] up to the relative error [u]. *)
Definition near (u x y : Q) : Prop := Qabs (x - y) <= u * Qabs y.

(** The standard model of rounded arithmetic: every operation returns the
    exact result up to a relative error of at most [u] (for binary64,
    [u = 2^-53], as long as no operation overflows or underflows). *)
Record RoundsWithin (N : JsNumber) (u : Q) : Prop := {
  round_add : forall a b, near u (a +! b) (a + b);
  round_sub : forall a b, near u (a -! b) (a - b);
  round_mul : forall a b, near u (a *! b) (a * b);
  round_div : forall a b, ~ b == 0 -> near u (a /! b) (a / b)
}.

(** [Math.pow(d, 2)]. *)
Definition Math_pow2 `{JsNumber} (d : Q) : Q := d *! d.

(** [Number.prototype.toFixed(1)] on a number below 10^21: the integer [n]
    for which [n / 10 - x] is closest to zero (the larger [n] on a tie),
    printed with one digit after the point. *)
Definition toFixed1 (v : Q) : string :=
  let neg := Qlt_le_dec v 0 in
  let a := Qabs v in
  let n := Qfloor (a * 10 + (1 # 2)) in
  let ip := DecimalString.NilZero.string_of_uint (N.to_uint (Z.to_N (n / 10))) in
  let fp := DecimalString.NilZero.string_of_uint (N.to_uint (Z.to_N (n mod 10))) in
  (if neg then "-" else "") ++ ip ++ "." ++ fp.

(** ** Geometry, events and the DOM *)

Record Point := mkPoint { pt_x : Q; pt_y : Q }.

Record MouseEvent := { clientX : Q; clientY : Q; button : Z }.

Record WheelEvent := {
  wheel_clientX : Q; wheel_clientY : Q; deltaY : Q; ctrlKey : bool; metaKey : bool
}.

(** [containerRef.current]: its bounding rectangle and client size. *)
Record Container := {
  rect_left : Q; rect_top : Q; clientWidth : Q; clientHeight : Q
}.

(** ** Pixels and bitmaps *)

(** A pixel with premultiplied colour channels, every component in [0, 1]. *)
Record Pixel := mkPixel { chR : Q; chG : Q; chB : Q; chA : Q }.

Definition transparent : Pixel := mkPixel 0 0 0 0.

Definition pixel_eq (p q : Pixel) : Prop :=
  chR p == chR q /\ chG p == chG q /\ chB p == chB q /\ chA p == chA q.

Record ImageData := { width : nat; height : nat; data : list Pixel }.

Definition blankImage (w h : nat) : ImageData :=
  {| width := w; height := h; data := repeat transparent (w * h) |}.

(** ** The 2D rendering context *)

Module Ctx.

Inductive CompositeOp := SourceOver | DestinationOut.

Record Font := { font_weight : string; font_px : Q; font_family : string }.

(** The drawing state of a context: what [save] pushes and [restore] pops. *)
Record Style := mkStyle {
  strokeStyle : string;
  fillStyle : string;
  lineWidth : Q;
  lineCap : string;
  lineJoin : string;
  globalAlpha : Q;
  lineDash : list Q;
  globalCompositeOperation : CompositeOp;
  font : Font;
  textAlign : string;
  textBaseline : string;
  shadowColor : string;
  shadowBlur : Q
}.

(** The state of a context freshly returned by [getContext('2d')]. *)
Definition defaultStyle : Style :=
  {| strokeStyle := "#000000"; fillStyle := "#000000"; lineWidth := 1;
   lineCap := "butt"; lineJoin := "miter"; globalAlpha := 1; lineDash := [];
   globalCompositeOperation := SourceOver;
   font := {| font_weight := "normal"; font_px := 10; font_family := "sans-serif" |};
   textAlign := "start"; textBaseline := "alphabetic";
   shadowColor := "rgba(0,0,0,0)"; shadowBlur := 0 |}.

Inductive PathCmd :=
| MoveTo (x y : Q)
| LineTo (x y : Q)
| Arc (x y radius startAngle endAngle : Q)
| ClosePath.

(** What a paint call rasterises. *)
Inductive Shape :=
| StrokePath (p : list PathCmd)
| FillPath (p : list PathCmd)
| StrokeRect (x y w h : Q)
| FillRect (x y w h : Q)
| StrokeText (s : string) (x y : Q)
| FillText (s : string) (x y : Q).

(** One paint call: the shape and the drawing state it was issued under. *)
Record PaintOp := { op_shape : Shape; op_style : Style }.

(** A context: the bitmap of its canvas, the drawing state, the stack of
    [save], the current path, and the paint calls issued so far (a trace kept
    for the statements; no call reads it). *)
Record Context2D := mkContext {
  bitmap : ImageData;
  style : Style;
  saved : list Style;
  path : list PathCmd;
  trace : list PaintOp
}.

(** The part of the browser the component relies on: the rasteriser
    ([coverage w sh st i] is the fraction of the pixel of index [i], in a
    canvas [w] pixels wide, that the shape [sh] covers under the drawing state
    [st]; [cssColor] is the colour a CSS colour string denotes, every colour
    string of this component being opaque), image scaling in [drawImage] and
    the PNG encoder of [toDataURL]. *)
Class Browser := {
  coverage : nat -> Shape -> Style -> nat -> Q;
  cssColor : string -> Q * Q * Q;
  resample : nat -> nat -> ImageData -> ImageData;
  toDataURL : ImageData -> string
}.

(** Porter-Duff compositing of a source of colour [rgb] and alpha [a] on the
    pixel [dst] (premultiplied). *)
Definition blend (op : CompositeOp) (rgb : Q * Q * Q) (a : Q) (dst : Pixel) : Pixel :=
  let '(r, g, b) := rgb in
  match op with
  | SourceOver =>
    mkPixel (r * a + chR dst * (1 - a)) (g * a + chG dst * (1 - a))
            (b * a + chB dst * (1 - a)) (a + chA dst * (1 - a))
  | DestinationOut =>
    mkPixel (chR dst * (1 - a)) (chG dst * (1 - a)) (chB dst * (1 - a))
            (chA dst * (1 - a))
  end.

(** Source-over of a whole pixel on another one, as [drawImage] does. *)
Definition over (src dst : Pixel) : Pixel :=
  mkPixel (chR src + chR dst * (1 - chA src)) (chG src + chG dst * (1 - chA src))
        (chB src + chB dst * (1 - chA src)) (chA src + chA dst * (1 - chA src)).

Fixpoint mapi_from {A B} (f : nat -> A -> B) (i : nat) (l : list A) : list B :=
  match l with
  | [] => []
  | a :: l' => f i a :: mapi_from f (S i) l'
  end.

Definition mapi {A B} (f : nat -> A -> B) (l : list A) : list B := mapi_from f 0 l.

(** [src] drawn on [dst] from the first pixel on; both bitmaps have the
    width of the canvas. *)
Fixpoint overlay (src dst : list Pixel) : list Pixel :=
  match dst with
  | [] => []
  | d :: dst' =>
    match src with
    | [] => dst
    | p :: src' => over p d :: overlay src' dst'
    end
  end.

Definition with_bitmap (b : ImageData) (c : Context2D) : Context2D :=
  mkContext b (style c) (saved c) (path c) (trace c).
Definition with_style (st : Style) (c : Context2D) : Context2D :=
  mkContext (bitmap c) st (saved c) (path c) (trace c).
Definition with_saved (sv : list Style) (c : Context2D) : Context2D :=
  mkContext (bitmap c) (style c) sv (path c) (trace c).
Definition with_path (p : list PathCmd) (c : Context2D) : Context2D :=
  mkContext (bitmap c) (style c) (saved c) p (trace c).

(** Assignments to the attributes of the drawing state. *)
Definition set_strokeStyle (v : string) (c : Context2D) :=
  let s := style c in
  with_style (mkStyle v (fillStyle s) (lineWidth s) (lineCap s) (lineJoin s)
    (globalAlpha s) (lineDash s) (globalCompositeOperation s) (font s)
    (textAlign s) (textBaseline s) (shadowColor s) (shadowBlur s)) c.
Definition set_fillStyle (v : string) (c : Context2D) :=
  let s := style c in
  with_style (mkStyle (strokeStyle s) v (lineWidth s) (lineCap s) (lineJoin s)
    (globalAlpha s) (lineDash s) (globalCompositeOperation s) (font s)
    (textAlign s) (textBaseline s) (shadowColor s) (shadowBlur s)) c.
(** A line width that is not positive is ignored. *)
Definition set_lineWidth (v : Q) (c : Context2D) :=
  let s := style c in
  if Qlt_le_dec 0 v then
    with_style (mkStyle (strokeStyle s) (fillStyle s) v (lineCap s) (lineJoin s)
      (globalAlpha s) (lineDash s) (globalCompositeOperation s) (font s)
      (textAlign s) (textBaseline s) (shadowColor s) (shadowBlur s)) c
  else c.
Definition set_lineCap (v : string) (c : Context2D) :=
  let s := style c in
  with_style (mkStyle (strokeStyle s) (fillStyle s) (lineWidth s) v (lineJoin s)
    (globalAlpha s) (lineDash s) (globalCompositeOperation s) (font s)
    (textAlign s) (textBaseline s) (shadowColor s) (shadowBlur s)) c.
Definition set_lineJoin (v : string) (c : Context2D) :=
  let s := style c in
  with_style (mkStyle (strokeStyle s) (fillStyle s) (lineWidth s) (lineCap s) v
    (globalAlpha s) (lineDash s) (globalCompositeOperation s) (font s)
    (textAlign s) (textBaseline s) (shadowColor s) (shadowBlur s)) c.
(** An alpha outside [0, 1] is ignored. *)
Definition set_globalAlpha (v : Q) (c : Context2D) :=
  let s := style c in
  if Qle_bool 0 v && Qle_bool v 1 then
    with_style (mkStyle (strokeStyle s) (fillStyle s) (lineWidth s) (lineCap s)
      (lineJoin s) v (lineDash s) (globalCompositeOperation s) (font s)
      (textAlign s) (textBaseline s) (shadowColor s) (shadowBlur s)) c
  else c.
Definition setLineDash (v : list Q) (c : Context2D) :=
  let s := style c in
  with_style (mkStyle (strokeStyle s) (fillStyle s) (lineWidth s) (lineCap s)
    (lineJoin s) (globalAlpha s) v (globalCompositeOperation s) (font s)
    (textAlign s) (textBaseline s) (shadowColor s) (shadowBlur s)) c.
Definition set_globalCompositeOperation (v : CompositeOp) (c : Context2D) :=
  let s := style c in
  with_style (mkStyle (strokeStyle s) (fillStyle s) (lineWidth s) (lineCap s)
    (lineJoin s) (globalAlpha s) (lineDash s) v (font s)
    (textAlign s) (textBaseline s) (shadowColor s) (shadowBlur s)) c.
Definition set_font (v : Font) (c : Context2D) :=
  let s := style c in
  with_style (mkStyle (strokeStyle s) (fillStyle s) (lineWidth s) (lineCap s)
    (lineJoin s) (globalAlpha s) (lineDash s) (globalCompositeOperation s) v
    (textAlign s) (textBaseline s) (shadowColor s) (shadowBlur s)) c.
Definition set_textAlign (v : string) (c : Context2D) :=
  let s := style c in
  with_style (mkStyle (strokeStyle s) (fillStyle s) (lineWidth s) (lineCap s)
    (lineJoin s) (globalAlpha s) (lineDash s) (globalCompositeOperation s) (font s)
    v (textBaseline s) (shadowColor s) (shadowBlur s)) c.
Definition set_textBaseline (v : string) (c : Context2D) :=
  let s := style c in
  with_style (mkStyle (strokeStyle s) (fillStyle s) (lineWidth s) (lineCap s)
    (lineJoin s) (globalAlpha s) (lineDash s) (globalCompositeOperation s) (font s)
    (textAlign s) v (shadowColor s) (shadowBlur s)) c.
Definition set_shadowColor (v : string) (c : Context2D) :=
  let s := style c in
  with_style (mkStyle (strokeStyle s) (fillStyle s) (lineWidth s) (lineCap s)
    (lineJoin s) (globalAlpha s) (lineDash s) (globalCompositeOperation s) (font s)
    (textAlign s) (textBaseline s) v (shadowBlur s)) c.
(** A negative blur is ignored. *)
Definition set_shadowBlur (v : Q) (c : Context2D) :=
  let s := style c in
  if Qle_bool 0 v then
    with_style (mkStyle (strokeStyle s) (fillStyle s) (lineWidth s) (lineCap s)
      (lineJoin s) (globalAlpha s) (lineDash s) (globalCompositeOperation s) (font s)
      (textAlign s) (textBaseline s) (shadowColor s) v) c
  else c.

Definition save (c : Context2D) : Context2D := with_saved (style c :: saved c) c.

Definition restore (c : Context2D) : Context2D :=
  match saved c with
  | [] => c
  | st :: sv => with_saved sv (with_style st c)
  end.

(** Path building: the calls are recorded in order since [beginPath]; what
    the recorded path covers once it is stroked or filled is up to the
    rasteriser. *)
Definition beginPath (c : Context2D) : Context2D := with_path [] c.
Definition moveTo (x y : Q) (c : Context2D) := with_path (path c ++ [MoveTo x y]) c.
Definition lineTo (x y : Q) (c : Context2D) := with_path (path c ++ [LineTo x y]) c.
Definition arc (x y r a0 a1 : Q) (c : Context2D) :=
  with_path (path c ++ [Arc x y r a0 a1]) c.
Definition closePath (c : Context2D) := with_path (path c ++ [ClosePath]) c.

(** The whole canvas is read and written: every [ImageData] of the
    component comes from [getImageData(0, 0, canvas.width, canvas.height)]
    of this one canvas. *)
Definition getImageData (c : Context2D) : ImageData := bitmap c.
Definition putImageData (img : ImageData) (c : Context2D) : Context2D :=
  with_bitmap img c.

(** [clearRect(0, 0, canvas.width, canvas.height)]. *)
Definition clearRect (c : Context2D) : Context2D :=
  with_bitmap (blankImage (width (bitmap c)) (height (bitmap c))) c.

Section Painting.
Context {B : Browser}.

(** The colour a shape is painted with. *)
Definition sourceColor (sh : Shape) (st : Style) : string :=
  match sh with
  | StrokePath _ | StrokeRect _ _ _ _ | StrokeText _ _ _ => strokeStyle st
  | FillPath _ | FillRect _ _ _ _ | FillText _ _ _ => fillStyle st
  end.

(** The pixel [i] of a canvas [w] pixels wide after the shape [sh] was
    painted under [st]. *)
Definition paintPixel (w : nat) (sh : Shape) (st : Style) (i : nat) (dst : Pixel) : Pixel :=
  blend (globalCompositeOperation st) (cssColor (sourceColor sh st))
        (globalAlpha st * coverage w sh st i) dst.

(** A paint call: every pixel is composited with the shape, and the call is
    added to the trace. *)
Definition paint (sh : Shape) (c : Context2D) : Context2D :=
  let st := style c in
  let b := bitmap c in
  mkContext
    {| width := width b; height := height b;
       data := mapi (paintPixel (width b) sh st) (data b) |}
    st (saved c) (path c)
    (trace c ++ [{| op_shape := sh; op_style := st |}]).

Definition stroke (c : Context2D) : Context2D := paint (StrokePath (path c)) c.
Definition fill (c : Context2D) : Context2D := paint (FillPath (path c)) c.
Definition strokeRect (x y w h : Q) (c : Context2D) := paint (StrokeRect x y w h) c.
Definition fillRect (x y w h : Q) (c : Context2D) := paint (FillRect x y w h) c.
Definition strokeText (s : string) (x y : Q) (c : Context2D) := paint (StrokeText s x y) c.
Definition fillText (s : string) (x y : Q) (c : Context2D) := paint (FillText s x y) c.

(** [drawImage(src, 0, 0)] on a bitmap: source-over, pixel by pixel. *)
Definition drawImage (src : ImageData) (dst : ImageData) : ImageData :=
  {| width := width dst; height := height dst;
     data := overlay (data src) (data dst) |}.

(** [drawImage(src, 0, 0, w, h)]: the source scaled to [w] by [h]. *)
Definition drawImageScaled (src : ImageData) (w h : nat) (dst : ImageData) :=
  drawImage (resample w h src) dst.
End Painting.

End Ctx.

(** Sequencing of context calls: [c ;> f ;> g] is [f] then [g] on [c]. *)
Notation "c ;> f" := (f c) (at level 61, left associativity, only parsing).

(** ** The state of the component *)

(** The tools ['pen'], ['highlighter'], ['line'] (the ruler), ['arrow'],
    ['rect'], ['circle'], ['text'], ['eraser'] and ['pan']. *)
Inductive Tool := Pen | Highlighter | Line | Arrow | Rect | Circle | Text | Eraser | Pan.

Inductive Color :=
| cEF4444 | cEAB308 | c22C55E | c3B82F6 | cFFFFFF | c000000 | cF472B6 | c9333EA.

Inductive LineStyle := solid | dashed | dotted.


Definition hex (c : Color) : string :=
  match c with
  | cEF4444 => "#EF4444" | cEAB308 => "#EAB308" | c22C55E => "#22C55E"
  | c3B82F6 => "#3B82F6" | cFFFFFF => "#FFFFFF" | c000000 => "#000000"
  | cF472B6 => "#F472B6" | c9333EA => "#9333EA"
  end.

Definition Tool_eqb (a b : Tool) : bool :=
  match a, b with
  | Pen, Pen | Highlighter, Highlighter | Line, Line | Arrow, Arrow | Rect, Rect
  | Circle, Circle | Text, Text | Eraser, Eraser | Pan, Pan => true
  | _, _ => false
  end.

(** Viewport state (zoom and pan). *)
Record Viewport := mkViewport {
  zoom : Q; pan : Point; isPanning : bool; lastPanPoint : Point
}.

(** Tools and properties. *)
Record Settings := mkSettings {
  tool : Tool; color : Color; lineWidth : Q; opacity : Q;
  lineStyle : LineStyle; isFilled : bool
}.

(** Text input overlay state. *)
Record TextInput := mkTextInput {
  isVisible : bool; text_x : Q; text_y : Q; value : string; rotation : option Q
}.

Record State := mkState {
  container : option Container;      (* containerRef.current *)
  canvasRef : bool;                  (* canvasRef.current is mounted *)
  bgImage : ImageData;               (* the raster behind bgImageUrl *)
  dimensions : nat * nat;
  view : Viewport;
  ctx : option Ctx.Context2D;
  history : list ImageData;
  redoStack : list ImageData;
  settings : Settings;
  isDrawing : bool;
  startPos : option Point;
  snapshot : option ImageData;
  description : string;
  textInput : TextInput
}.

Definition setView (v : Viewport) (s : State) : State :=
  mkState (container s) (canvasRef s) (bgImage s) (dimensions s) v (ctx s)
    (history s) (redoStack s) (settings s) (isDrawing s) (startPos s) (snapshot s)
    (description s) (textInput s).
Definition setCtx (c : option Ctx.Context2D) (s : State) : State :=
  mkState (container s) (canvasRef s) (bgImage s) (dimensions s) (view s) c
    (history s) (redoStack s) (settings s) (isDrawing s) (startPos s) (snapshot s)
    (description s) (textInput s).
Definition setHistory (h : list ImageData) (s : State) : State :=
  mkState (container s) (canvasRef s) (bgImage s) (dimensions s) (view s) (ctx s)
    h (redoStack s) (settings s) (isDrawing s) (startPos s) (snapshot s)
    (description s) (textInput s).
Definition setRedoStack (r : list ImageData) (s : State) : State :=
  mkState (container s) (canvasRef s) (bgImage s) (dimensions s) (view s) (ctx s)
    (history s) r (settings s) (isDrawing s) (startPos s) (snapshot s)
    (description s) (textInput s).
Definition setSettings (g : Settings) (s : State) : State :=
  mkState (container s) (canvasRef s) (bgImage s) (dimensions s) (view s) (ctx s)
    (history s) (redoStack s) g (isDrawing s) (startPos s) (snapshot s)
    (description s) (textInput s).
Definition setIsDrawing (b : bool) (s : State) : State :=
  mkState (container s) (canvasRef s) (bgImage s) (dimensions s) (view s) (ctx s)
    (history s) (redoStack s) (settings s) b (startPos s) (snapshot s)
    (description s) (textInput s).
Definition setStartPos (p : option Point) (s : State) : State :=
  mkState (container s) (canvasRef s) (bgImage s) (dimensions s) (view s) (ctx s)
    (history s) (redoStack s) (settings s) (isDrawing s) p (snapshot s)
    (description s) (textInput s).
Definition setSnapshot (i : option ImageData) (s : State) : State :=
  mkState (container s) (canvasRef s) (bgImage s) (dimensions s) (view s) (ctx s)
    (history s) (redoStack s) (settings s) (isDrawing s) (startPos s) i
    (description s) (textInput s).
Definition setTextInput (t : TextInput) (s : State) : State :=
  mkState (container s) (canvasRef s) (bgImage s) (dimensions s) (view s) (ctx s)
    (history s) (redoStack s) (settings s) (isDrawing s) (startPos s) (snapshot s)
    (description s) t.
Definition setDimensions (d : nat * nat) (s : State) : State :=
  mkState (container s) (canvasRef s) (bgImage s) d (view s) (ctx s)
    (history s) (redoStack s) (settings s) (isDrawing s) (startPos s) (snapshot s)
    (description s) (textInput s).

Definition setZoom (z : Q) (s : State) : State :=
  let v := view s in setView (mkViewport z (pan v) (isPanning v) (lastPanPoint v)) s.
Definition setPan (p : Point) (s : State) : State :=
  let v := view s in setView (mkViewport (zoom v) p (isPanning v) (lastPanPoint v)) s.
Definition setIsPanning (b : bool) (s : State) : State :=
  let v := view s in setView (mkViewport (zoom v) (pan v) b (lastPanPoint v)) s.
Definition setLastPanPoint (p : Point) (s : State) : State :=
  let v := view s in setView (mkViewport (zoom v) (pan v) (isPanning v) p) s.
Definition setTool (t : Tool) (s : State) : State :=
  let g := settings s in
  setSettings (mkSettings t (color g) (lineWidth g) (opacity g) (lineStyle g) (isFilled g)) s.

(** ** Strings of the text overlay *)

(** White space of [String.prototype.trim] among the characters below 256:
    tab, line feed, vertical tab, form feed, carriage return, space and the
    no-break space. *)
Definition isWhiteSpace (c : ascii) : bool :=
  let n := nat_of_ascii c in
  ((9 <=? n) && (n <=? 13) || (n =? 32) || (n =? 160))%nat.

Fixpoint trimStart (l : list ascii) : list ascii :=
  match l with
  | [] => []
  | c :: l' => if isWhiteSpace c then trimStart l' else l
  end.

Definition trim (s : string) : string :=
  string_of_list_ascii
    (rev (trimStart (rev (trimStart (list_ascii_of_string s))))).

(** A text of white space only, the empty text included. *)
Definition blank (v : string) : Prop :=
  forallb isWhiteSpace (list_ascii_of_string v) = true.

(** The truth value of a string: the empty string is falsy. *)
Definition truthy (s : string) : bool :=
  match s with EmptyString => false | _ => true end.

(** ** The handlers of the component *)

Section Component.
Context {N : JsNumber} {B : Ctx.Browser}.

(** *** Zoom and pan *)

Definition handleZoom (delta : Q) (s : State) : State :=
  setZoom (Qmin (Qmax 0.1 (zoom (view s) +! delta)) 5) s.

Definition handleWheel (e : WheelEvent) (s : State) : State :=
  if ctrlKey e || metaKey e || true then
    let scaleAmount := (- deltaY e) *! 0.001 in
    let newZoom := Qmin (Qmax 0.1 (zoom (view s) +! scaleAmount)) 5 in
    match container s with
    | None => s
    | Some rect =>
        let mouseX := wheel_clientX e -! rect_left rect in
        let mouseY := wheel_clientY e -! rect_top rect in
        let worldX := (mouseX -! pt_x (pan (view s))) /! zoom (view s) in
        let worldY := (mouseY -! pt_y (pan (view s))) /! zoom (view s) in
        let newPanX := mouseX -! worldX *! newZoom in
        let newPanY := mouseY -! worldY *! newZoom in
        s ;> setZoom newZoom ;> setPan (mkPoint newPanX newPanY)
    end
  else s.

Definition resetView (s : State) : State :=
  match container s with
  | None => s
  | Some cont =>
      if (fst (dimensions s) =? 0)%nat then s else
      let w := inject_Z (Z.of_nat (fst (dimensions s))) in
      let h := inject_Z (Z.of_nat (snd (dimensions s))) in
      let maxWidth := clientWidth cont -! 40 in
      let maxHeight := clientHeight cont -! 40 in
      let scaleFit := Qmin (Qmin (maxWidth /! w) (maxHeight /! h)) 1 in
      let offsetX := (clientWidth cont -! w *! scaleFit) /! 2 in
      let offsetY := (clientHeight cont -! h *! scaleFit) /! 2 in
      s ;> setZoom scaleFit ;> setPan (mkPoint offsetX offsetY)
  end.

(** The wrapper of the image and of the canvas is rendered with the style
    [transform: translate(pan.x px, pan.y px) scale(zoom)] and its origin at
    the top left: where the point [w] of the canvas appears in the
    container. *)
Definition canvasTransform (v : Viewport) (w : Point) : Point :=
  mkPoint (pt_x w *! zoom v +! pt_x (pan v)) (pt_y w *! zoom v +! pt_y (pan v)).

(** *** History management *)

Definition saveState (s : State) : State :=
  match ctx s with
  | None => s
  | Some c =>
      if canvasRef s then
        let imageData := Ctx.getImageData c in
        let newHist := (history s ++ [imageData])%list in
        let newHist := if (20 <? List.length newHist)%nat then tl newHist else newHist in
        s ;> setHistory newHist ;> setRedoStack []
      else s
  end.

Definition handleUndo (s : State) : State :=
  let h := history s in
  match ctx s with
  | None => s
  | Some c =>
      if (List.length h <=? 1)%nat then s else
      match nth_error h (List.length h - 1), nth_error h (List.length h - 2) with
      | Some current, Some previous =>
          s ;> setRedoStack (current :: redoStack s)
            ;> setHistory (removelast h)
            ;> setCtx (Some (Ctx.putImageData previous c))
      | _, _ => s (* not reached: both indices are below the length *)
      end
  end.

Definition handleRedo (s : State) : State :=
  match ctx s with
  | None => s
  | Some c =>
      match redoStack s with
      | [] => s
      | next :: rest =>
          s ;> setRedoStack rest
            ;> setHistory (history s ++ [next])%list
            ;> setCtx (Some (Ctx.putImageData next c))
      end
  end.

Definition clearCanvas (s : State) : State :=
  match ctx s with
  | None => s
  | Some c =>
      if canvasRef s then saveState (setCtx (Some (Ctx.clearRect c)) s) else s
  end.

(** *** Drawing styles *)

Definition applyStyles (g : Settings) (context : Ctx.Context2D) : Ctx.Context2D :=
  let context :=
    context ;> Ctx.set_strokeStyle (hex (color g))
            ;> Ctx.set_fillStyle (hex (color g))
            ;> Ctx.set_lineWidth (lineWidth g)
            ;> Ctx.set_lineCap "round"
            ;> Ctx.set_lineJoin "round"
            ;> Ctx.set_globalAlpha (opacity g) in
  let context :=
    match lineStyle g with
    | dashed => Ctx.setLineDash [lineWidth g *! 3; lineWidth g *! 2] context
    | dotted => Ctx.setLineDash [lineWidth g; lineWidth g *! 2] context
    | solid => Ctx.setLineDash [] context
    end in
  match tool g with
  | Highlighter =>
      context ;> Ctx.set_globalAlpha 0.3
              ;> Ctx.set_lineWidth 20
              ;> Ctx.set_strokeStyle
                   (match color g with cFFFFFF => "#FFFF00" | c => hex c end)
              ;> Ctx.setLineDash []
              ;> Ctx.set_globalCompositeOperation Ctx.SourceOver
  | Eraser =>
      context ;> Ctx.set_lineWidth (lineWidth g *! 4)
              ;> Ctx.set_globalAlpha 1
              ;> Ctx.setLineDash []
              ;> Ctx.set_globalCompositeOperation Ctx.DestinationOut
  | _ => Ctx.set_globalCompositeOperation Ctx.SourceOver context
  end.

(** *** Mouse handlers *)

Definition getPos (e : MouseEvent) (s : State) : Point :=
  match container s with
  | None => mkPoint 0 0
  | Some rect =>
      let clientX := clientX e -! rect_left rect in
      let clientY := clientY e -! rect_top rect in
      mkPoint ((clientX -! pt_x (pan (view s))) /! zoom (view s))
              ((clientY -! pt_y (pan (view s))) /! zoom (view s))
  end.

Definition drawArrow (g : Settings) (x1 y1 x2 y2 : Q) (c : Ctx.Context2D) : Ctx.Context2D :=
  let headLength := 15 +! lineWidth g in
  let angle := Math_atan2 (y2 -! y1) (x2 -! x1) in
  c ;> Ctx.moveTo x1 y1
    ;> Ctx.lineTo x2 y2
    ;> Ctx.stroke
    ;> Ctx.beginPath
    ;> Ctx.moveTo x2 y2
    ;> Ctx.lineTo (x2 -! headLength *! Math_cos (angle -! Math_PI /! 6))
                  (y2 -! headLength *! Math_sin (angle -! Math_PI /! 6))
    ;> Ctx.moveTo x2 y2
    ;> Ctx.lineTo (x2 -! headLength *! Math_cos (angle +! Math_PI /! 6))
                  (y2 -! headLength *! Math_sin (angle +! Math_PI /! 6))
    ;> Ctx.stroke.

Definition drawTHeads (g : Settings) (x1 y1 x2 y2 : Q) (c : Ctx.Context2D) : Ctx.Context2D :=
  let headSize := 8 +! lineWidth g in
  let angle := Math_atan2 (y2 -! y1) (x2 -! x1) in
  let perpAngle := angle +! Math_PI /! 2 in
  c ;> Ctx.beginPath
    ;> Ctx.moveTo (x1 +! headSize *! Math_cos perpAngle) (y1 +! headSize *! Math_sin perpAngle)
    ;> Ctx.lineTo (x1 -! headSize *! Math_cos perpAngle) (y1 -! headSize *! Math_sin perpAngle)
    ;> Ctx.stroke
    ;> Ctx.beginPath
    ;> Ctx.moveTo (x2 +! headSize *! Math_cos perpAngle) (y2 +! headSize *! Math_sin perpAngle)
    ;> Ctx.lineTo (x2 -! headSize *! Math_cos perpAngle) (y2 -! headSize *! Math_sin perpAngle)
    ;> Ctx.stroke.

(** *** Text input handling *)

Definition commitText (s : State) : State :=
  let g := settings s in
  let t := textInput s in
  let hide (v : string) := mkTextInput false (text_x t) (text_y t) v (rotation t) in
  let discard :=
    let s' := setTextInput (hide (value t)) s in
    if Tool_eqb (tool g) Line then saveState s' else s' in
  match ctx s with
  | None => discard
  | Some c =>
      if negb (isVisible t) || negb (truthy (trim (value t))) then discard else
      let c :=
        c ;> Ctx.save
          ;> Ctx.set_fillStyle (hex (color g))
          ;> Ctx.set_font {| Ctx.font_weight := "bold";
                             Ctx.font_px := Qmax 16 (lineWidth g *! 3);
                             Ctx.font_family := "Arial" |}
          ;> Ctx.set_textAlign "center"
          ;> Ctx.set_textBaseline "middle"
          ;> Ctx.set_globalAlpha 1
          ;> Ctx.set_globalCompositeOperation Ctx.SourceOver
          ;> Ctx.set_shadowColor "rgba(255,255,255,1)"
          ;> Ctx.set_shadowBlur 4
          ;> Ctx.set_lineWidth 3
          ;> Ctx.set_strokeStyle "white"
          ;> Ctx.strokeText (value t) (text_x t) (text_y t)
          ;> Ctx.set_shadowBlur 0
          ;> Ctx.fillText (value t) (text_x t) (text_y t)
          ;> Ctx.restore in
      s ;> setCtx (Some c) ;> saveState ;> setTextInput (hide "")
  end.

(** The [onChange] handler of the text input. *)
Definition handleTextChange (v : string) (s : State) : State :=
  let t := textInput s in
  setTextInput (mkTextInput (isVisible t) (text_x t) (text_y t) v (rotation t)) s.

Definition handleInputKeyDown (key : string) (s : State) : State :=
  if String.eqb key "Enter" then commitText s
  else if String.eqb key "Escape" then
    let t := textInput s in
    let s' := setTextInput (mkTextInput false (text_x t) (text_y t) (value t) (rotation t)) s in
    if Tool_eqb (tool (settings s)) Line then saveState s' else s'
  else s.

(** *** Pointer-down, pointer-move and pointer-up on the container *)

Definition handleMouseDown (e : MouseEvent) (s : State) : State :=
  if Tool_eqb (tool (settings s)) Pan || (button e =? 1)%Z then
    s ;> setIsPanning true ;> setLastPanPoint (mkPoint (clientX e) (clientY e))
  else
    match ctx s with
    | None => s
    | Some c =>
        if negb (canvasRef s) then s else
        let p := getPos e s in
        if isVisible (textInput s) then commitText s
        else if Tool_eqb (tool (settings s)) Text then
          setTextInput (mkTextInput true (pt_x p) (pt_y p) "" None) s
        else
          s ;> setIsDrawing true
            ;> setStartPos (Some p)
            ;> setSnapshot (Some (Ctx.getImageData c))
            ;> setCtx (Some (c ;> Ctx.beginPath
                               ;> applyStyles (settings s)
                               ;> Ctx.moveTo (pt_x p) (pt_y p)))
    end.

(** The drawing of one pointer-move of a gesture started at [start], the
    pointer now at [(x, y)]. *)
Definition drawMove (g : Settings) (start : Point) (snap : ImageData) (x y : Q)
    (c : Ctx.Context2D) : Ctx.Context2D :=
  let c :=
    match tool g with
    | Line | Arrow | Rect | Circle => Ctx.putImageData snap c
    | _ => c
    end in
  let c := c ;> Ctx.beginPath ;> applyStyles g in
  match tool g with
  | Pen | Highlighter | Eraser =>
      c ;> Ctx.lineTo x y ;> Ctx.stroke
  | Line =>
      c ;> Ctx.moveTo (pt_x start) (pt_y start)
        ;> Ctx.lineTo x y
        ;> Ctx.stroke
        ;> drawTHeads g (pt_x start) (pt_y start) x y
  | Rect =>
      let w := x -! pt_x start in
      let h := y -! pt_y start in
      let c :=
        if isFilled g then
          c ;> Ctx.set_globalAlpha (opacity g *! 0.3)
            ;> Ctx.fillRect (pt_x start) (pt_y start) w h
            ;> Ctx.set_globalAlpha (opacity g)
        else c in
      Ctx.strokeRect (pt_x start) (pt_y start) w h c
  | Circle =>
      let radius :=
        Math_sqrt (Math_pow2 (x -! pt_x start) +! Math_pow2 (y -! pt_y start)) in
      let c :=
        c ;> Ctx.beginPath
          ;> Ctx.arc (pt_x start) (pt_y start) radius 0 (2 *! Math_PI) in
      let c :=
        if isFilled g then
          c ;> Ctx.set_globalAlpha (opacity g *! 0.3)
            ;> Ctx.fill
            ;> Ctx.set_globalAlpha (opacity g)
        else c in
      Ctx.stroke c
  | Arrow => drawArrow g (pt_x start) (pt_y start) x y c
  | Text | Pan => c
  end.

Definition handleMouseMove (e : MouseEvent) (s : State) : State :=
  let v := view s in
  if isPanning v then
    let deltaX := clientX e -! pt_x (lastPanPoint v) in
    let deltaY := clientY e -! pt_y (lastPanPoint v) in
    s ;> setPan (mkPoint (pt_x (pan v) +! deltaX) (pt_y (pan v) +! deltaY))
      ;> setLastPanPoint (mkPoint (clientX e) (clientY e))
  else
    match isDrawing s, ctx s, canvasRef s, startPos s, snapshot s with
    | true, Some c, true, Some start, Some snap =>
        let p := getPos e s in
        setCtx (Some (drawMove (settings s) start snap (pt_x p) (pt_y p) c)) s
    | _, _, _, _, _ => s
    end.

Definition handleMouseUp (e : MouseEvent) (s : State) : State :=
  if isPanning (view s) then setIsPanning false s
  else
    match isDrawing s, ctx s, startPos s with
    | true, Some c, Some start =>
        let s := setIsDrawing false s in
        match tool (settings s) with
        | Line =>
            let p := getPos e s in
            let distancePx :=
              Math_sqrt (Math_pow2 (pt_x p -! pt_x start)
                         +! Math_pow2 (pt_y p -! pt_y start)) in
            let cm := toFixed1 (distancePx /! 38) in
            let midX := (pt_x start +! pt_x p) /! 2 in
            let midY := (pt_y start +! pt_y p) /! 2 in
            setTextInput (mkTextInput true midX midY (cm ++ " cm") None) s
        | Pen | Highlighter | Eraser =>
            saveState (setCtx (Some (Ctx.closePath c)) s)
        | _ => saveState s
        end
    | _, _, _ => s
    end.

(** The handlers the container is rendered with: [onWheel], [onMouseDown],
    [onMouseMove], [onMouseUp] and [onMouseLeave]. *)
Inductive ContainerEvent :=
| onWheel (e : WheelEvent)
| onMouseDown (e : MouseEvent)
| onMouseMove (e : MouseEvent)
| onMouseUp (e : MouseEvent)
| onMouseLeave (e : MouseEvent).

Definition containerHandler (ev : ContainerEvent) : State -> State :=
  match ev with
  | onWheel e => handleWheel e
  | onMouseDown e => handleMouseDown e
  | onMouseMove e => handleMouseMove e
  | onMouseUp e => handleMouseUp e
  | onMouseLeave e => handleMouseUp e
  end.

(** *** Finalization *)

Inductive SaveAction := download | attach.

(** What [handleSave] hands over: a link that is clicked, or a call of
    [onSave]. *)
Inductive SaveEffect :=
| LinkClick (filename href : string)
| OnSave (dataUrl description : string).

(** The bitmap of the mounted canvas; a canvas no context was made for is
    blank. *)
Definition canvasBitmap (s : State) : ImageData :=
  match ctx s with
  | Some c => Ctx.bitmap c
  | None => blankImage (fst (dimensions s)) (snd (dimensions s))
  end.

(** [now] is the value of [Date.now()]. *)
Definition handleSave (action : SaveAction) (now : Z) (s : State) : option SaveEffect :=
  if negb (canvasRef s) || (fst (dimensions s) =? 0)%nat then None else
  let w := fst (dimensions s) in
  let h := snd (dimensions s) in
  let tempCanvas := blankImage w h in
  let tempCanvas := Ctx.drawImageScaled (bgImage s) w h tempCanvas in
  let tempCanvas := Ctx.drawImage (canvasBitmap s) tempCanvas in
  let dataUrl := Ctx.toDataURL tempCanvas in
  match action with
  | download =>
      Some (LinkClick
              ("laudo_anotado_"
               ++ DecimalString.NilZero.string_of_int (Z.to_int now) ++ ".png")
              dataUrl)
  | attach => Some (OnSave dataUrl (description s))
  end.

(** *** Initialization *)

(** The [onload] handler of the image: [img] is the decoded image, [w] and
    [h] its size. *)
Definition onImageLoad (img : ImageData) (s : State) : State :=
  match container s with
  | None => s
  | Some cont =>
      if negb (canvasRef s) then s else
      let w := inject_Z (Z.of_nat (width img)) in
      let h := inject_Z (Z.of_nat (height img)) in
      let maxWidth := clientWidth cont -! 40 in
      let maxHeight := 600 in
      let scaleFit := Qmin (maxWidth /! w) (maxHeight /! h) in
      let s := setDimensions (width img, height img) s in
      let s :=
        if Qlt_le_dec scaleFit 1 then
          let offsetX := (clientWidth cont -! w *! scaleFit) /! 2 in
          let offsetY := (clientHeight cont -! h *! scaleFit) /! 2 in
          s ;> setZoom scaleFit ;> setPan (mkPoint offsetX offsetY)
        else
          let offsetX := (clientWidth cont -! w) /! 2 in
          let offsetY := (clientHeight cont -! h) /! 2 in
          setPan (mkPoint (if Qlt_le_dec 0 offsetX then offsetX else 0)
                          (if Qlt_le_dec 0 offsetY then offsetY else 0)) s in
      let context :=
        Ctx.mkContext (blankImage (width img) (height img)) Ctx.defaultStyle [] [] [] in
      let emptyData := Ctx.getImageData context in
      s ;> setCtx (Some context) ;> setHistory [emptyData]
  end.

End Component.

(** ** Committed actions

    A committed action is a drawing on the canvas followed by [saveState]:
    [handleMouseUp] after the strokes of a gesture, [clearCanvas] after
    [clearRect], [commitText] after the text was rasterised.  The drawing is
    any change [f] of the context. *)

Definition drawOn (f : Ctx.Context2D -> Ctx.Context2D) (s : State) : State :=
  match ctx s with
  | Some c => setCtx (Some (f c)) s
  | None => s
  end.

Definition commitAction (f : Ctx.Context2D -> Ctx.Context2D) (s : State) : State :=
  saveState (drawOn f s).

Definition commits (fs : list (Ctx.Context2D -> Ctx.Context2D)) (s : State) : State :=
  fold_left (fun s f => commitAction f s) fs s.

(** The contexts and the surfaces a sequence of drawings goes through,
    starting from [c]: the first is [c] itself, the last the one after the
    last drawing. *)
Fixpoint contexts (c : Ctx.Context2D) (fs : list (Ctx.Context2D -> Ctx.Context2D))
    : list Ctx.Context2D :=
  c :: match fs with
       | [] => []
       | f :: fs' => contexts (f c) fs'
       end.

Definition surfaces (c : Ctx.Context2D) (fs : list (Ctx.Context2D -> Ctx.Context2D))
    : list ImageData :=
  map Ctx.bitmap (contexts c fs).

(** The context after all the drawings. *)
Definition drawAll (fs : list (Ctx.Context2D -> Ctx.Context2D)) (c : Ctx.Context2D)
    : Ctx.Context2D :=
  fold_left (fun c f => f c) fs c.

(** The surface of a session; a session without context has none. *)
Definition surface (s : State) : option ImageData :=
  option_map Ctx.bitmap (ctx s).

(** The state established by the [onload] handler: the history holds the
    empty snapshot of the fresh canvas and nothing can be redone. *)
Definition initial (s : State) (c : Ctx.Context2D) : Prop :=
  ctx s = Some c /\ canvasRef s = true /\
  history s = [Ctx.bitmap c] /\ redoStack s = [].

(** The configured depth of the history. *)
Definition maxDepth : nat := 20.

(** The history after the snapshots [all] were taken one after the other:
    the newest [maxDepth] of them, the surface being the last one. *)
Definition recorded (all : list ImageData) (s : State) : Prop :=
  exists c, ctx s = Some c /\ canvasRef s = true /\ redoStack s = [] /\
            history s = skipn (List.length all - maxDepth) all /\
            last all (Ctx.bitmap c) = Ctx.bitmap c /\ all <> [].

(** The session [s] moved to the position [j] of the snapshots [H]: the
    first [j] of them in the history, the others on the redo stack, the
    surface showing the one of index [j - 1]. *)
Definition seek (H : list ImageData) (j : nat) (c : Ctx.Context2D) (s : State) : State :=
  s ;> setRedoStack (skipn j H)
    ;> setHistory (firstn j H)
    ;> setCtx (Some (Ctx.putImageData (nth (j - 1) H (Ctx.bitmap c)) c)).

(** The two stacks together hold at most [maxDepth] snapshots and the
    history is not empty. *)
Definition bounded (s : State) : Prop :=
  (1 <= List.length (history s))%nat /\
  (List.length (history s) + List.length (redoStack s) <= maxDepth)%nat.

(** The operations on the history, in any order. *)
Inductive HistoryOp :=
| Commit (f : Ctx.Context2D -> Ctx.Context2D)
| Undo
| Redo.

Definition runOp (s : State) (op : HistoryOp) : State :=
  match op with
  | Commit f => commitAction f s
  | Undo => handleUndo s
  | Redo => handleRedo s
  end.

(** ** Paint operations *)

(** The paint operations issued between the contexts [c0] and [c]. *)
Definition newOps (c0 c : Ctx.Context2D) : list Ctx.PaintOp :=
  skipn (List.length (Ctx.trace c0)) (Ctx.trace c).

(** From [c0] to [c] everything was painted in the compositing mode [v],
    which is still the current one. *)
Definition paintedUnder (v : Ctx.CompositeOp) (c0 c : Ctx.Context2D) : Prop :=
  Ctx.globalCompositeOperation (Ctx.style c) = v /\
  exists ops, Ctx.trace c = (Ctx.trace c0 ++ ops)%list /\
              Forall (fun o => Ctx.globalCompositeOperation (Ctx.op_style o) = v) ops.

(** A call that only changes the drawing state. *)
Definition restyles (f : Ctx.Context2D -> Ctx.Context2D) : Prop :=
  forall c, exists st, f c = Ctx.with_style st c.

(** The drawing state [commitText] strokes the halo of the text under, and
    the one it fills the glyphs under. *)
Definition haloStyle {N : JsNumber} (g : Settings) (st : Ctx.Style) : Ctx.Style :=
  Ctx.mkStyle "white" (hex (color g)) 3 (Ctx.lineCap st) (Ctx.lineJoin st) 1
    (Ctx.lineDash st) Ctx.SourceOver
    {| Ctx.font_weight := "bold"; Ctx.font_px := Qmax 16 (lineWidth g *! 3);
       Ctx.font_family := "Arial" |}
    "center" "middle" "rgba(255,255,255,1)" 4.

Definition glyphStyle {N : JsNumber} (g : Settings) (st : Ctx.Style) : Ctx.Style :=
  Ctx.mkStyle "white" (hex (color g)) 3 (Ctx.lineCap st) (Ctx.lineJoin st) 1
    (Ctx.lineDash st) Ctx.SourceOver
    {| Ctx.font_weight := "bold"; Ctx.font_px := Qmax 16 (lineWidth g *! 3);
       Ctx.font_family := "Arial" |}
    "center" "middle" "rgba(255,255,255,1)" 0.

(** The buffer [handleSave] encodes: a blank canvas of the native size, the
    source image drawn on it, then the annotation canvas. *)
Definition exportBuffer {B : Ctx.Browser} (s : State) : ImageData :=
  let w := fst (dimensions s) in
  let h := snd (dimensions s) in
  Ctx.drawImage (canvasBitmap s) (Ctx.drawImageScaled (bgImage s) w h (blankImage w h)).

(** ** A reference runtime

    Exact rational arithmetic with rational approximations of the [Math]
    functions, and a browser with a bounding-box rasteriser, a
    nearest-neighbour [drawImage] and a textual stand-in for the PNG
    encoder.  They serve to evaluate the handlers on concrete inputs; no
    property below depends on them. *)

Definition sqrt16 (q : Q) : Q :=
  Qred (inject_Z (Z.sqrt (Qfloor (q * 4294967296))) / 65536).

Definition pi_approx : Q := 355 # 113.

Definition cos6 (x : Q) : Q :=
  let x2 := x * x in Qred (1 - x2 / 2 + x2 * x2 / 24 - x2 * x2 * x2 / 720).

Definition sin7 (x : Q) : Q :=
  let x2 := x * x in
  Qred (x * (1 - x2 / 6 + x2 * x2 / 120 - x2 * x2 * x2 / 5040)).

Definition atan1 (t : Q) : Q := t / (1 + (28 # 100) * t * t).

Definition atan2_approx (y x : Q) : Q :=
  Qred (if Qle_bool (Qabs y) (Qabs x) then
          if Qeq_bool x 0 then 0
          else if Qle_bool 0 x then atan1 (y / x)
          else if Qle_bool 0 y then atan1 (y / x) + pi_approx
          else atan1 (y / x) - pi_approx
        else if Qle_bool 0 y then pi_approx / 2 - atan1 (x / y)
        else - (pi_approx / 2) - atan1 (x / y)).

Definition exactNumber : JsNumber :=
  {| fadd := fun a b => Qred (a + b);
     fsub := fun a b => Qred (a - b);
     fmul := fun a b => Qred (a * b);
     fdiv := fun a b => Qred (a / b);
     Math_sqrt := sqrt16;
     Math_atan2 := atan2_approx;
     Math_cos := cos6;
     Math_sin := sin7;
     Math_PI := pi_approx |}.

Definition hexDigit (c : ascii) : Z :=
  let n := Z.of_nat (nat_of_ascii c) in
  if (48 <=? n)%Z && (n <=? 57)%Z then n - 48
  else if (65 <=? n)%Z && (n <=? 70)%Z then n - 55
  else if (97 <=? n)%Z && (n <=? 102)%Z then n - 87
  else 0.

Definition channel (h l : ascii) : Q :=
  Qred (inject_Z (16 * hexDigit h + hexDigit l) / 255).

Definition parseColor (s : string) : Q * Q * Q :=
  match list_ascii_of_string s with
  | ["#"; r1; r0; g1; g0; b1; b0]%char =>
      (channel r1 r0, channel g1 g0, channel b1 b0)
  | _ =>
      if String.eqb s "white" || String.eqb s "rgba(255,255,255,1)"
      then (1, 1, 1) else (0, 0, 0)
  end.

(** The points a shape is built on, and how far the paint reaches around
    them. *)
Definition pathPoints (p : list Ctx.PathCmd) : list (Q * Q) :=
  flat_map (fun c =>
    match c with
    | Ctx.MoveTo x y | Ctx.LineTo x y => [(x, y)]
    | Ctx.Arc x y r _ _ => [(x - r, y - r); (x + r, y + r)]
    | Ctx.ClosePath => []
    end) p.

Definition shapePoints (sh : Ctx.Shape) (st : Ctx.Style) : list (Q * Q) :=
  match sh with
  | Ctx.StrokePath p | Ctx.FillPath p => pathPoints p
  | Ctx.StrokeRect x y w h | Ctx.FillRect x y w h => [(x, y); (x + w, y + h)]
  | Ctx.StrokeText s x y | Ctx.FillText s x y =>
      let half := Ctx.font_px (Ctx.font st) * inject_Z (Z.of_nat (String.length s)) / 4 in
      [(x - half, y - Ctx.font_px (Ctx.font st) / 2);
       (x + half, y + Ctx.font_px (Ctx.font st) / 2)]
  end.

Definition shapeMargin (sh : Ctx.Shape) (st : Ctx.Style) : Q :=
  match sh with
  | Ctx.StrokePath _ | Ctx.StrokeRect _ _ _ _ | Ctx.StrokeText _ _ _ =>
      Ctx.lineWidth st / 2
  | _ => 0
  end.

Definition boxCoverage (w : nat) (sh : Ctx.Shape) (st : Ctx.Style) (i : nat) : Q :=
  match shapePoints sh st, w with
  | [], _ | _, O => 0
  | (x0, y0) :: pts, _ =>
      let m := shapeMargin sh st in
      let xmin := fold_right (fun p a => Qmin (fst p) a) x0 pts - m in
      let xmax := fold_right (fun p a => Qmax (fst p) a) x0 pts + m in
      let ymin := fold_right (fun p a => Qmin (snd p) a) y0 pts - m in
      let ymax := fold_right (fun p a => Qmax (snd p) a) y0 pts + m in
      let cx := inject_Z (Z.of_nat (i mod w)) + (1 # 2) in
      let cy := inject_Z (Z.of_nat (i / w)) + (1 # 2) in
      if Qle_bool xmin cx && Qle_bool cx xmax && Qle_bool ymin cy && Qle_bool cy ymax
      then 1 else 0
  end.

Definition nearest (w h : nat) (img : ImageData) : ImageData :=
  {| width := w; height := h;
     data := map (fun i =>
                    let col := ((i mod w) * width img / w)%nat in
                    let row := ((i / w) * height img / h)%nat in
                    nth (row * width img + col) (data img) transparent)
                 (seq 0 (w * h)) |}.

Definition decimal (n : Z) : string :=
  DecimalString.NilZero.string_of_uint (N.to_uint (Z.to_N n)).

Definition byteOf (v : Q) : string := decimal (Qfloor (v * 255 + (1 # 2))).

Definition dumpImage (img : ImageData) : string :=
  "data:image/png;" ++ decimal (Z.of_nat (width img)) ++ "x"
  ++ decimal (Z.of_nat (height img))
  ++ String.concat ""
       (map (fun p => ":" ++ byteOf (chR p) ++ "," ++ byteOf (chG p) ++ ","
                      ++ byteOf (chB p) ++ "," ++ byteOf (chA p))
            (data img)).

Definition boxBrowser : Ctx.Browser :=
  {| Ctx.coverage := boxCoverage;
     Ctx.cssColor := parseColor;
     Ctx.resample := nearest;
     Ctx.toDataURL := dumpImage |}.

(** ** Sample sessions *)

Definition sampleContainer : Container :=
  {| rect_left := 10; rect_top := 20; clientWidth := 800; clientHeight := 600 |}.

(** A 4 by 3 image, opaque grey. *)
Definition sampleImage : ImageData :=
  {| width := 4; height := 3;
     data := repeat (mkPixel (1 # 2) (1 # 2) (1 # 2) 1) 12 |}.

Definition sampleSettings : Settings := mkSettings Pen cEF4444 3 1 solid false.

(** A session whose container and canvas are mounted, before [onload] runs:
    the canvas is rendered, which the component does when [dimensions.width]
    is not 0, and no context was made for it yet. *)
Definition mounted : State :=
  mkState (Some sampleContainer) true sampleImage (4, 3)%nat
    (mkViewport 1 (mkPoint 0 0) false (mkPoint 0 0)) None [] []
    sampleSettings false None None "" (mkTextInput false 0 0 "" None).

(** The session once the image is loaded. *)
Definition loaded : State := onImageLoad (N := exactNumber) sampleImage mounted.

Definition sampleWheel : WheelEvent :=
  {| wheel_clientX := 410; wheel_clientY := 320; deltaY := -500;
     ctrlKey := false; metaKey := false |}.

Definition sampleMouse : MouseEvent :=
  {| clientX := 410; clientY := 320; button := 0 |}.

(** The unit roundoff of binary64. *)
Definition binary64_u : Q := 1 # 9007199254740992.

(** The context of the sample session. *)
Definition loadedContext : Ctx.Context2D :=
  Ctx.mkContext (blankImage 4 3) Ctx.defaultStyle [] [] [].

(** Filling the whole sample canvas with the current fill style. *)
Definition fillAll : Ctx.Context2D -> Ctx.Context2D :=
  Ctx.fillRect (B := boxBrowser) 0 0 4 3.

Definition paintedContext : Ctx.Context2D := fillAll loadedContext.


(** The context of a session that has one. *)
Definition contextOf (s : State) : Ctx.Context2D :=
  match ctx s with Some c => c | None => loadedContext end.

(** A ruler gesture on the sample canvas, from the world point (1, 1/2) to
    (3, 1/2), after which the measurement in the overlay is deleted. *)
Definition rulerDown : MouseEvent := {| clientX := 409; clientY := 319; button := 0 |}.

Definition rulerUp : MouseEvent := {| clientX := 411; clientY := 319; button := 0 |}.

Definition rulerGesture (s : State) : State :=
  s ;> setTool Line
    ;> handleMouseDown (N := exactNumber) (B := boxBrowser) rulerDown
    ;> handleMouseMove (N := exactNumber) (B := boxBrowser) rulerUp
    ;> handleMouseUp (N := exactNumber) rulerUp
    ;> handleTextChange "".

(** The sample session after 19 committed actions: its history is full. *)
Definition fullSession : State := commits (repeat fillAll 19) loaded.

(** The text tool clicked at the world point (1, 1/2) and a note typed in
    the overlay. *)
Definition typing : State :=
  loaded ;> setTool Text
         ;> handleMouseDown (N := exactNumber) (B := boxBrowser) rulerDown
         ;> handleTextChange "note".


(** The note of [typing] committed with the eraser selected, at half
    opacity, on a context an eraser stroke left in destination-out. *)
Definition erasing : State :=
  let s := setSettings (mkSettings Eraser cEF4444 3 (1 # 2) solid false) typing in
  setCtx (Some (applyStyles (N := exactNumber) (settings s) (contextOf typing))) s.

(** The sample session with a committed ruler line on it, and two views of
    it. *)
Definition annotated : State :=
  commitText (N := exactNumber) (B := boxBrowser) (rulerGesture loaded).



(** ** Sequences of interactions *)

(** What the user does to the view: the zoom buttons of the toolbar and the
    events of the container. *)
Inductive Interaction :=
| zoomButton (delta : Q)
| onContainer (ev : ContainerEvent).

Definition interact {N : JsNumber} {B : Ctx.Browser} (s : State) (i : Interaction) : State :=
  match i with
  | zoomButton delta => handleZoom delta s
  | onContainer ev => containerHandler ev s
  end.

(** The pointer-moves of a drag, one after the other. *)
Definition drag {N : JsNumber} {B : Ctx.Browser} (moves : list MouseEvent) (s : State) : State :=
  fold_left (fun s e => handleMouseMove e s) moves s.

(** The surface shows the newest entry of the history. *)
Definition synced (s : State) (c : Ctx.Context2D) : Prop :=
  ctx s = Some c /\ canvasRef s = true /\
  history s <> [] /\ last (history s) (Ctx.bitmap c) = Ctx.bitmap c.

(** The history after one more snapshot [b]. *)
Definition pushed (h : list ImageData) (b : ImageData) : list ImageData :=
  (if (List.length h <? maxDepth)%nat then h ++ [b] else tl h ++ [b])%list.

(** Two fills committed on the sample session and the second one undone, and
    the context of that session. *)
Definition undoneOnce : State := handleUndo (commits [fillAll; fillAll] loaded).

Definition loadedPainted : Ctx.Context2D := contextOf undoneOnce.


Definition panTo : MouseEvent := {| clientX := 500; clientY := 250; button := 1 |}.


(** ** Contexts that paint alike *)

(** Two contexts with the same bitmap, drawing state and current path: every
    call of the component that does not use [save] and [restore] gives the
    same surface on both. *)
Definition alike (c c' : Ctx.Context2D) : Prop :=
  Ctx.bitmap c = Ctx.bitmap c' /\ Ctx.style c = Ctx.style c' /\
  Ctx.path c = Ctx.path c'.

(** The tools whose preview is redrawn on the snapshot at every move. *)
Definition isShape (t : Tool) : bool :=
  match t with
  | Line | Arrow | Rect | Circle => true
  | _ => false
  end.

(** The drawing state [applyStyles] leaves for a shape tool when the line
    width and the opacity are values the context accepts. *)
Definition shapeStyle {N : JsNumber} (g : Settings) (st : Ctx.Style) : Ctx.Style :=
  Ctx.mkStyle (hex (color g)) (hex (color g)) (lineWidth g) "round" "round" (opacity g)
    match lineStyle g with
    | dashed => [lineWidth g *! 3; lineWidth g *! 2]
    | dotted => [lineWidth g; lineWidth g *! 2]
    | solid => []
    end
    Ctx.SourceOver (Ctx.font st) (Ctx.textAlign st) (Ctx.textBaseline st)
    (Ctx.shadowColor st) (Ctx.shadowBlur st).

(** A second pointer position for the sample gestures, and the sample
    session with the rectangle tool, filled. *)
Definition rectSession : State :=
  setSettings (mkSettings Rect c3B82F6 3 1 dashed true) loaded.

(** The tools whose gesture is committed by the pointer-up: all but the
    ruler (committed with its label), the text tool and the pan tool (no
    gesture on the canvas). *)
Definition commitsOnUp (t : Tool) : bool :=
  match t with
  | Pen | Highlighter | Eraser | Arrow | Rect | Circle => true
  | Line | Text | Pan => false
  end.

(** A whole gesture: pointer-down, the moves, pointer-up. *)
Definition gesture {N : JsNumber} {B : Ctx.Browser} (e0 : MouseEvent)
    (moves : list MouseEvent) (e1 : MouseEvent) (s : State) : State :=
  handleMouseUp e1 (drag moves (handleMouseDown e0 s)).

(** The sample session with one committed fill and the arrow tool. *)
Definition arrowSession : State :=
  setTool Arrow (commits [fillAll] loaded).

(** ** The controls of the component

    The tool buttons of the sidebar, the colour swatches, the width slider,
    the two line style buttons and the fill toggle of the top bar. *)

Definition setColor (c : Color) (s : State) : State :=
  let g := settings s in
  setSettings (mkSettings (tool g) c (lineWidth g) (opacity g) (lineStyle g) (isFilled g)) s.
Definition setLineWidth (w : Q) (s : State) : State :=
  let g := settings s in
  setSettings (mkSettings (tool g) (color g) w (opacity g) (lineStyle g) (isFilled g)) s.
Definition setLineStyle (l : LineStyle) (s : State) : State :=
  let g := settings s in
  setSettings (mkSettings (tool g) (color g) (lineWidth g) (opacity g) l (isFilled g)) s.
Definition setIsFilled (b : bool) (s : State) : State :=
  let g := settings s in
  setSettings (mkSettings (tool g) (color g) (lineWidth g) (opacity g) (lineStyle g) b) s.
Definition setDescription (v : string) (s : State) : State :=
  mkState (container s) (canvasRef s) (bgImage s) (dimensions s) (view s) (ctx s)
    (history s) (redoStack s) (settings s) (isDrawing s) (startPos s) (snapshot s)
    v (textInput s).

(** The colours the top bar renders a swatch for, in its order. *)
Definition swatches : list Color :=
  [cEF4444; cEAB308; c22C55E; c3B82F6; c9333EA; c000000; cFFFFFF].

(** The value of [<input type="range" min="1" max="25" step="1">] with the
    thumb dragged to [v]: the browser keeps it between [min] and [max]. *)
Definition rangeValue (lo hi v : Z) : Z := Z.max lo (Z.min hi v).

Inductive ToolbarEvent :=
| toolButton (t : Tool)
| swatchButton (i : nat)
| widthSlider (v : Z)
| solidButton
| dashedButton
| fillButton.

Definition toolbar (e : ToolbarEvent) (s : State) : State :=
  match e with
  | toolButton t => setTool t s
  | swatchButton i =>
      match nth_error swatches i with
      | Some c => setColor c s
      | None => s
      end
  | widthSlider v => setLineWidth (inject_Z (rangeValue 1 25 v)) s
  | solidButton => setLineStyle solid s
  | dashedButton => setLineStyle dashed s
  | fillButton => setIsFilled (negb (isFilled (settings s))) s
  end.

(** Everything the user can do to a session: the toolbar, the zoom buttons
    and the container, the reset, undo, redo and clear buttons, the text
    overlay (rendered while it is visible) and the description field. *)
Inductive UiEvent :=
| onToolbar (e : ToolbarEvent)
| onView (i : Interaction)
| resetButton
| undoButton
| redoButton
| clearButton
| textChange (v : string)
| textKeyDown (key : string)
| textBlur
| descriptionChange (v : string).

Definition ui {N : JsNumber} {B : Ctx.Browser} (s : State) (e : UiEvent) : State :=
  match e with
  | onToolbar e => toolbar e s
  | onView i => interact s i
  | resetButton => resetView s
  | undoButton => handleUndo s
  | redoButton => handleRedo s
  | clearButton => clearCanvas s
  | textChange v => if isVisible (textInput s) then handleTextChange v s else s
  | textKeyDown key => if isVisible (textInput s) then handleInputKeyDown key s else s
  | textBlur => if isVisible (textInput s) then commitText s else s
  | descriptionChange v => setDescription v s
  end.

(** The settings the controls can produce from the initial ones: the
    opacity is 1, the line width a whole number from 1 to 25, the line style
    solid or dashed, the colour one of the swatches. *)
Definition offered (g : Settings) : Prop :=
  opacity g = 1 /\
  (exists n : Z, (1 <= n <= 25)%Z /\ lineWidth g = inject_Z n) /\
  lineStyle g <> dotted /\
  In (color g) swatches.

(** A session of the sample: controls, a gesture, the history buttons. *)
Definition sampleEvents : list UiEvent :=
  [onToolbar (toolButton Rect); onToolbar (widthSlider 40); onToolbar dashedButton;
   onToolbar fillButton; onToolbar (swatchButton 4); onToolbar (swatchButton 9);
   onView (onContainer (onMouseDown rulerDown)); onView (onContainer (onMouseMove panTo));
   onView (onContainer (onMouseLeave panTo)); undoButton; redoButton; clearButton;
   onToolbar (toolButton Text); onView (onContainer (onMouseDown rulerDown));
   textChange "note"; textKeyDown "Enter"; onView (zoomButton 0.1); resetButton;
   descriptionChange "cyst"].



(** ** The first render

    The component renders the canvas only when [dimensions.width > 0], and
    [canvasRef.current] is the canvas when it is rendered and [null]
    otherwise. *)
Definition canvasRendered (s : State) : bool := negb (fst (dimensions s) =? 0)%nat.

(** The state of the first render, with the values [useState] starts from:
    the container is mounted, the canvas is not. *)
Definition firstRender (cont : Container) (img : ImageData) : State :=
  mkState (Some cont) false img (0, 0)%nat
    (mkViewport 1 (mkPoint 0 0) false (mkPoint 0 0)) None [] []
    (mkSettings Pen cEF4444 3 1 solid false) false None None ""
    (mkTextInput false 0 0 "" None).

(** The sample session with one committed fill and the ruler. *)
Definition rulerSession : State :=
  setTool Line (commits [fillAll] loaded).

(** * The illustration view and the service behind it

    [IllustrationView] asks [geminiService] for an illustration; the service
    meters the requests of a user without a key of their own against a
    monthly quota kept in [localStorage].

    Conventions of the embedding.
    - The window is the record [Window]: the two items of [localStorage] the
      code reads, the key of the build ([process.env.API_KEY]), and the events
      dispatched and alerts shown so far.  The item ['endo_usage_stats'] is
      only written by [saveUsageStats], as the JSON text of a [UsageStats];
      the item is held as the record of its fields ([Parsed]), in which an
      item written before [imageGenCount] was introduced lacks that field.
    - The counters are JS numbers with whole values, held as the whole number
      ([Z]) they are.  A JS number is a binary64 float: it holds every whole
      number up to 2^53 in magnitude and, beyond, only the multiples of a
      power of two, so the result of an addition or subtraction is rounded to
      the nearest such number ([toNumber]); [n++] leaves an [n] of 2^53 as it
      is.  [JSON.parse] reads a numeral with the same rounding.  The exponent
      range of binary64 is left out: the numbers of this code are counters
      plus one and limits less a counter, which stay finite.
    - [new Date().toISOString().slice(0, 7)] is the argument [currentMonth] of
      the functions that read the clock.
    - A promise is the value it settles to ([Outcome]); the requests to the
      API are numbered in the order they are issued, and how the request of
      each number ends is given by an oracle ([Api]). *)

(** [String.prototype.includes]. *)
Fixpoint includes (s sub : string) : bool :=
  String.prefix sub s ||
  match s with
  | EmptyString => false
  | String _ s' => includes s' sub
  end.

(** A string or [null]/[undefined] used as a condition. *)
Definition given (o : option string) : bool :=
  match o with
  | Some s => truthy s
  | None => false
  end.

(** What a [catch] reads of the value it caught: [error?.status] and
    [error?.message], [None] for [undefined]. *)
Record JsError := mkError { status : option Z; message : option string }.

(** [new Error(msg)]. *)
Definition Error (msg : string) : JsError := mkError None (Some msg).

Inductive Outcome (T : Type) :=
| Resolved (v : T)
| Rejected (error : JsError).
Arguments Resolved {T} v.
Arguments Rejected {T} error.

Definition status_is (error : JsError) (n : Z) : bool :=
  match status error with
  | Some k => (k =? n)%Z
  | None => false
  end.

(** [error?.message?.includes(sub)] as a condition. *)
Definition message_includes (error : JsError) (sub : string) : bool :=
  match message error with
  | Some m => includes m sub
  | None => false
  end.

Module Gemini.
Local Open Scope Z_scope.

(** *** Whole numbers as JS numbers *)

(** The gap between the JS numbers around [a], for [2^53 <= a]: the
    significand has 53 bits. *)
Definition ulp (a : Z) : Z := 2 ^ (Z.log2 a - 52).

(** The JS number nearest to the whole number [0 <= a], a tie going to the
    even significand. *)
Definition roundNearestEven (a : Z) : Z :=
  if a <=? 2 ^ 53 then a else
  let u := ulp a in
  let q := a / u in
  let r := a mod u in
  if 2 * r <? u then q * u
  else if u <? 2 * r then (q + 1) * u
  else if Z.even q then q * u else (q + 1) * u.

(** The JS number that a numeral, or the exact result of an operation on
    whole JS numbers, becomes. *)
Definition toNumber (z : Z) : Z := Z.sgn z * roundNearestEven (Z.abs z).

(** *** The usage quota *)

Inductive UsageType := SEARCH | DEEP_THINK | IMAGE_GEN.

Record UsageStats := mkStats {
  month : string;
  searchCount : Z;
  deepThinkCount : Z;
  imageGenCount : Z
}.

Definition LIMITS (type : UsageType) : Z :=
  match type with
  | SEARCH => 15
  | DEEP_THINK => 5
  | IMAGE_GEN => 2
  end.

(** The item ['endo_usage_stats']: the month and the numerals of its JSON
    text. *)
Record Parsed := mkParsed {
  parsed_month : string;
  parsed_searchCount : Z;
  parsed_deepThinkCount : Z;
  parsed_imageGenCount : option Z
}.

Record Window := mkWindow {
  endo_usage_stats : option Parsed;
  endo_custom_api_key : option string;
  API_KEY : option string;
  dispatched : list string;
  alerts : list string
}.

Definition setItem_usage (p : Parsed) (w : Window) : Window :=
  mkWindow (Some p) (endo_custom_api_key w) (API_KEY w) (dispatched w) (alerts w).
Definition dispatchEvent (name : string) (w : Window) : Window :=
  mkWindow (endo_usage_stats w) (endo_custom_api_key w) (API_KEY w)
    (dispatched w ++ [name]) (alerts w).
Definition alert (msg : string) (w : Window) : Window :=
  mkWindow (endo_usage_stats w) (endo_custom_api_key w) (API_KEY w)
    (dispatched w) (alerts w ++ [msg]).

Definition getUsageStats (currentMonth : string) (w : Window) : UsageStats :=
  match endo_usage_stats w with
  | Some parsed =>
      if String.eqb (parsed_month parsed) currentMonth then
        mkStats (parsed_month parsed) (toNumber (parsed_searchCount parsed))
          (toNumber (parsed_deepThinkCount parsed))
          (match parsed_imageGenCount parsed with Some n => toNumber n | None => 0 end)
      else mkStats currentMonth 0 0 0
  | None => mkStats currentMonth 0 0 0
  end.

Definition saveUsageStats (stats : UsageStats) (w : Window) : Window :=
  w ;> setItem_usage (mkParsed (month stats) (searchCount stats) (deepThinkCount stats)
                        (Some (imageGenCount stats)))
    ;> dispatchEvent "endo-usage-updated".

Record Limit := mkLimit {
  allowed : bool;
  remaining : Z;
  limit : Z;
  isCustomKey : bool
}.

(** The counter of a type of usage. *)
Definition current (type : UsageType) (stats : UsageStats) : Z :=
  match type with
  | SEARCH => searchCount stats
  | DEEP_THINK => deepThinkCount stats
  | IMAGE_GEN => imageGenCount stats
  end.

Definition checkUsageLimit (currentMonth : string) (type : UsageType) (w : Window) : Limit :=
  if given (endo_custom_api_key w) then mkLimit true 9999 9999 true else
  let stats := getUsageStats currentMonth w in
  let limit := LIMITS type in
  let current := current type stats in
  mkLimit (current <? limit) (Z.max 0 (toNumber (limit - current))) limit false.

Definition incrementUsage (currentMonth : string) (type : UsageType) (w : Window) : Window :=
  if given (endo_custom_api_key w) then w else
  let stats := getUsageStats currentMonth w in
  let stats :=
    match type with
    | SEARCH =>
        mkStats (month stats) (toNumber (searchCount stats + 1)) (deepThinkCount stats)
          (imageGenCount stats)
    | DEEP_THINK =>
        mkStats (month stats) (searchCount stats) (toNumber (deepThinkCount stats + 1))
          (imageGenCount stats)
    | IMAGE_GEN =>
        mkStats (month stats) (searchCount stats) (deepThinkCount stats)
          (toNumber (imageGenCount stats + 1))
    end in
  saveUsageStats stats w.

(** *** The client and the retries *)

(** The key the client is made with, or the error [getAiClient] throws. *)
Definition getAiClient (w : Window) : Outcome string :=
  let userKey := endo_custom_api_key w in
  let apiKey := if given userKey then userKey else API_KEY w in
  match apiKey with
  | Some key =>
      if truthy key then Resolved key
      else Rejected (Error
        "API Key não encontrada. Configure sua chave nas configurações ou contate o suporte.")
  | None =>
      Rejected (Error
        "API Key não encontrada. Configure sua chave nas configurações ou contate o suporte.")
  end.

(** The network as the service sees it: how many requests were issued, and
    the delays waited for between them, in milliseconds. *)
Record Net := mkNet { calls : nat; sleeps : list Z }.

(** How the request issued as the one of number [k] ends. *)
Definition Api (T : Type) := nat -> Outcome T.

Definition isUnavailable (error : JsError) : bool :=
  status_is error 503 || status_is error 429
  || message_includes error "unavailable"
  || message_includes error "The service is currently unavailable"
  || message_includes error "Overloaded"
  || message_includes error "Too Many Requests".

Fixpoint withRetry {T} (operation : Api T) (retries : nat) (baseDelay : Z) (n : Net)
    : Outcome T * Net :=
  let issued := mkNet (S (calls n)) (sleeps n) in
  match operation (calls n) with
  | Resolved v => (Resolved v, issued)
  | Rejected error =>
      match retries with
      | S retries' =>
          if isUnavailable error then
            withRetry operation retries' (baseDelay * 2)
              (mkNet (calls issued) (sleeps issued ++ [baseDelay]))
          else (Rejected error, issued)
      | O => (Rejected error, issued)
      end
  end.

(** *** The illustration request *)

Record InlineData := { mimeType : string; data : string }.

Record Part := { inlineData : option InlineData; text : option string }.

(** [response.candidates?.[0]?.content?.parts]. *)
Record GenerateContentResponse := { parts : option (list Part) }.

(** The argument of [ai.models.generateContent]. *)
Record Request := mkRequest {
  model : string;
  contents : string;
  aspectRatio : string
}.

Record World := mkWorld { window : Window; net : Net }.

(** The first part that carries inline data, as the [for] loop finds it. *)
Fixpoint firstInline (ps : list Part) : option InlineData :=
  match ps with
  | [] => None
  | part :: ps' =>
      match inlineData part with
      | Some d => Some d
      | None => firstInline ps'
      end
  end.

Definition generateMedicalIllustration (currentMonth : string)
    (generateContent : Request -> Api GenerateContentResponse)
    (prompt size : string) (x : World) : Outcome string * World :=
  match getAiClient (window x) with
  | Rejected error => (Rejected error, x)
  | Resolved _ =>
      let modelId := "gemini-2.5-flash-image" in
      let '(r, n) := withRetry (generateContent (mkRequest modelId prompt "3:4")) 2 1000
                       (net x) in
      match r with
      | Rejected error => (Rejected error, mkWorld (window x) n)
      | Resolved response =>
          match firstInline (match parts response with Some ps => ps | None => [] end) with
          | Some d =>
              (Resolved ("data:" ++ mimeType d ++ ";base64," ++ data d),
               mkWorld (incrementUsage currentMonth IMAGE_GEN (window x)) n)
          | None =>
              (Rejected (Error "No illustration generated."), mkWorld (window x) n)
          end
      end
  end.

End Gemini.

Module IllustrationView.
Local Open Scope Z_scope.

Record LimitState := mkLimitState { remaining : Z; limit : Z; isCustom : bool }.

Record State := mkState {
  prompt : string;
  size : string;
  imageUrl : option string;
  loading : bool;
  limitState : LimitState
}.

(** The state of the first render. *)
Definition initialState : State :=
  mkState "" "1K" None false (mkLimitState 0 0 false).

Definition setLimit (l : LimitState) (s : State) : State :=
  mkState (prompt s) (size s) (imageUrl s) (loading s) l.
Definition setLoading (b : bool) (s : State) : State :=
  mkState (prompt s) (size s) (imageUrl s) b (limitState s).
Definition setImageUrl (u : option string) (s : State) : State :=
  mkState (prompt s) (size s) u (loading s) (limitState s).
Definition setPrompt (p : string) (s : State) : State :=
  mkState p (size s) (imageUrl s) (loading s) (limitState s).
Definition setSize (z : string) (s : State) : State :=
  mkState (prompt s) z (imageUrl s) (loading s) (limitState s).

Definition refreshLimit (currentMonth : string) (w : Gemini.Window) (s : State) : State :=
  let l := Gemini.checkUsageLimit currentMonth Gemini.IMAGE_GEN w in
  setLimit (mkLimitState (Gemini.remaining l) (Gemini.limit l) (Gemini.isCustomKey l)) s.

(** The listeners the view registers on the window: ['endo-usage-updated']
    and ['endo-key-updated'] refresh the limit ([storage] events come from
    other tabs and are not dispatched by this code). *)
Definition listener (currentMonth : string) (w : Gemini.Window) (s : State)
    (event : string) : State :=
  if String.eqb event "endo-usage-updated" || String.eqb event "endo-key-updated"
  then refreshLimit currentMonth w s
  else s.

(** The listeners run for the events dispatched between the windows
    [before] and [after]; within a call of the service the storage is not
    written after its event is dispatched, so that the listeners read the
    storage of [after]. *)
Definition deliver (currentMonth : string) (before after : Gemini.Window) (s : State)
    : State :=
  fold_left (listener currentMonth after)
    (skipn (List.length (Gemini.dispatched before)) (Gemini.dispatched after)) s.

Definition handleGenerate (currentMonth : string)
    (generateContent : Gemini.Request -> Gemini.Api Gemini.GenerateContentResponse)
    (s : State) (x : Gemini.World) : State * Gemini.World :=
  if negb (truthy (prompt s)) then (s, x) else
  if negb (isCustom (limitState s)) && (remaining (limitState s) <=? 0) then
    (s, Gemini.mkWorld
          (Gemini.alert
             "Limite mensal de geração de imagens atingido. Adicione sua chave (BYOK) nas configurações para uso ilimitado."
             (Gemini.window x))
          (Gemini.net x))
  else
    let s := s ;> setLoading true ;> setImageUrl None in
    let '(result, x') :=
      Gemini.generateMedicalIllustration currentMonth generateContent (prompt s) (size s) x in
    let s := deliver currentMonth (Gemini.window x) (Gemini.window x') s in
    match result with
    | Resolved url => (s ;> setImageUrl (Some url) ;> setLoading false, x')
    | Rejected error =>
        if message_includes error "API Key" then
          (setLoading false s,
           Gemini.mkWorld
             (Gemini.window x'
                ;> Gemini.dispatchEvent "endo-open-settings"
                ;> Gemini.alert
                     "É necessário configurar uma Chave de API para gerar ilustrações. As configurações foram abertas.")
             (Gemini.net x'))
        else
          (setLoading false s,
           Gemini.mkWorld (Gemini.alert "Erro ao gerar ilustração." (Gemini.window x'))
             (Gemini.net x'))
    end.

End IllustrationView.

(** ** Sessions of the illustration view *)

(** A click on the generate button with the prompt [p] typed before. *)
Definition click (currentMonth : string)
    (generateContent : Gemini.Request -> Gemini.Api Gemini.GenerateContentResponse)
    (sx : IllustrationView.State * Gemini.World) (p : string)
    : IllustrationView.State * Gemini.World :=
  IllustrationView.handleGenerate currentMonth generateContent
    (IllustrationView.setPrompt p (fst sx)) (snd sx).

(** The limit the view holds is the one the storage gives: the view was
    refreshed since the storage was last written. *)
Definition inSync (currentMonth : string) (s : IllustrationView.State)
    (w : Gemini.Window) : Prop :=
  IllustrationView.limitState s
  = IllustrationView.limitState (IllustrationView.refreshLimit currentMonth w s).

(** An API that answers every request with one image, one that is always
    overloaded, and a window without any key. *)
Definition imageApi : Gemini.Request -> Gemini.Api Gemini.GenerateContentResponse :=
  fun _ _ =>
    Resolved {| Gemini.parts :=
                  Some [{| Gemini.inlineData := None; Gemini.text := Some "caption" |};
                        {| Gemini.inlineData :=
                             Some {| Gemini.mimeType := "image/png"; Gemini.data := "AAAA" |};
                           Gemini.text := None |}] |}.

Definition overloadedApi : Gemini.Request -> Gemini.Api Gemini.GenerateContentResponse :=
  fun _ _ => Rejected (mkError (Some 503%Z) (Some "Overloaded")).

Definition freeWindow : Gemini.Window :=
  Gemini.mkWindow None None (Some "system-key") [] [].

Definition keylessWindow : Gemini.Window :=
  Gemini.mkWindow None (Some "") None [] [].

Definition freeWorld : Gemini.World := Gemini.mkWorld freeWindow (Gemini.mkNet 0 []).

Definition mountedView : IllustrationView.State :=
  IllustrationView.refreshLimit "2026-11" freeWindow IllustrationView.initialState.

(** * The image view: the caller of the canvas

    [ImageView] holds the files chosen for the AI analysis with their
    preview URLs, and in annotation mode mounts [ImageDrawingCanvas] on the
    chosen image and receives its export.

    An object URL is identified by the order of its creation:
    [URL.createObjectURL] returns the URL of the next number, and every
    [URL.revokeObjectURL] is recorded. *)

Module ImageView.

Record File := mkFile { name : string; type : string }.

(** [String.prototype.startsWith]. *)
Definition startsWith (s sub : string) : bool := String.prefix sub s.

Inductive Mode := ANALYZE | ANNOTATE.

Definition ObjectUrl := nat.

Record State := mkState {
  mode : Mode;
  selectedFiles : list File;
  previewUrls : list ObjectUrl;
  prompt : string;
  analysis : option string;
  annotationFile : option File;
  annotatedImageUrl : option string;
  annotationNote : option string;
  showUpgradeModal : bool
}.

(** The state of the first render. *)
Definition initialState : State :=
  mkState ANALYZE [] [] "" None None None None false.

(** The browser: the object URLs created and revoked so far, and the window
    of the service. *)
Record Env := mkEnv {
  created : nat;
  revoked : list ObjectUrl;
  window : Gemini.Window
}.

Definition setMode (m : Mode) (s : State) : State :=
  mkState m (selectedFiles s) (previewUrls s) (prompt s) (analysis s)
    (annotationFile s) (annotatedImageUrl s) (annotationNote s) (showUpgradeModal s).
Definition setSelectedFiles (l : list File) (s : State) : State :=
  mkState (mode s) l (previewUrls s) (prompt s) (analysis s)
    (annotationFile s) (annotatedImageUrl s) (annotationNote s) (showUpgradeModal s).
Definition setPreviewUrls (l : list ObjectUrl) (s : State) : State :=
  mkState (mode s) (selectedFiles s) l (prompt s) (analysis s)
    (annotationFile s) (annotatedImageUrl s) (annotationNote s) (showUpgradeModal s).
Definition setPrompt (p : string) (s : State) : State :=
  mkState (mode s) (selectedFiles s) (previewUrls s) p (analysis s)
    (annotationFile s) (annotatedImageUrl s) (annotationNote s) (showUpgradeModal s).
Definition setAnalysis (a : option string) (s : State) : State :=
  mkState (mode s) (selectedFiles s) (previewUrls s) (prompt s) a
    (annotationFile s) (annotatedImageUrl s) (annotationNote s) (showUpgradeModal s).
Definition setAnnotationFile (f : option File) (s : State) : State :=
  mkState (mode s) (selectedFiles s) (previewUrls s) (prompt s) (analysis s)
    f (annotatedImageUrl s) (annotationNote s) (showUpgradeModal s).
Definition setAnnotatedImageUrl (u : option string) (s : State) : State :=
  mkState (mode s) (selectedFiles s) (previewUrls s) (prompt s) (analysis s)
    (annotationFile s) u (annotationNote s) (showUpgradeModal s).
Definition setAnnotationNote (n : option string) (s : State) : State :=
  mkState (mode s) (selectedFiles s) (previewUrls s) (prompt s) (analysis s)
    (annotationFile s) (annotatedImageUrl s) n (showUpgradeModal s).
Definition setShowUpgradeModal (b : bool) (s : State) : State :=
  mkState (mode s) (selectedFiles s) (previewUrls s) (prompt s) (analysis s)
    (annotationFile s) (annotatedImageUrl s) (annotationNote s) b.

(** [URL.revokeObjectURL]; of [undefined] it revokes nothing. *)
Definition revokeObjectURL (u : option ObjectUrl) (e : Env) : Env :=
  match u with
  | Some u => mkEnv (created e) (revoked e ++ [u]) (window e)
  | None => e
  end.

Definition alert (msg : string) (e : Env) : Env :=
  mkEnv (created e) (revoked e) (Gemini.alert msg (window e)).

(** [l.filter((_, idx) => idx !== indexToRemove)]. *)
Fixpoint removeAt {A} (indexToRemove : nat) (l : list A) : list A :=
  match l, indexToRemove with
  | [], _ => []
  | _ :: l', O => l'
  | a :: l', S i => a :: removeAt i l'
  end.

(** *** Handlers of the analysis mode *)

(** [files] is [e.target.files]. *)
Definition handleAnalysisFileChange (currentMonth : string) (files : list File)
    (s : State) (e : Env) : State * Env :=
  match files with
  | [] => (s, e)
  | _ :: _ =>
      let newFiles := files in
      let hasVideo := existsb (fun f => startsWith (type f) "video") newFiles in
      let usageCheck := Gemini.checkUsageLimit currentMonth Gemini.IMAGE_GEN (window e) in
      if hasVideo && negb (Gemini.isCustomKey usageCheck) then
        (setShowUpgradeModal true s, e)
      else
        let newUrls := seq (created e) (List.length newFiles) in
        (s ;> setSelectedFiles (selectedFiles s ++ newFiles)
           ;> setPreviewUrls (previewUrls s ++ newUrls)
           ;> setAnalysis None,
         mkEnv (created e + List.length newFiles) (revoked e) (window e))
  end.

Definition removeAnalysisFile (indexToRemove : nat) (s : State) (e : Env) : State * Env :=
  (s ;> setSelectedFiles (removeAt indexToRemove (selectedFiles s))
     ;> setPreviewUrls (removeAt indexToRemove (previewUrls s)),
   revokeObjectURL (nth_error (previewUrls s) indexToRemove) e).

(** *** Handlers of the annotation mode *)

Definition handleAnnotationFileChange (files : list File) (s : State) (e : Env)
    : State * Env :=
  match files with
  | [] => (s, e)
  | file :: _ =>
      if startsWith (type file) "image/" then
        (s ;> setAnnotationFile (Some file)
           ;> setAnnotatedImageUrl None
           ;> setAnnotationNote None, e)
      else
        (s, alert
              "Para anotação manual, por favor selecione apenas arquivos de imagem (JPG, PNG)."
              e)
  end.

Definition handleAnnotationSave (dataUrl description : string) (s : State) : State :=
  s ;> setAnnotatedImageUrl (Some dataUrl) ;> setAnnotationNote (Some description).

Definition resetAnnotation (s : State) : State :=
  s ;> setAnnotationFile None ;> setAnnotatedImageUrl None ;> setAnnotationNote None.

(** *** Shared *)

Definition handleClear (s : State) (e : Env) : State * Env :=
  (s ;> setSelectedFiles [] ;> setPreviewUrls [] ;> setAnalysis None ;> setPrompt ""
     ;> resetAnnotation,
   fold_left (fun e url => revokeObjectURL (Some url) e) (previewUrls s) e).

(** The mode buttons: [setMode] then [handleClear]. *)
Definition modeButton (m : Mode) (s : State) (e : Env) : State * Env :=
  handleClear (setMode m s) e.

(** *** What the annotation mode renders *)

Inductive Screen :=
| UploadView
| CanvasView (imageFile : File)
| ResultView (src : string) (note : option string).

(** The branch of the annotation mode that is rendered; the note is shown
    when it is not empty. *)
Definition annotationScreen (s : State) : Screen :=
  match annotationFile s with
  | None => UploadView
  | Some file =>
      match annotatedImageUrl s with
      | Some url =>
          if truthy url
          then ResultView url (if given (annotationNote s) then annotationNote s else None)
          else CanvasView file
      | None => CanvasView file
      end
  end.

(** What the user does in the analysis mode. *)
Inductive Event :=
| filesChosen (files : list File)
| removeClicked (idx : nat)
| clearClicked
| modeClicked (m : Mode).

Definition handle (currentMonth : string) (se : State * Env) (ev : Event) : State * Env :=
  match ev with
  | filesChosen files => handleAnalysisFileChange currentMonth files (fst se) (snd se)
  | removeClicked idx => removeAnalysisFile idx (fst se) (snd se)
  | clearClicked => handleClear (fst se) (snd se)
  | modeClicked m => modeButton m (fst se) (snd se)
  end.

End ImageView.

(** The footer buttons of the canvas, with the canvas mounted by the view:
    ['attach'] and ['download'] call [handleSave], whose [onSave] is
    [handleAnnotationSave]; the cancel button calls [resetAnnotation]. *)
Inductive FooterButton := saveButton (action : SaveAction) | cancelButton.

Definition canvasFooter {B : Ctx.Browser} (b : FooterButton) (now : Z)
    (canvas : State) (s : ImageView.State) : ImageView.State :=
  match b with
  | saveButton action =>
      match handleSave action now canvas with
      | Some (OnSave dataUrl description) => ImageView.handleAnnotationSave dataUrl description s
      | Some (LinkClick _ _) => s
      | None => s
      end
  | cancelButton => ImageView.resetAnnotation s
  end.

(** Sample files and a sample selection. *)
Definition xray : ImageView.File := ImageView.mkFile "xray.png" "image/png".

Definition clip : ImageView.File := ImageView.mkFile "clip.mp4" "video/mp4".

Definition sampleEnv : ImageView.Env := ImageView.mkEnv 0 [] freeWindow.

Definition sampleSelection : list ImageView.Event :=
  [ImageView.filesChosen [xray; xray]; ImageView.filesChosen [xray; clip];
   ImageView.removeClicked 0; ImageView.removeClicked 7; ImageView.filesChosen [xray];
   ImageView.modeClicked ImageView.ANNOTATE; ImageView.filesChosen [xray]].

(** The previews are in order: one URL per file, no URL twice, every URL
    shown was created and is not revoked, every URL created is shown or
    revoked, and only created URLs are revoked. *)
Definition previewsInOrder (s : ImageView.State) (e : ImageView.Env) : Prop :=
  List.length (ImageView.selectedFiles s) = List.length (ImageView.previewUrls s) /\
  NoDup (ImageView.previewUrls s) /\
  (forall u, In u (ImageView.previewUrls s) ->
             (u < ImageView.created e)%nat /\ ~ In u (ImageView.revoked e)) /\
  (forall u, (u < ImageView.created e)%nat ->
             In u (ImageView.previewUrls s) \/ In u (ImageView.revoked e)) /\
  (forall u, In u (ImageView.revoked e) -> (u < ImageView.created e)%nat).

(** No file of the selection is a video. *)
Definition noVideo (s : ImageView.State) : Prop :=
  Forall (fun f => ImageView.startsWith (ImageView.type f) "video" = false)
    (ImageView.selectedFiles s).

(** * Properties *)

Lemma Tool_eqb_eq (a b : Tool) : Tool_eqb a b = true <-> a = b.
Proof. destruct a, b; simpl; split; congruence. Qed.

(** ** Rounded arithmetic *)

Lemma Qabs_tri3 (a b c : Q) : Qabs (a - c) <= Qabs (a - b) + Qabs (b - c).
Proof.
  setoid_replace (a - c) with ((a - b) + (b - c)) by ring.
  apply Qabs_triangle.
Qed.

Lemma Qabs_le_add (x y : Q) : Qabs x <= Qabs (x - y) + Qabs y.
Proof.
  setoid_replace x with ((x - y) + y) at 1 by ring.
  apply Qabs_triangle.
Qed.

Lemma Qabs_le_0 (x : Q) : Qabs x <= 0 -> x == 0.
Proof. intros H. apply Qabs_Qle_condition in H. lra. Qed.

Lemma near_bound (u x y b : Q) :
  0 <= u -> near u x y -> Qabs y <= b ->
  Qabs (x - y) <= u * b /\ Qabs x <= (1 + u) * b.
Proof.
  unfold near; intros Hu Hn Hb.
  assert (H1 : Qabs (x - y) <= u * b) by nra.
  split; [exact H1|].
  pose proof (Qabs_le_add x y). lra.
Qed.

Ltac name_term t x Hx :=
  let E := fresh in
  remember t as x eqn:E;
  assert (Hx : x == t) by (rewrite E; reflexivity);
  clear E.

(** Screen to world and back, one coordinate: [r1] is the rounded [p - pan],
    [r2] the rounded [r1 / zoom], [r3] the rounded [r2 * zoom] and [r4] the
    rounded [r3 + pan]. *)
Lemma roundtrip_error (p pan zoom u q r1 r2 r3 r4 : Q) :
  0 <= u -> u <= 1 # 8 -> 0 < zoom ->
  q * zoom == r1 ->
  near u r1 (p - pan) ->
  near u r2 q ->
  near u r3 (r2 * zoom) ->
  near u r4 (r3 + pan) ->
  Qabs (r4 - p) <= 6 * u * (Qabs p + Qabs pan).
Proof.
  intros Hu0 Hu1 Hz Hq H1 H2 H3 H4.
  assert (HA : Qabs (p - pan) <= Qabs p + Qabs pan).
  { setoid_replace (p - pan) with (p + - pan) by ring.
    rewrite <- (Qabs_opp pan). apply Qabs_triangle. }
  assert (Hp : Qabs p <= Qabs p + Qabs pan) by (pose proof (Qabs_nonneg pan); lra).
  assert (HA0 : 0 <= Qabs p + Qabs pan)
    by (pose proof (Qabs_nonneg p); pose proof (Qabs_nonneg pan); lra).
  name_term (Qabs p + Qabs pan) A HAdef.
  destruct (near_bound _ _ _ _ Hu0 H1 HA) as [E1 B1].
  assert (H2' : near u (r2 * zoom) r1).
  { unfold near in *. rewrite <- Hq.
    setoid_replace (r2 * zoom - q * zoom) with ((r2 - q) * zoom) by ring.
    rewrite !Qabs_Qmult, (Qabs_pos zoom) by lra. nra. }
  destruct (near_bound _ _ _ _ Hu0 H2' B1) as [E2 B2].
  destruct (near_bound _ _ _ _ Hu0 H3 B2) as [E3 B3].
  assert (E13 : Qabs (r3 - (p - pan))
                <= (u + u * (1 + u) + u * ((1 + u) * (1 + u))) * A).
  { pose proof (Qabs_tri3 r3 (r2 * zoom) (p - pan)).
    pose proof (Qabs_tri3 (r2 * zoom) r1 (p - pan)). nra. }
  assert (B4 : Qabs (r3 + pan)
               <= Qabs p + (u + u * (1 + u) + u * ((1 + u) * (1 + u))) * A).
  { pose proof (Qabs_le_add (r3 + pan) p) as T.
    setoid_replace (r3 + pan - p) with (r3 - (p - pan)) in T by ring. lra. }
  destruct (near_bound _ _ _ _ Hu0 H4 B4) as [E4 _].
  pose proof (Qabs_tri3 r4 (r3 + pan) p) as T.
  setoid_replace (r3 + pan - p) with (r3 - (p - pan)) in T by ring.
  assert (HuA : 0 <= u * A) by nra.
  assert (HuuA0 : 0 <= u * (u * A)) by nra.
  assert (HuuA : u * (u * A) <= (1 # 8) * (u * A)) by nra.
  assert (HuuuA0 : 0 <= u * (u * (u * A))) by nra.
  assert (HuuuA : u * (u * (u * A)) <= (1 # 8) * (u * (u * A))) by nra.
  assert (HuuuuA : u * (u * (u * (u * A))) <= (1 # 8) * (u * (u * (u * A)))) by nra.
  assert (HuP : u * Qabs p <= u * A) by nra.
  eapply Qle_trans; [exact T|].
  eapply Qle_trans; [apply Qplus_le_compat; [exact E4 | exact E13]|].
  ring_simplify. ring_simplify in HuuA. ring_simplify in HuuuA.
  ring_simplify in HuuuuA. ring_simplify in HuuA0. ring_simplify in HuuuA0.
  ring_simplify in HuP.
  lra.
Qed.

(** Zoom at the pointer, one coordinate: [m] is the pointer, [w] the world
    coordinate before, [z] the new zoom, [t] the rounded [w * z], [n] the new
    pan (the rounded [m - t]), [d] the rounded [m - n] and [x] the world
    coordinate after (the rounded [d / z]). *)
Lemma anchor_error (m w z u t n d q x : Q) :
  0 <= u -> u <= 1 # 8 -> 1 # 10 <= z ->
  q * z == d ->
  near u t (w * z) ->
  near u n (m - t) ->
  near u d (m - n) ->
  near u x q ->
  Qabs (x - w) <= u * (6 * Qabs w + 20 * Qabs m).
Proof.
  intros Hu0 Hu1 HZ Hq Ht Hn Hd Hx.
  assert (HM0 : 0 <= Qabs m) by apply Qabs_nonneg.
  assert (HW0 : 0 <= Qabs w) by apply Qabs_nonneg.
  assert (HWZ : Qabs (w * z) <= Qabs w * z).
  { rewrite Qabs_Qmult, (Qabs_pos z) by lra. lra. }
  name_term (Qabs m) M HM. name_term (Qabs w) A HA.
  name_term (A * z) V HV.
  assert (HV0 : 0 <= V) by nra.
  destruct (near_bound _ _ _ _ Hu0 Ht HWZ) as [Et Bt].
  assert (Hmt : Qabs (m - t) <= M + (1 + u) * V).
  { setoid_replace (m - t) with (m + - t) by ring.
    pose proof (Qabs_triangle m (- t)) as T. rewrite Qabs_opp in T. lra. }
  destruct (near_bound _ _ _ _ Hu0 Hn Hmt) as [En _].
  assert (Hmn : Qabs (m - n) <= (1 + u) * V + u * (M + (1 + u) * V)).
  { pose proof (Qabs_le_add (m - n) t) as T.
    setoid_replace (m - n - t) with (- (n - (m - t))) in T by ring.
    rewrite Qabs_opp in T. lra. }
  destruct (near_bound _ _ _ _ Hu0 Hd Hmn) as [Ed _].
  assert (EdW : Qabs (d - w * z)
                <= u * ((1 + u) * V + u * (M + (1 + u) * V))
                   + u * (M + (1 + u) * V) + u * V).
  { pose proof (Qabs_tri3 d (m - n) (w * z)) as T1.
    pose proof (Qabs_tri3 (m - n) t (w * z)) as T2.
    setoid_replace (m - n - t) with (- (n - (m - t))) in T2 by ring.
    rewrite Qabs_opp in T2. lra. }
  assert (HuM : 0 <= u * M) by nra.
  assert (HuV : 0 <= u * V) by nra.
  assert (HuuM : u * (u * M) <= (1 # 8) * (u * M)) by nra.
  assert (HuuV : u * (u * V) <= (1 # 8) * (u * V)) by nra.
  assert (HuuV0 : 0 <= u * (u * V)) by nra.
  assert (HuuM0 : 0 <= u * (u * M)) by nra.
  assert (HuuuV : u * (u * (u * V)) <= (1 # 8) * (u * (u * V))) by nra.
  assert (HR : Qabs (d - w * z) <= u * ((3 # 2) * M + 4 * V)).
  { eapply Qle_trans; [exact EdW|].
    ring_simplify. ring_simplify in HuuM. ring_simplify in HuuV.
    ring_simplify in HuuuV. ring_simplify in HuuV0. lra. }
  assert (EqW : Qabs (q - w) * z <= u * ((3 # 2) * M + 4 * V)).
  { rewrite <- (Qabs_pos z) at 1 by lra. rewrite <- Qabs_Qmult.
    setoid_replace ((q - w) * z) with (d - w * z) by (rewrite <- Hq; ring).
    exact HR. }
  assert (Bq : Qabs q <= A + Qabs (q - w)).
  { pose proof (Qabs_le_add q w). lra. }
  unfold near in Hx.
  pose proof (Qabs_tri3 x q w) as T.
  pose proof (Qabs_nonneg (q - w)) as HD0.
  name_term (Qabs (q - w)) D HD.
  assert (Hfin : Qabs (x - w) <= u * A + (1 + u) * D) by nra.
  name_term (Qabs (x - w)) G HG.
  apply Qmult_le_r with z; [lra|].
  assert (H1 : G * z <= (u * A + (1 + u) * D) * z) by nra.
  assert (H2 : u * (D * z) <= u * (u * ((3 # 2) * M + 4 * V))) by nra.
  assert (H3 : (u * M) * (1 # 10) <= (u * M) * z) by nra.
  ring_simplify. ring_simplify in H1. ring_simplify in H2. ring_simplify in H3.
  ring_simplify in EqW. ring_simplify in HuuM. ring_simplify in HuuV.
  ring_simplify in HV. ring_simplify in HuuV0. ring_simplify in HuuM0.
  nra.
Qed.

Lemma clamp_range (v : Q) : 0.1 <= Qmin (Qmax 0.1 v) 5 <= 5.
Proof.
  split.
  - apply Q.min_glb; [apply Q.le_max_l | lra].
  - apply Q.le_min_r.
Qed.

Lemma exactNumber_rounds (u : Q) : 0 <= u -> RoundsWithin exactNumber u.
Proof.
  intros Hu.
  assert (E : forall x y, x == y -> near u x y).
  { intros x y Hxy. unfold near.
    setoid_replace (x - y) with 0 by (rewrite Hxy; ring).
    pose proof (Qabs_nonneg y). change (Qabs 0) with 0. nra. }
  split; intros; apply E; apply Qred_correct.
Qed.

(** ** Coordinate transform *)

Section Transform.
Context {N : JsNumber} (u : Q).
Hypothesis rounding : RoundsWithin N u.
Hypothesis u_small : 0 <= u <= 1 # 8.

(** One coordinate of screen to world and back. *)
Lemma roundtrip_coord (p pn z : Q) :
  0 < z ->
  Qabs (((p -! pn) /! z) *! z +! pn - p) <= 6 * u * (Qabs p + Qabs pn).
Proof.
  intros Hz. destruct u_small as [Hu0 Hu1].
  apply roundtrip_error with (zoom := z) (q := (p -! pn) / z) (r1 := p -! pn)
    (r2 := (p -! pn) /! z) (r3 := ((p -! pn) /! z) *! z); try assumption.
  - field. lra.
  - apply round_sub, rounding.
  - apply round_div; [exact rounding | lra].
  - apply round_mul, rounding.
  - apply round_add, rounding.
Qed.

(** One coordinate of the zoom at the pointer. *)
Lemma anchor_coord (m w z : Q) :
  1 # 10 <= z ->
  Qabs ((m -! (m -! w *! z)) /! z - w) <= u * (6 * Qabs w + 20 * Qabs m).
Proof.
  intros Hz. destruct u_small as [Hu0 Hu1].
  apply anchor_error with (z := z) (t := w *! z) (n := m -! w *! z)
    (d := m -! (m -! w *! z)) (q := (m -! (m -! w *! z)) / z); try assumption.
  - field. lra.
  - apply round_mul, rounding.
  - apply round_sub, rounding.
  - apply round_sub, rounding.
  - apply round_div; [exact rounding | lra].
Qed.

End Transform.

Ltac by_compute := apply Qle_bool_imp_le; vm_compute; reflexivity.

(** In exact arithmetic the round trip is the identity. *)
Lemma roundtrip_exact {N : JsNumber} (s : State) (rect : Container) (e : MouseEvent) :
  RoundsWithin N 0 ->
  0.1 <= zoom (view s) <= 5 ->
  container s = Some rect ->
  let p' := canvasTransform (view s) (getPos e s) in
  pt_x p' == clientX e -! rect_left rect /\ pt_y p' == clientY e -! rect_top rect.
Proof.
  intros R [Hz _] Hc. unfold getPos, canvasTransform. rewrite Hc. cbn [pt_x pt_y].
  assert (U : 0 <= 0 <= 1 # 8) by lra.
  assert (Z0 : 0 < zoom (view s)) by lra.
  split.
  - pose proof (roundtrip_coord 0 R U (clientX e -! rect_left rect)
                  (pt_x (pan (view s))) (zoom (view s)) Z0) as H.
    apply Qabs_Qle_condition in H. lra.
  - pose proof (roundtrip_coord 0 R U (clientY e -! rect_top rect)
                  (pt_y (pan (view s))) (zoom (view s)) Z0) as H.
    apply Qabs_Qle_condition in H. lra.
Qed.

(** C1 - Round-trip transform.  For every zoom in [0.1, 5], every pan and
    every pointer position [p] (relative to the container), the world point
    [getPos] computes, sent back through the transform the canvas is rendered
    with, is [p] within the rounding of the arithmetic: when every operation
    has a relative error of at most [u], each coordinate is off by at most
    [6 u (|p| + |pan|)]; in exact arithmetic ([u = 0]) it is [p]. *)
Theorem roundtrip_transform {N : JsNumber} (u : Q) (s : State)
    (rect : Container) (e : MouseEvent) :
  RoundsWithin N u -> 0 <= u <= 1 # 8 ->
  0.1 <= zoom (view s) <= 5 ->
  container s = Some rect ->
  let p := mkPoint (clientX e -! rect_left rect) (clientY e -! rect_top rect) in
  let p' := canvasTransform (view s) (getPos e s) in
  Qabs (pt_x p' - pt_x p) <= 6 * u * (Qabs (pt_x p) + Qabs (pt_x (pan (view s)))) /\
  Qabs (pt_y p' - pt_y p) <= 6 * u * (Qabs (pt_y p) + Qabs (pt_y (pan (view s)))).
Proof.
  intros R U [Hz _] Hc. unfold getPos, canvasTransform. rewrite Hc. cbn [pt_x pt_y].
  assert (Z0 : 0 < zoom (view s)) by lra.
  split; apply (roundtrip_coord u R U); exact Z0.
Qed.

Lemma roundtrip_transform_witness :
  let s := handleZoom (N := exactNumber) 0.5 loaded in
  let p := mkPoint 400 300 in
  let p' := canvasTransform (N := exactNumber) (view s) (getPos (N := exactNumber) sampleMouse s) in
  Qabs (pt_x p' - pt_x p) <= 6 * binary64_u * (Qabs (pt_x p) + Qabs (pt_x (pan (view s)))) /\
  Qabs (pt_y p' - pt_y p) <= 6 * binary64_u * (Qabs (pt_y p) + Qabs (pt_y (pan (view s)))).
Proof.
  apply (roundtrip_transform (N := exactNumber) binary64_u
           (handleZoom (N := exactNumber) 0.5 loaded) sampleContainer sampleMouse).
  - apply exactNumber_rounds. by_compute.
  - split; by_compute.
  - split; by_compute.
  - reflexivity.
Defined.

(** ** Zoom at the pointer *)

Lemma handleWheel_unmounted {N : JsNumber} (e : WheelEvent) (s : State) :
  container s = None -> handleWheel e s = s.
Proof.
  intros Hc. unfold handleWheel. rewrite Hc.
  destruct (ctrlKey e || metaKey e || true); reflexivity.
Qed.

(** In exact arithmetic the world point under the pointer is the same after
    the wheel event. *)
Lemma zoom_anchor_exact {N : JsNumber} (s : State) (rect : Container) (e : WheelEvent) :
  RoundsWithin N 0 -> container s = Some rect ->
  let m := {| clientX := wheel_clientX e; clientY := wheel_clientY e; button := 0 |} in
  pt_x (getPos m (handleWheel e s)) == pt_x (getPos m s) /\
  pt_y (getPos m (handleWheel e s)) == pt_y (getPos m s).
Proof.
  intros R Hc. unfold handleWheel, getPos. rewrite Hc.
  replace (ctrlKey e || metaKey e || true) with true
    by (destruct (ctrlKey e), (metaKey e); reflexivity).
  cbn. rewrite Hc. cbn.
  assert (U : 0 <= 0 <= 1 # 8) by lra.
  pose proof (clamp_range (zoom (view s) +! - deltaY e *! 0.001)) as [Hz _].
  split.
  - match goal with
    | |- (?m -! (?m -! ?w *! ?z)) /! ?z == ?w =>
        pose proof (anchor_coord 0 R U m w z Hz) as H
    end.
    apply Qabs_Qle_condition in H. lra.
  - match goal with
    | |- (?m -! (?m -! ?w *! ?z)) /! ?z == ?w =>
        pose proof (anchor_coord 0 R U m w z Hz) as H
    end.
    apply Qabs_Qle_condition in H. lra.
Qed.

(** C2 - Zoom-anchor invariant.  After a wheel event at the pointer position
    [p], the new zoom is the old zoom plus the scaled delta clamped to
    [0.1, 5], the new pan is [p - world * newZoom], and the world point under
    [p] is the one that was under it before, within the rounding of the
    arithmetic: when every operation has a relative error of at most [u],
    each world coordinate moves by at most [u (6 |world| + 20 |p|)].  The
    zoom before the event plays no part. *)
Theorem zoom_anchor {N : JsNumber} (u : Q) (s : State) (rect : Container)
    (e : WheelEvent) :
  RoundsWithin N u -> 0 <= u <= 1 # 8 ->
  container s = Some rect ->
  let m := {| clientX := wheel_clientX e; clientY := wheel_clientY e; button := 0 |} in
  let p := mkPoint (wheel_clientX e -! rect_left rect) (wheel_clientY e -! rect_top rect) in
  let before := getPos m s in
  let s' := handleWheel e s in
  let after := getPos m s' in
  zoom (view s') = Qmin (Qmax 0.1 (zoom (view s) +! (- deltaY e) *! 0.001)) 5 /\
  0.1 <= zoom (view s') <= 5 /\
  pan (view s') = mkPoint (pt_x p -! pt_x before *! zoom (view s'))
                          (pt_y p -! pt_y before *! zoom (view s')) /\
  Qabs (pt_x after - pt_x before) <= u * (6 * Qabs (pt_x before) + 20 * Qabs (pt_x p)) /\
  Qabs (pt_y after - pt_y before) <= u * (6 * Qabs (pt_y before) + 20 * Qabs (pt_y p)).
Proof.
  intros R U Hc. unfold handleWheel, getPos. rewrite Hc.
  replace (ctrlKey e || metaKey e || true) with true
    by (destruct (ctrlKey e), (metaKey e); reflexivity).
  cbn. rewrite Hc. cbn.
  pose proof (clamp_range (zoom (view s) +! - deltaY e *! 0.001)) as Hz.
  repeat split; try apply Hz.
  - apply (anchor_coord u R U). apply Hz.
  - apply (anchor_coord u R U). apply Hz.
Qed.

Lemma zoom_anchor_witness :
  let m := {| clientX := 410; clientY := 320; button := 0 |} in
  let before := getPos (N := exactNumber) m loaded in
  let s' := handleWheel (N := exactNumber) sampleWheel loaded in
  let after := getPos (N := exactNumber) m s' in
  zoom (view s') == 1.5 /\
  Qabs (pt_x after - pt_x before) <= binary64_u * (6 * Qabs (pt_x before) + 20 * Qabs 400) /\
  Qabs (pt_y after - pt_y before) <= binary64_u * (6 * Qabs (pt_y before) + 20 * Qabs 300).
Proof.
  assert (R : RoundsWithin exactNumber binary64_u)
    by (apply exactNumber_rounds; by_compute).
  assert (U : 0 <= binary64_u <= 1 # 8) by (split; by_compute).
  pose proof (zoom_anchor (N := exactNumber) binary64_u loaded sampleContainer
                sampleWheel R U eq_refl) as H.
  cbv zeta in H. destruct H as (Hz & _ & _ & Hx & Hy).
  split; [rewrite Hz; vm_compute; reflexivity|].
  split; [exact Hx | exact Hy].
Defined.

(** ** Raster history *)

Lemma tl_skipn {A} (n : nat) (l : list A) : tl (skipn n l) = skipn (S n) l.
Proof.
  revert l. induction n as [| n IH]; intros [| a l]; try reflexivity.
  change (tl (skipn n l) = skipn (S n) l). apply IH.
Qed.

Lemma saveState_ready (s : State) (c : Ctx.Context2D) :
  ctx s = Some c -> canvasRef s = true ->
  saveState s =
    s ;> setHistory (let h := (history s ++ [Ctx.bitmap c])%list in
                     if (maxDepth <? List.length h)%nat then tl h else h)
      ;> setRedoStack [].
Proof. intros Hc Hr. unfold saveState. rewrite Hc, Hr. reflexivity. Qed.

Lemma saveState_history (s : State) (c : Ctx.Context2D) :
  ctx s = Some c -> canvasRef s = true ->
  history (saveState s) =
    (if (List.length (history s) <? maxDepth)%nat
     then history s ++ [Ctx.bitmap c]
     else tl (history s) ++ [Ctx.bitmap c])%list.
Proof.
  intros Hc Hr. rewrite (saveState_ready s c Hc Hr).
  unfold setRedoStack, setHistory. cbn [history].
  cbv zeta. rewrite length_app. cbn [List.length].
  destruct (Nat.ltb_spec (List.length (history s)) maxDepth) as [Hlt | Hge].
  - destruct (Nat.ltb_spec maxDepth (List.length (history s) + 1)); [lia | reflexivity].
  - destruct (Nat.ltb_spec maxDepth (List.length (history s) + 1)); [| lia].
    destruct (history s); [cbn in Hge; unfold maxDepth in Hge; lia | reflexivity].
Qed.

Lemma saveState_other (s : State) :
  ctx (saveState s) = ctx s /\ canvasRef (saveState s) = canvasRef s.
Proof.
  unfold saveState.
  destruct (ctx s) eqn:Hc; [destruct (canvasRef s) eqn:Hr|]; split;
    cbn [ctx canvasRef setRedoStack setHistory]; congruence.
Qed.

Lemma recorded_commit (all : list ImageData) (s : State) (c : Ctx.Context2D)
    (f : Ctx.Context2D -> Ctx.Context2D) :
  ctx s = Some c -> recorded all s ->
  recorded (all ++ [Ctx.bitmap (f c)]) (commitAction f s).
Proof.
  intros Hc (c' & Hc' & Hr & Hredo & Hh & _ & Hne).
  assert (c' = c) by congruence. subst c'.
  unfold commitAction, drawOn. rewrite Hc.
  set (s1 := setCtx (Some (f c)) s).
  assert (H1 : ctx s1 = Some (f c)) by reflexivity.
  assert (H2 : canvasRef s1 = true) by exact Hr.
  exists (f c). destruct (saveState_other s1) as [E1 E2].
  rewrite E1, E2. repeat split; try assumption.
  - rewrite (saveState_ready s1 (f c) H1 H2). reflexivity.
  - rewrite (saveState_history s1 (f c) H1 H2).
    change (history s1) with (history s). rewrite Hh.
    rewrite length_skipn, length_app. cbn [List.length].
    assert (Hl : (1 <= List.length all)%nat)
      by (destruct all; [congruence | cbn; lia]).
    destruct (Nat.ltb_spec (List.length all - (List.length all - maxDepth)) maxDepth)
      as [Hlt | Hge].
    + replace (List.length all - maxDepth)%nat with 0%nat by (unfold maxDepth in *; lia).
      replace (List.length all + 1 - maxDepth)%nat with 0%nat by (unfold maxDepth in *; lia).
      reflexivity.
    + assert (Hk : (List.length all + 1 - maxDepth
                    = S (List.length all - maxDepth))%nat)
        by (unfold maxDepth in *; lia).
      rewrite Hk. rewrite skipn_app.
      replace (S (List.length all - maxDepth) - List.length all)%nat with 0%nat
        by (unfold maxDepth in *; lia).
      cbn [skipn]. f_equal.
      apply tl_skipn.
  - rewrite last_last. reflexivity.
  - destruct all; discriminate.
Qed.

Lemma recorded_commits (fs : list (Ctx.Context2D -> Ctx.Context2D)) :
  forall (pre : list ImageData) (s : State) (c : Ctx.Context2D),
    ctx s = Some c -> recorded (pre ++ [Ctx.bitmap c]) s ->
    recorded (pre ++ surfaces c fs) (commits fs s) /\
    ctx (commits fs s) = Some (drawAll fs c).
Proof.
  induction fs as [| f fs IH]; intros pre s c Hc Hrec.
  - split; [exact Hrec | exact Hc].
  - assert (Hc1 : ctx (commitAction f s) = Some (f c)).
    { unfold commitAction, drawOn. rewrite Hc.
      destruct (saveState_other (setCtx (Some (f c)) s)) as [E _].
      rewrite E. reflexivity. }
    pose proof (recorded_commit _ s c f Hc Hrec) as Hrec1.
    destruct (IH (pre ++ [Ctx.bitmap c])%list (commitAction f s) (f c) Hc1 Hrec1)
      as [R1 R2].
    split.
    + unfold surfaces in *. cbn [contexts map].
      rewrite <- app_assoc in R1. exact R1.
    + exact R2.
Qed.

Lemma surfaces_last (fs : list (Ctx.Context2D -> Ctx.Context2D)) :
  forall (c : Ctx.Context2D) (d : ImageData),
    last (surfaces c fs) d = Ctx.bitmap (drawAll fs c).
Proof.
  unfold surfaces.
  induction fs as [| f fs IH]; intros c d; [reflexivity|].
  cbn [contexts map]. change (drawAll (f :: fs) c) with (drawAll fs (f c)).
  rewrite <- (IH (f c) d).
  destruct fs; reflexivity.
Qed.

(** The [onload] handler establishes the initial state, its surface blank
    and of the natural size of the image. *)
Lemma onImageLoad_initial {N : JsNumber} (img : ImageData) (s : State) (cont : Container) :
  container s = Some cont -> canvasRef s = true -> redoStack s = [] ->
  exists c, initial (onImageLoad img s) c /\
            Ctx.bitmap c = blankImage (width img) (height img).
Proof.
  intros Hc Hr Hredo. unfold onImageLoad. rewrite Hc, Hr. cbn [negb]. cbv zeta.
  exists (Ctx.mkContext (blankImage (width img) (height img)) Ctx.defaultStyle [] [] []).
  split; [| reflexivity].
  match goal with |- context [if ?b then _ else _] => destruct b end;
    repeat split; assumption.
Qed.

Lemma initial_recorded (s : State) (c : Ctx.Context2D) :
  initial s c -> recorded [Ctx.bitmap c] s.
Proof.
  intros (Hc & Hr & Hh & Hredo). exists c. repeat split; try assumption.
  discriminate.
Qed.

Lemma surfaces_length (c : Ctx.Context2D) (fs : list (Ctx.Context2D -> Ctx.Context2D)) :
  List.length (surfaces c fs) = S (List.length fs).
Proof.
  unfold surfaces. rewrite length_map. revert c.
  induction fs as [| f fs IH]; intros c; [reflexivity|].
  cbn [contexts List.length]. rewrite IH. reflexivity.
Qed.

(** C4 - History bound.  After any sequence of commits from the initial
    state the history holds the newest [maxDepth] = 20 snapshots taken so far
    (the initial one included while it fits), so its length never exceeds
    20; and a commit on a full history drops the entry of index 0 and
    appends the new snapshot at the end. *)
Theorem history_bound (s0 : State) (c0 : Ctx.Context2D)
    (fs : list (Ctx.Context2D -> Ctx.Context2D)) :
  initial s0 c0 ->
  let s := commits fs s0 in
  history s = skipn (S (List.length fs) - maxDepth) (surfaces c0 fs) /\
  (List.length (history s) <= maxDepth)%nat /\
  (forall s1 c1, ctx s1 = Some c1 -> canvasRef s1 = true ->
                 List.length (history s1) = maxDepth ->
                 history (saveState s1) = (tl (history s1) ++ [Ctx.bitmap c1])%list).
Proof.
  intros Hinit.
  pose proof (initial_recorded _ _ Hinit) as Hrec.
  destruct Hinit as (Hc & _).
  destruct (recorded_commits fs [] s0 c0 Hc Hrec) as [(c & _ & _ & _ & Hh & _) _].
  cbn [app] in Hh. rewrite surfaces_length in Hh.
  cbv zeta. split; [exact Hh|]. split.
  - rewrite Hh, length_skipn, surfaces_length. unfold maxDepth. lia.
  - intros s1 c1 Hc1 Hr1 Hl.
    rewrite (saveState_history s1 c1 Hc1 Hr1), Hl, Nat.ltb_irrefl. reflexivity.
Qed.

Lemma loaded_initial : initial loaded loadedContext.
Proof. repeat split. Qed.

Lemma history_bound_witness :
  let s := commits (repeat fillAll 25) loaded in
  history s = skipn 6 (surfaces loadedContext (repeat fillAll 25)) /\
  (List.length (history s) <= maxDepth)%nat.
Proof.
  destruct (history_bound loaded loadedContext (repeat fillAll 25) loaded_initial)
    as (H1 & H2 & _).
  split; [exact H1 | exact H2].
Defined.

(** *** The commits of the component *)

(** Clearing the canvas is a committed action. *)
Lemma clearCanvas_commit (s : State) :
  canvasRef s = true -> clearCanvas s = commitAction Ctx.clearRect s.
Proof.
  intros Hr. unfold clearCanvas, commitAction, drawOn. rewrite Hr.
  destruct (ctx s) eqn:Hc; [reflexivity|].
  unfold saveState. rewrite Hc. reflexivity.
Qed.

(** So is the pointer-up that ends a freehand stroke, and the one that ends
    a shape: the strokes are on the canvas already, and the pointer-up adds
    [closePath] for pen, highlighter and eraser, nothing for arrow, rectangle
    and circle. *)
Lemma pointer_up_commit {N : JsNumber} (e : MouseEvent) (s : State)
    (c : Ctx.Context2D) (start : Point) :
  isPanning (view s) = false -> isDrawing s = true ->
  ctx s = Some c -> startPos s = Some start ->
  match tool (settings s) with
  | Pen | Highlighter | Eraser =>
      handleMouseUp e s = commitAction Ctx.closePath (setIsDrawing false s)
  | Arrow | Rect | Circle =>
      handleMouseUp e s = commitAction (fun c => c) (setIsDrawing false s)
  | Line => history (handleMouseUp e s) = history s
  | Text | Pan => True
  end.
Proof.
  intros Hp Hd Hc Hs. unfold handleMouseUp, commitAction, drawOn.
  rewrite Hp, Hd, Hc, Hs. cbn [settings setIsDrawing ctx].
  destruct (tool (settings s)); try exact I; try reflexivity;
    rewrite Hc; f_equal; destruct s; cbn in *; subst; reflexivity.
Qed.

Lemma bounded_saveState (s : State) : bounded s -> bounded (saveState s).
Proof.
  intros [H1 H2]. unfold saveState.
  destruct (ctx s) as [c |] eqn:Hc; [| split; assumption].
  destruct (canvasRef s) eqn:Hr; [| split; assumption].
  unfold bounded. cbn [history redoStack setHistory setRedoStack List.length].
  rewrite length_app. cbn [List.length].
  destruct (Nat.ltb_spec 20 (List.length (history s) + 1)) as [Hlt | Hge].
  - destruct (history s) as [| a h]; [cbn in H1; lia|].
    cbn [app tl List.length] in *. rewrite length_app. cbn [List.length].
    unfold maxDepth in *. lia.
  - rewrite length_app. cbn [List.length]. unfold maxDepth. lia.
Qed.

Lemma bounded_commit (f : Ctx.Context2D -> Ctx.Context2D) (s : State) :
  bounded s -> bounded (commitAction f s).
Proof.
  intros H. apply bounded_saveState. unfold drawOn.
  destruct (ctx s); exact H.
Qed.

Lemma bounded_undo (s : State) : bounded s -> bounded (handleUndo s).
Proof.
  intros [H1 H2]. unfold handleUndo.
  destruct (ctx s); [| split; assumption].
  destruct (Nat.leb_spec (List.length (history s)) 1) as [| Hgt]; [split; assumption|].
  destruct (nth_error (history s) (List.length (history s) - 1)); [| split; assumption].
  destruct (nth_error (history s) (List.length (history s) - 2)); [| split; assumption].
  unfold bounded. cbn [history redoStack setHistory setRedoStack setCtx List.length].
  assert (Hl : List.length (removelast (history s)) = (List.length (history s) - 1)%nat).
  { destruct (history s) as [| a h] using rev_ind; [reflexivity|].
    rewrite removelast_last, length_app. cbn [List.length]. lia. }
  rewrite Hl. lia.
Qed.

Lemma bounded_redo (s : State) : bounded s -> bounded (handleRedo s).
Proof.
  intros [H1 H2]. unfold handleRedo.
  destruct (ctx s); [| split; assumption].
  destruct (redoStack s) as [| next rest] eqn:Hr; [split; [exact H1 | rewrite Hr; exact H2]|].
  unfold bounded. cbn [history redoStack setHistory setRedoStack setCtx List.length] in *.
  rewrite length_app. cbn [List.length]. lia.
Qed.

(** Whatever the order of commits, undos and redos, the history never
    holds more than [maxDepth] snapshots and never loses its last one. *)
Lemma bounded_run (ops : list HistoryOp) (s : State) :
  bounded s ->
  bounded (fold_left runOp ops s) /\
  (1 <= List.length (history (fold_left runOp ops s)) <= maxDepth)%nat.
Proof.
  revert s. induction ops as [| op ops IH]; intros s Hb.
  - split; [exact Hb|]. destruct Hb as [H1 H2]. cbn [fold_left]. lia.
  - cbn [fold_left]. apply IH.
    destruct op; [apply bounded_commit | apply bounded_undo | apply bounded_redo];
      exact Hb.
Qed.

(** *** Undo and redo walk along the history *)

Lemma nth_error_nth' {A} (l : list A) (n : nat) (d : A) :
  (n < List.length l)%nat -> nth_error l n = Some (nth n l d).
Proof.
  revert n. induction l as [| a l IH]; intros [| n] Hn; cbn in *; try lia; auto.
  apply IH. lia.
Qed.

Lemma nth_firstn {A} (l : list A) (j n : nat) (d : A) :
  (n < j)%nat -> nth n (firstn j l) d = nth n l d.
Proof.
  revert j n. induction l as [| a l IH]; intros [| j] [| n] Hn; cbn; try lia; auto.
  apply IH. lia.
Qed.

Lemma skipn_nth {A} (l : list A) (j : nat) (d : A) :
  (j < List.length l)%nat -> skipn j l = nth j l d :: skipn (S j) l.
Proof.
  revert j. induction l as [| a l IH]; intros [| j] Hj; cbn in *; try lia; auto.
  apply IH. lia.
Qed.

Lemma firstn_snoc {A} (l : list A) (j : nat) (d : A) :
  (j < List.length l)%nat -> (firstn j l ++ [nth j l d])%list = firstn (S j) l.
Proof.
  revert j. induction l as [| a l IH]; intros [| j] Hj; cbn in *; try lia; auto.
  f_equal. apply IH. lia.
Qed.

Lemma nth_last {A} (l : list A) (d : A) :
  nth (List.length l - 1) l d = last l d.
Proof.
  induction l as [| a l IH]; [reflexivity|].
  destruct l as [| b l]; [reflexivity|].
  cbn [List.length last] in *. rewrite <- IH.
  replace (S (S (List.length l)) - 1)%nat with (S (S (List.length l) - 1))%nat by lia.
  reflexivity.
Qed.

Lemma handleUndo_seek (H : list ImageData) (j : nat) (c : Ctx.Context2D) (s : State) :
  (2 <= j <= List.length H)%nat ->
  handleUndo (seek H j c s) = seek H (j - 1) c s.
Proof.
  intros Hj. unfold handleUndo, seek.
  cbn [history ctx setCtx setHistory setRedoStack redoStack].
  rewrite length_firstn, Nat.min_l by lia.
  destruct (Nat.leb_spec j 1) as [? | _]; [lia|].
  rewrite (nth_error_nth' _ _ (Ctx.bitmap c)) by (rewrite length_firstn; lia).
  rewrite (nth_error_nth' _ _ (Ctx.bitmap c)) by (rewrite length_firstn; lia).
  rewrite !nth_firstn by lia.
  destruct j as [| [| j]]; try lia.
  rewrite removelast_firstn by lia.
  replace (S (S j) - 1)%nat with (S j) by lia.
  replace (S (S j) - 2)%nat with j by lia.
  replace (S j - 1)%nat with j by lia.
  rewrite <- (skipn_nth H (S j)) by lia.
  destruct s; reflexivity.
Qed.

Lemma handleUndo_seek_first (H : list ImageData) (c : Ctx.Context2D) (s : State) :
  handleUndo (seek H 1 c s) = seek H 1 c s.
Proof.
  unfold handleUndo, seek.
  cbn [history ctx setCtx setHistory setRedoStack redoStack].
  destruct H as [| a H]; [reflexivity|].
  cbn [firstn List.length Nat.leb]. reflexivity.
Qed.

Lemma handleRedo_seek (H : list ImageData) (j : nat) (c : Ctx.Context2D) (s : State) :
  (1 <= j < List.length H)%nat ->
  handleRedo (seek H j c s) = seek H (S j) c s.
Proof.
  intros Hj. unfold handleRedo, seek.
  cbn [history ctx setCtx setHistory setRedoStack redoStack].
  rewrite (skipn_nth H j (Ctx.bitmap c)) by lia.
  rewrite firstn_snoc by lia.
  replace (S j - 1)%nat with j by lia.
  destruct s; reflexivity.
Qed.

Lemma handleRedo_seek_last (H : list ImageData) (c : Ctx.Context2D) (s : State) :
  handleRedo (seek H (List.length H) c s) = seek H (List.length H) c s.
Proof.
  unfold handleRedo, seek.
  cbn [history ctx setCtx setHistory setRedoStack redoStack].
  rewrite skipn_all. reflexivity.
Qed.

Lemma undos_seek (H : list ImageData) (c : Ctx.Context2D) (s : State) (n j : nat) :
  (1 <= j <= List.length H)%nat ->
  Nat.iter n handleUndo (seek H j c s) = seek H (Nat.max 1 (j - n)) c s.
Proof.
  intros Hj. induction n as [| n IH].
  - cbn [Nat.iter nat_rect]. f_equal. lia.
  - rewrite Nat.iter_succ, IH.
    destruct (Nat.le_gt_cases (j - n) 1) as [Hle | Hgt].
    + replace (Nat.max 1 (j - n)) with 1%nat by lia.
      replace (Nat.max 1 (j - S n)) with 1%nat by lia.
      apply handleUndo_seek_first.
    + replace (Nat.max 1 (j - n)) with (j - n)%nat by lia.
      replace (Nat.max 1 (j - S n)) with (j - n - 1)%nat by lia.
      apply handleUndo_seek. lia.
Qed.

Lemma redos_seek (H : list ImageData) (c : Ctx.Context2D) (s : State) (n j : nat) :
  (1 <= j <= List.length H)%nat ->
  Nat.iter n handleRedo (seek H j c s) = seek H (Nat.min (List.length H) (j + n)) c s.
Proof.
  intros Hj. induction n as [| n IH].
  - cbn [Nat.iter nat_rect]. f_equal. lia.
  - rewrite Nat.iter_succ, IH.
    destruct (Nat.le_gt_cases (List.length H) (j + n)) as [Hle | Hgt].
    + replace (Nat.min (List.length H) (j + n)) with (List.length H) by lia.
      replace (Nat.min (List.length H) (j + S n)) with (List.length H) by lia.
      apply handleRedo_seek_last.
    + replace (Nat.min (List.length H) (j + n)) with (j + n)%nat by lia.
      replace (Nat.min (List.length H) (j + S n)) with (S (j + n)) by lia.
      apply handleRedo_seek. lia.
Qed.

Lemma seek_here (s : State) (c : Ctx.Context2D) :
  ctx s = Some c -> redoStack s = [] -> history s <> [] ->
  last (history s) (Ctx.bitmap c) = Ctx.bitmap c ->
  seek (history s) (List.length (history s)) c s = s.
Proof.
  intros Hc Hr Hne Hl. unfold seek.
  rewrite skipn_all, firstn_all, nth_last, Hl.
  destruct s as [? ? ? ? ? cx h r ? ? ? ? ? ?]. cbn in *. subst.
  destruct c; reflexivity.
Qed.

Lemma last_skipn {A} (l : list A) (k : nat) (d : A) :
  (k < List.length l)%nat -> last (skipn k l) d = last l d.
Proof.
  revert k. induction l as [| a l IH]; intros [| k] Hk; cbn [skipn List.length] in *;
    try lia; try reflexivity.
  rewrite IH by lia. destruct l; [cbn in Hk; lia | reflexivity].
Qed.

Lemma nth_skipn_0 {A} (l : list A) (k : nat) (d : A) :
  nth 0 (skipn k l) d = nth k l d.
Proof.
  revert k. induction l as [| a l IH]; intros [| k]; try reflexivity.
  apply IH.
Qed.

(** The position of a session after commits, and what undo and redo make of
    it. *)
Lemma commits_walk (s0 : State) (c0 : Ctx.Context2D)
    (fs : list (Ctx.Context2D -> Ctx.Context2D)) :
  initial s0 c0 ->
  let n := List.length fs in
  let s := commits fs s0 in
  let H := history s in
  let c := drawAll fs c0 in
  ctx s = Some c /\
  H = skipn (S n - maxDepth) (surfaces c0 fs) /\
  Nat.iter n handleUndo s = seek H 1 c s /\
  Nat.iter n handleRedo (seek H 1 c s) = s.
Proof.
  intros Hinit. cbv zeta.
  pose proof (initial_recorded _ _ Hinit) as Hrec.
  destruct Hinit as (Hc0 & _).
  destruct (recorded_commits fs [] s0 c0 Hc0 Hrec)
    as [(c & Hc & _ & Hredo & Hh & Hlast & Hne) Hctx].
  cbn [app] in *. rewrite surfaces_length in Hh.
  assert (c = drawAll fs c0) by congruence. subst c.
  set (s := commits fs s0) in *. set (n := List.length fs) in *.
  assert (HL : List.length (history s) = Nat.min (S n) maxDepth).
  { rewrite Hh, length_skipn, surfaces_length. fold n. unfold maxDepth. lia. }
  assert (Hhne : history s <> []).
  { intros E. rewrite E in HL. cbn in HL. unfold maxDepth in HL. lia. }
  assert (Hhl : last (history s) (Ctx.bitmap (drawAll fs c0))
                = Ctx.bitmap (drawAll fs c0)).
  { rewrite Hh, last_skipn; [exact Hlast|].
    rewrite surfaces_length. fold n. unfold maxDepth. lia. }
  pose proof (seek_here s _ Hctx Hredo Hhne Hhl) as Hseek.
  assert (Hund : Nat.iter n handleUndo s = seek (history s) 1 (drawAll fs c0) s).
  { rewrite <- Hseek at 1. rewrite undos_seek by (rewrite HL; unfold maxDepth; lia).
    replace (Nat.max 1 (List.length (history s) - n)) with 1%nat
      by (rewrite HL; unfold maxDepth; lia).
    reflexivity. }
  repeat split; try assumption.
  rewrite redos_seek by (rewrite HL; unfold maxDepth; lia).
  replace (Nat.min (List.length (history s)) (1 + n)) with (List.length (history s))
    by (rewrite HL; unfold maxDepth; lia).
  exact Hseek.
Qed.

(** C3 - Undo/redo (amended).  For every sequence of N committed actions
    from the initial state, N undos bring the surface back to the oldest
    snapshot the history still holds, the one taken after action N - 19 (the
    initial empty snapshot as long as N <= 19, that is N < 20 = [maxDepth]);
    N redos after that restore the session after the N-th action exactly,
    surface, history and redo stack. *)
Theorem undo_redo (s0 : State) (c0 : Ctx.Context2D)
    (fs : list (Ctx.Context2D -> Ctx.Context2D)) :
  initial s0 c0 ->
  let n := List.length fs in
  let s := commits fs s0 in
  let undone := Nat.iter n handleUndo s in
  surface undone = Some (nth (n - (maxDepth - 1)) (surfaces c0 fs) (Ctx.bitmap c0)) /\
  ((n < maxDepth)%nat -> surface undone = Some (Ctx.bitmap c0)) /\
  surface s = Some (Ctx.bitmap (drawAll fs c0)) /\
  Nat.iter n handleRedo undone = s.
Proof.
  intros Hinit. cbv zeta.
  destruct (commits_walk s0 c0 fs Hinit) as (Hc & Hh & Hu & Hr). cbv zeta in *.
  assert (Hs : surface (Nat.iter (List.length fs) handleUndo (commits fs s0))
               = Some (nth (List.length fs - (maxDepth - 1)) (surfaces c0 fs)
                           (Ctx.bitmap c0))).
  { rewrite Hu. unfold surface, seek. cbn [ctx setCtx option_map Ctx.putImageData
      Ctx.with_bitmap Ctx.bitmap]. f_equal.
    rewrite Hh. change (1 - 1)%nat with 0%nat. rewrite nth_skipn_0.
    replace (S (List.length fs) - maxDepth)%nat
      with (List.length fs - (maxDepth - 1))%nat by (unfold maxDepth; lia).
    apply nth_indep. rewrite surfaces_length. unfold maxDepth. lia. }
  split; [exact Hs|]. split; [| split].
  - intros Hn. rewrite Hs.
    replace (List.length fs - (maxDepth - 1))%nat with 0%nat by (unfold maxDepth in *; lia).
    unfold surfaces. destruct fs; reflexivity.
  - unfold surface. rewrite Hc. reflexivity.
  - rewrite Hu. exact Hr.
Qed.

Lemma undo_redo_witness :
  let fs := repeat fillAll 25 in
  let s := commits fs loaded in
  let undone := Nat.iter 25 handleUndo s in
  surface undone = Some (nth 6 (surfaces loadedContext fs) (Ctx.bitmap loadedContext)) /\
  Nat.iter 25 handleRedo undone = s.
Proof.
  destruct (undo_redo loaded loadedContext (repeat fillAll 25) loaded_initial)
    as (H1 & _ & _ & H2).
  split; [exact H1 | exact H2].
Defined.

(** C3 as stated fails once the history is full: after 20 committed actions
    the initial snapshot has been dropped, and 20 undos stop at the snapshot
    taken after the first action. *)
Lemma undo_redo_counterexample :
  ~ (forall (s0 : State) (c0 : Ctx.Context2D)
            (fs : list (Ctx.Context2D -> Ctx.Context2D)),
        initial s0 c0 ->
        surface (Nat.iter (List.length fs) handleUndo (commits fs s0))
        = Some (Ctx.bitmap c0)).
Proof.
  intros claim.
  specialize (claim loaded loadedContext (repeat fillAll 20) loaded_initial).
  vm_compute in claim. discriminate claim.
Qed.

(** ** Compositing *)

Ltac solve_restyle :=
  intros c; cbv delta [Ctx.set_strokeStyle Ctx.set_fillStyle Ctx.set_lineWidth
    Ctx.set_lineCap Ctx.set_lineJoin Ctx.set_globalAlpha Ctx.setLineDash
    Ctx.set_globalCompositeOperation Ctx.set_font Ctx.set_textAlign
    Ctx.set_textBaseline Ctx.set_shadowColor Ctx.set_shadowBlur] beta zeta;
  try match goal with |- context [if ?b then _ else _] => destruct b end;
  first [eexists; reflexivity | exists (Ctx.style c); destruct c; reflexivity].

Lemma restyles_strokeStyle v : restyles (Ctx.set_strokeStyle v).
Proof. solve_restyle. Qed.
Lemma restyles_fillStyle v : restyles (Ctx.set_fillStyle v).
Proof. solve_restyle. Qed.
Lemma restyles_lineWidth v : restyles (Ctx.set_lineWidth v).
Proof. solve_restyle. Qed.
Lemma restyles_lineCap v : restyles (Ctx.set_lineCap v).
Proof. solve_restyle. Qed.
Lemma restyles_lineJoin v : restyles (Ctx.set_lineJoin v).
Proof. solve_restyle. Qed.
Lemma restyles_globalAlpha v : restyles (Ctx.set_globalAlpha v).
Proof. solve_restyle. Qed.
Lemma restyles_lineDash v : restyles (Ctx.setLineDash v).
Proof. solve_restyle. Qed.
Lemma restyles_gco v : restyles (Ctx.set_globalCompositeOperation v).
Proof. solve_restyle. Qed.

Create HintDb restyle.
#[local] Hint Resolve restyles_strokeStyle restyles_fillStyle restyles_lineWidth
  restyles_lineCap restyles_lineJoin restyles_globalAlpha restyles_lineDash
  restyles_gco : restyle.







Section Painted.
Context {B : Ctx.Browser}.
Variables (v : Ctx.CompositeOp) (c0 : Ctx.Context2D).


Lemma painted_bitmap (b : ImageData) (c : Ctx.Context2D) :
  paintedUnder v c0 c -> paintedUnder v c0 (Ctx.with_bitmap b c).
Proof. intros H. exact H. Qed.




End Painted.



Lemma nth_error_mapi_from {A C} (f : nat -> A -> C) (l : list A) :
  forall k i, nth_error (Ctx.mapi_from f k l) i = option_map (f (k + i)%nat) (nth_error l i).
Proof.
  induction l as [| a l IH]; intros k [| i]; cbn [Ctx.mapi_from nth_error option_map];
    try reflexivity.
  - rewrite Nat.add_0_r. reflexivity.
  - rewrite IH. replace (S k + i)%nat with (k + S i)%nat by lia. reflexivity.
Qed.

Lemma nth_error_mapi {A C} (f : nat -> A -> C) (l : list A) (i : nat) :
  nth_error (Ctx.mapi f l) i = option_map (f i) (nth_error l i).
Proof. unfold Ctx.mapi. rewrite nth_error_mapi_from. reflexivity. Qed.


(** A transparent pixel drawn over another one leaves it as it is. *)
Lemma over_transparent (px bg : Pixel) :
  pixel_eq px transparent -> pixel_eq (Ctx.over px bg) bg.
Proof.
  intros (Hr & Hg & Hb & Ha). unfold pixel_eq. cbn in *.
  repeat split; rewrite ?Hr, ?Hg, ?Hb, ?Ha; ring.
Qed.




(** ** Text overlay *)

Lemma trimStart_blank (l : list ascii) :
  forallb isWhiteSpace l = true -> trimStart l = [].
Proof.
  induction l as [| a l IH]; [reflexivity|]. cbn [forallb trimStart].
  intros H. apply andb_prop in H. destruct H as [Ha Hl]. rewrite Ha. exact (IH Hl).
Qed.

Lemma trim_blank (v : string) : blank v -> trim v = "".
Proof. intros H. unfold trim. rewrite (trimStart_blank _ H). reflexivity. Qed.

(** What [commitText] does with a blank text. *)
Lemma commitText_blank {N : JsNumber} {B : Ctx.Browser} (s : State) :
  isVisible (textInput s) = true -> blank (value (textInput s)) ->
  commitText s =
    let t := textInput s in
    let s' := setTextInput (mkTextInput false (text_x t) (text_y t) (value t) (rotation t)) s in
    if Tool_eqb (tool (settings s)) Line then saveState s' else s'.
Proof.
  intros Hv Hb. unfold commitText. cbv zeta.
  rewrite (trim_blank _ Hb), Hv. destruct (ctx s); reflexivity.
Qed.

(** C6 - Blank text commit (amended).  Committing an open overlay whose text
    is empty or white space only leaves the canvas context, and with it the
    surface, unchanged and closes the overlay.  With the ruler selected it
    still takes one snapshot of the surface: the history grows by exactly 1
    while it holds fewer than 20 entries, and at 20 entries its oldest entry
    is dropped, the length staying 20.  With any other tool the history is
    unchanged. *)
Theorem blank_commit {N : JsNumber} {B : Ctx.Browser} (s : State) (c : Ctx.Context2D) :
  ctx s = Some c -> canvasRef s = true ->
  isVisible (textInput s) = true -> blank (value (textInput s)) ->
  let s' := commitText s in
  ctx s' = Some c /\ isVisible (textInput s') = false /\
  (tool (settings s) = Line ->
   history s' = (if (List.length (history s) <? maxDepth)%nat
                 then history s ++ [Ctx.bitmap c]
                 else tl (history s) ++ [Ctx.bitmap c])%list /\
   ((List.length (history s) < maxDepth)%nat ->
    List.length (history s') = S (List.length (history s))) /\
   (List.length (history s) = maxDepth -> List.length (history s') = maxDepth)) /\
  (tool (settings s) <> Line -> history s' = history s).
Proof.
  intros Hc Hr Hv Hb. cbv zeta. rewrite (commitText_blank s Hv Hb). cbv zeta.
  set (s1 := setTextInput _ s).
  assert (Hc1 : ctx s1 = Some c) by exact Hc.
  assert (Hr1 : canvasRef s1 = true) by exact Hr.
  destruct (Tool_eqb (tool (settings s)) Line) eqn:Ht.
  - apply Tool_eqb_eq in Ht.
    destruct (saveState_other s1) as [E1 _].
    pose proof (saveState_history s1 c Hc1 Hr1) as Hh.
    change (history s1) with (history s) in Hh.
    split; [rewrite E1; exact Hc1|]. split.
    { rewrite (saveState_ready s1 c Hc1 Hr1). reflexivity. }
    split; [| intros Hn; congruence].
    intros _. split; [exact Hh|]. split.
    + intros Hlt. rewrite Hh.
      destruct (Nat.ltb_spec (List.length (history s)) maxDepth); [| lia].
      rewrite length_app. cbn [List.length]. lia.
    + intros Heq. rewrite Hh, Heq, Nat.ltb_irrefl, length_app. cbn [List.length].
      destruct (history s); [discriminate Heq | cbn in *; lia].
  - split; [exact Hc1|]. split; [reflexivity|]. split.
    + intros Hl. apply Tool_eqb_eq in Hl. congruence.
    + intros _. reflexivity.
Qed.

Lemma blank_commit_witness :
  let s := rulerGesture loaded in
  let s' := commitText (N := exactNumber) (B := boxBrowser) s in
  List.length (history s) = 1%nat /\ List.length (history s') = 2%nat /\
  ctx s' = ctx s /\ isVisible (textInput s') = false.
Proof.
  cbv zeta.
  destruct (blank_commit (N := exactNumber) (B := boxBrowser) (rulerGesture loaded)
              (contextOf (rulerGesture loaded)))
    as (H1 & H2 & H3 & _); try (vm_compute; reflexivity).
  destruct (H3 eq_refl) as (_ & H4 & _).
  split; [reflexivity|]. split; [| split; [| exact H2]].
  - rewrite H4; [reflexivity | vm_compute; lia].
  - rewrite H1. vm_compute. reflexivity.
Defined.

(** C6 as stated fails on a full history: the snapshot is taken, but the
    oldest entry is dropped and the length stays 20. *)
Lemma blank_commit_counterexample :
  ~ (forall (s : State) (c : Ctx.Context2D),
        ctx s = Some c -> canvasRef s = true ->
        isVisible (textInput s) = true -> blank (value (textInput s)) ->
        tool (settings s) = Line ->
        List.length (history (commitText (N := exactNumber) (B := boxBrowser) s))
        = S (List.length (history s))).
Proof.
  intros claim.
  specialize (claim (rulerGesture fullSession) (contextOf (rulerGesture fullSession))).
  assert (H : List.length (history (commitText (N := exactNumber) (B := boxBrowser)
                                      (rulerGesture fullSession))) = 20%nat)
    by (vm_compute; reflexivity).
  rewrite claim in H; try (vm_compute; reflexivity).
  vm_compute in H. discriminate H.
Qed.

(** ** Pointer-down while the overlay is open *)

Lemma saveState_isDrawing (s : State) : isDrawing (saveState s) = isDrawing s.
Proof. unfold saveState. destruct (ctx s); [destruct (canvasRef s)|]; reflexivity. Qed.

Lemma saveState_startPos (s : State) : startPos (saveState s) = startPos s.
Proof. unfold saveState. destruct (ctx s); [destruct (canvasRef s)|]; reflexivity. Qed.

Lemma saveState_snapshot (s : State) : snapshot (saveState s) = snapshot s.
Proof. unfold saveState. destruct (ctx s); [destruct (canvasRef s)|]; reflexivity. Qed.

Lemma saveState_view (s : State) : view (saveState s) = view s.
Proof. unfold saveState. destruct (ctx s); [destruct (canvasRef s)|]; reflexivity. Qed.

Lemma saveState_textInput (s : State) : textInput (saveState s) = textInput s.
Proof. unfold saveState. destruct (ctx s); [destruct (canvasRef s)|]; reflexivity. Qed.

Lemma commitText_gesture {N : JsNumber} {B : Ctx.Browser} (s : State) :
  let s' := commitText s in
  isDrawing s' = isDrawing s /\ startPos s' = startPos s /\
  snapshot s' = snapshot s /\ view s' = view s /\
  isVisible (textInput s') = false.
Proof.
  unfold commitText. cbv zeta.
  destruct (ctx s) as [c |];
    [destruct (negb (isVisible (textInput s))
               || negb (truthy (trim (value (textInput s)))))|];
    try destruct (Tool_eqb (tool (settings s)) Line);
    cbn [isDrawing startPos snapshot view textInput setTextInput];
    rewrite ?saveState_isDrawing, ?saveState_startPos, ?saveState_snapshot,
      ?saveState_view, ?saveState_textInput;
    repeat split.
Qed.

(** C7 - Pointer-down with the overlay open (amended).  While a text overlay
    is open, a pointer-down with a drawing tool and a button other than the
    middle one, on a ready canvas, does what [commitText] does and nothing
    more: the overlay is committed and closed, no stroke is started and no new
    overlay is opened, so the same click starts no fresh action. *)
Theorem pointer_down_commits {N : JsNumber} {B : Ctx.Browser} (e : MouseEvent)
    (s : State) (c : Ctx.Context2D) :
  isVisible (textInput s) = true ->
  tool (settings s) <> Pan -> button e <> 1%Z ->
  ctx s = Some c -> canvasRef s = true ->
  let s' := handleMouseDown e s in
  s' = commitText s /\
  isDrawing s' = isDrawing s /\ startPos s' = startPos s /\
  snapshot s' = snapshot s /\ isVisible (textInput s') = false.
Proof.
  intros Hv Ht Hb Hc Hr. cbv zeta. unfold handleMouseDown.
  assert (E1 : Tool_eqb (tool (settings s)) Pan = false).
  { destruct (Tool_eqb (tool (settings s)) Pan) eqn:E; [| reflexivity].
    apply Tool_eqb_eq in E. congruence. }
  assert (E2 : (button e =? 1)%Z = false) by (apply Z.eqb_neq; exact Hb).
  rewrite E1, E2, Hc, Hr, Hv. cbn [orb negb].
  destruct (commitText_gesture s) as (G1 & G2 & G3 & _ & G5).
  repeat split; assumption.
Qed.

Lemma typing_visible : isVisible (textInput typing) = true.
Proof. vm_compute. reflexivity. Qed.

Lemma pointer_down_commits_witness :
  let s' := handleMouseDown (N := exactNumber) (B := boxBrowser) rulerUp typing in
  s' = commitText (N := exactNumber) (B := boxBrowser) typing /\
  isDrawing s' = isDrawing typing /\ isVisible (textInput s') = false.
Proof.
  cbv zeta.
  destruct (pointer_down_commits (N := exactNumber) (B := boxBrowser) rulerUp typing
              (contextOf typing) typing_visible) as (H1 & H2 & _ & _ & H5).
  - vm_compute. discriminate.
  - vm_compute. discriminate.
  - vm_compute. reflexivity.
  - vm_compute. reflexivity.
  - split; [exact H1|]. split; [exact H2 | exact H5].
Defined.

(** C7 as stated fails: with the text tool, a click elsewhere while the
    overlay is open only commits the note; processed as a fresh action after
    the commit, the same click would have opened a new overlay. *)
Lemma pointer_down_counterexample :
  ~ (forall (e : MouseEvent) (s : State),
        isVisible (textInput s) = true ->
        handleMouseDown (N := exactNumber) (B := boxBrowser) e s
        = handleMouseDown (N := exactNumber) (B := boxBrowser) e
            (commitText (N := exactNumber) (B := boxBrowser) s)).
Proof.
  intros claim. specialize (claim rulerUp typing typing_visible).
  apply (f_equal (fun s => isVisible (textInput s))) in claim.
  vm_compute in claim. discriminate claim.
Qed.

(** ** Export *)

Lemma onImageLoad_dimensions {N : JsNumber} (img : ImageData) (s : State) (cont : Container) :
  container s = Some cont -> canvasRef s = true ->
  dimensions (onImageLoad img s) = (width img, height img) /\
  surface (onImageLoad img s) = Some (blankImage (width img) (height img)).
Proof.
  intros Hc Hr. unfold onImageLoad. rewrite Hc, Hr. cbn [negb]. cbv zeta.
  match goal with |- context [if ?b then _ else _] => destruct b end; split; reflexivity.
Qed.


Lemma nth_error_overlay (src dst : list Pixel) :
  forall (i : nat) (p d : Pixel),
    nth_error src i = Some p -> nth_error dst i = Some d ->
    nth_error (Ctx.overlay src dst) i = Some (Ctx.over p d).
Proof.
  revert src. induction dst as [| d0 dst IH]; intros src i p d Hs Hd.
  - destruct i; discriminate Hd.
  - destruct src as [| p0 src]; [destruct i; discriminate Hs|].
    destruct i as [| i]; cbn [Ctx.overlay nth_error] in *.
    + congruence.
    + apply IH; assumption.
Qed.

Lemma nth_error_blank (w h i : nat) :
  (i < w * h)%nat -> nth_error (data (blankImage w h)) i = Some transparent.
Proof.
  intros Hi. cbn [blankImage data]. rewrite nth_error_repeat by exact Hi. reflexivity.
Qed.

(** A pixel of the buffer [handleSave] encodes: the pixel of the canvas
    over the pixel of the scaled image over the blank buffer. *)
Lemma exportBuffer_pixel {B : Ctx.Browser} (s : State) (c : Ctx.Context2D) (i : nat)
    (a m : Pixel) :
  ctx s = Some c ->
  (i < fst (dimensions s) * snd (dimensions s))%nat ->
  nth_error (data (Ctx.bitmap c)) i = Some a ->
  nth_error (data (Ctx.resample (fst (dimensions s)) (snd (dimensions s)) (bgImage s))) i
  = Some m ->
  nth_error (data (exportBuffer s)) i = Some (Ctx.over a (Ctx.over m transparent)).
Proof.
  intros Hc Hi Ha Hm.
  unfold exportBuffer, canvasBitmap, Ctx.drawImageScaled, Ctx.drawImage. rewrite Hc.
  cbn [data].
  apply nth_error_overlay; [exact Ha|].
  apply nth_error_overlay; [exact Hm|].
  apply (nth_error_blank _ _ _ Hi).
Qed.




(** ** Pointer-up and pointer-leave *)

Lemma saveState_commit (s : State) (c : Ctx.Context2D) :
  ctx s = Some c -> canvasRef s = true ->
  history (saveState s) =
    (if (List.length (history s) <? maxDepth)%nat
     then history s ++ [Ctx.bitmap c]
     else tl (history s) ++ [Ctx.bitmap c])%list /\
  redoStack (saveState s) = [] /\
  surface (saveState s) = Some (Ctx.bitmap c).
Proof.
  intros Hc Hr. split; [apply saveState_history; assumption|].
  destruct (saveState_other s) as [E _]. unfold surface. rewrite E, Hc.
  rewrite (saveState_ready s c Hc Hr). split; reflexivity.
Qed.

(** C9 - Pointer-leave.  The container handles [onMouseLeave] with the
    handler of [onMouseUp], so leaving the container is pointer-up in every
    state.  For a gesture in progress (drawing, not panning, on a ready
    canvas) it ends the gesture; with any tool but the ruler it commits it:
    one snapshot of the surface goes on the history (the oldest entry dropped
    when it is full) and the redo stack is emptied; with the ruler nothing is
    committed and the measurement overlay opens. *)
Theorem leave_is_pointer_up {N : JsNumber} {B : Ctx.Browser} (e : MouseEvent)
    (s : State) :
  containerHandler (onMouseLeave e) s = containerHandler (onMouseUp e) s /\
  forall (c : Ctx.Context2D) (start : Point),
    isPanning (view s) = false -> isDrawing s = true ->
    ctx s = Some c -> canvasRef s = true -> startPos s = Some start ->
    let s' := containerHandler (onMouseLeave e) s in
    isDrawing s' = false /\
    (tool (settings s) <> Line ->
     history s' = (if (List.length (history s) <? maxDepth)%nat
                   then history s ++ [Ctx.bitmap c]
                   else tl (history s) ++ [Ctx.bitmap c])%list /\
     redoStack s' = [] /\ surface s' = Some (Ctx.bitmap c)) /\
    (tool (settings s) = Line ->
     history s' = history s /\ isVisible (textInput s') = true).
Proof.
  split; [reflexivity|].
  intros c start Hp Hd Hc Hr Hs. cbv zeta.
  unfold containerHandler, handleMouseUp. rewrite Hp, Hd, Hc, Hs.
  cbn [settings setIsDrawing].
  destruct (tool (settings s)) eqn:Ht;
    (split; [rewrite ?saveState_isDrawing; reflexivity|]);
    (split; [intros Hn | intros Hl; try discriminate Hl]);
    try congruence;
    try (split; reflexivity);
    first [ apply (saveState_commit (setCtx (Some (Ctx.closePath c)) (setIsDrawing false s))
                     (Ctx.closePath c) eq_refl Hr)
          | apply (saveState_commit (setIsDrawing false s) c Hc Hr) ].
Qed.

Lemma leave_is_pointer_up_witness :
  let s := loaded
             ;> handleMouseDown (N := exactNumber) (B := boxBrowser) rulerDown
             ;> handleMouseMove (N := exactNumber) (B := boxBrowser) rulerUp in
  let s' := containerHandler (N := exactNumber) (B := boxBrowser) (onMouseLeave rulerUp) s in
  isDrawing s = true /\ isDrawing s' = false /\
  List.length (history s') = 2%nat /\ surface s' = surface s.
Proof.
  cbv zeta.
  set (s := loaded ;> handleMouseDown (N := exactNumber) (B := boxBrowser) rulerDown
                   ;> handleMouseMove (N := exactNumber) (B := boxBrowser) rulerUp).
  destruct (leave_is_pointer_up (N := exactNumber) (B := boxBrowser) rulerUp s) as [_ H].
  destruct (H (contextOf s) (mkPoint 1 (1 # 2))) as (H1 & H2 & _);
    try (vm_compute; reflexivity).
  assert (Ht : tool (settings s) <> Line) by (vm_compute; discriminate).
  destruct (H2 Ht) as (H3 & _ & H5).
  split; [vm_compute; reflexivity|]. split; [exact H1|]. split.
  - rewrite H3. vm_compute. reflexivity.
  - rewrite H5. vm_compute. reflexivity.
Defined.

(** ** Rasterising the text *)

Lemma commitText_draws {N : JsNumber} {B : Ctx.Browser} (s : State) (c : Ctx.Context2D) :
  ctx s = Some c -> isVisible (textInput s) = true ->
  truthy (trim (value (textInput s))) = true ->
  let t := textInput s in
  let g := settings s in
  let halo := Ctx.StrokeText (value t) (text_x t) (text_y t) in
  let glyphs := Ctx.FillText (value t) (text_x t) (text_y t) in
  let w := width (Ctx.bitmap c) in
  ctx (commitText s) =
    Some (Ctx.mkContext
            {| width := w; height := height (Ctx.bitmap c);
               data := Ctx.mapi (Ctx.paintPixel w glyphs (glyphStyle g (Ctx.style c)))
                         (Ctx.mapi (Ctx.paintPixel w halo (haloStyle g (Ctx.style c)))
                            (data (Ctx.bitmap c))) |}
            (Ctx.style c) (Ctx.saved c) (Ctx.path c)
            ((Ctx.trace c
              ++ [{| Ctx.op_shape := halo; Ctx.op_style := haloStyle g (Ctx.style c) |}])
              ++ [{| Ctx.op_shape := glyphs;
                     Ctx.op_style := glyphStyle g (Ctx.style c) |}])%list).
Proof.
  intros Hc Hv Ht. cbv zeta. unfold commitText. cbv zeta. rewrite Hc, Hv, Ht.
  cbn [negb orb ctx setTextInput].
  match goal with
  | |- ctx (saveState ?x) = _ => destruct (saveState_other x) as [E _]; rewrite E
  end.
  cbn [ctx setCtx]. destruct c as [b st sv p tr]. reflexivity.
Qed.

(** Source-over with a source of alpha 1 gives an opaque pixel. *)
Lemma blend_over_opaque (rgb : Q * Q * Q) (a : Q) (dst : Pixel) :
  a == 1 -> chA (Ctx.blend Ctx.SourceOver rgb a dst) == 1.
Proof.
  intros Ha. destruct rgb as [[r g] b]. cbn. rewrite Ha. ring.
Qed.

(** C10 - Text is rasterised opaque and source-over.  Committing a visible
    overlay whose text is not blank paints exactly two operations, the white
    halo of the text and then its glyphs in the selected colour, both with
    [globalAlpha = 1] and source-over compositing, whatever the opacity
    setting, the selected tool (the eraser included) and the drawing state
    the context was left in; a pixel the glyphs cover comes out opaque; and
    the drawing state of the context is restored afterwards. *)
Theorem text_commit_opaque {N : JsNumber} {B : Ctx.Browser} (s : State)
    (c : Ctx.Context2D) :
  ctx s = Some c -> isVisible (textInput s) = true ->
  truthy (trim (value (textInput s))) = true ->
  let t := textInput s in
  let halo := Ctx.StrokeText (value t) (text_x t) (text_y t) in
  let glyphs := Ctx.FillText (value t) (text_x t) (text_y t) in
  exists (c' : Ctx.Context2D) (st1 st2 : Ctx.Style),
    ctx (commitText s) = Some c' /\
    newOps c c' = [{| Ctx.op_shape := halo; Ctx.op_style := st1 |};
                   {| Ctx.op_shape := glyphs; Ctx.op_style := st2 |}] /\
    Ctx.globalAlpha st1 = 1 /\ Ctx.globalCompositeOperation st1 = Ctx.SourceOver /\
    Ctx.strokeStyle st1 = "white" /\
    Ctx.globalAlpha st2 = 1 /\ Ctx.globalCompositeOperation st2 = Ctx.SourceOver /\
    Ctx.fillStyle st2 = hex (color (settings s)) /\
    Ctx.style c' = Ctx.style c /\
    forall (i : nat) (dst : Pixel),
      nth_error (data (Ctx.bitmap c)) i = Some dst ->
      Ctx.coverage (width (Ctx.bitmap c)) glyphs st2 i == 1 ->
      exists px, nth_error (data (Ctx.bitmap c')) i = Some px /\ chA px == 1.
Proof.
  intros Hc Hv Ht. cbv zeta.
  eexists. exists (haloStyle (settings s) (Ctx.style c)),
                  (glyphStyle (settings s) (Ctx.style c)).
  split; [exact (commitText_draws s c Hc Hv Ht)|].
  split.
  { unfold newOps. cbn [Ctx.trace]. rewrite <- app_assoc, skipn_app, skipn_all.
    rewrite Nat.sub_diag. reflexivity. }
  repeat (split; [reflexivity|]).
  intros i dst Hi Hcov. cbn [Ctx.bitmap data].
  rewrite !nth_error_mapi, Hi. cbn [option_map].
  eexists. split; [reflexivity|].
  unfold Ctx.paintPixel at 1. apply blend_over_opaque.
  rewrite Hcov. reflexivity.
Qed.

Lemma text_commit_opaque_witness :
  Ctx.globalCompositeOperation (Ctx.style (contextOf erasing)) = Ctx.DestinationOut /\
  exists c',
    ctx (commitText (N := exactNumber) (B := boxBrowser) erasing) = Some c' /\
    Forall (fun o => Ctx.globalAlpha (Ctx.op_style o) = 1 /\
                     Ctx.globalCompositeOperation (Ctx.op_style o) = Ctx.SourceOver)
           (newOps (contextOf erasing) c').
Proof.
  split; [vm_compute; reflexivity|].
  destruct (text_commit_opaque (N := exactNumber) (B := boxBrowser) erasing
              (contextOf erasing))
    as (c' & st1 & st2 & H1 & H2 & A1 & G1 & _ & A2 & G2 & _);
    try (vm_compute; reflexivity).
  exists c'. split; [exact H1|]. rewrite H2.
  repeat constructor; assumption.
Defined.

(** * Further properties of the canvas *)

(** ** Zoom stays clamped *)

Lemma handleMouseDown_zoom {N : JsNumber} {B : Ctx.Browser} (e : MouseEvent) (s : State) :
  zoom (view (handleMouseDown e s)) = zoom (view s).
Proof.
  unfold handleMouseDown.
  destruct (Tool_eqb (tool (settings s)) Pan || (button e =? 1)%Z); [reflexivity|].
  destruct (ctx s); [| reflexivity].
  destruct (negb (canvasRef s)); [reflexivity|].
  destruct (isVisible (textInput s)).
  - destruct (commitText_gesture s) as (_ & _ & _ & -> & _). reflexivity.
  - destruct (Tool_eqb (tool (settings s)) Text); reflexivity.
Qed.

Lemma handleMouseMove_zoom {N : JsNumber} {B : Ctx.Browser} (e : MouseEvent) (s : State) :
  zoom (view (handleMouseMove e s)) = zoom (view s).
Proof.
  unfold handleMouseMove. cbv zeta.
  destruct (isPanning (view s)); [reflexivity|].
  destruct (isDrawing s), (ctx s), (canvasRef s), (startPos s), (snapshot s); reflexivity.
Qed.

Lemma handleMouseUp_zoom {N : JsNumber} (e : MouseEvent) (s : State) :
  zoom (view (handleMouseUp e s)) = zoom (view s).
Proof.
  unfold handleMouseUp.
  destruct (isPanning (view s)); [reflexivity|].
  destruct (isDrawing s), (ctx s), (startPos s); try reflexivity.
  cbn [settings setIsDrawing].
  destruct (tool (settings s)); rewrite ?saveState_view; reflexivity.
Qed.

Lemma handleWheel_zoom {N : JsNumber} (e : WheelEvent) (s : State) :
  0.1 <= zoom (view s) <= 5 -> 0.1 <= zoom (view (handleWheel e s)) <= 5.
Proof.
  intros Hz. unfold handleWheel.
  destruct (ctrlKey e || metaKey e || true); [| exact Hz].
  destruct (container s); [| exact Hz].
  cbn. apply clamp_range.
Qed.

(** X1 - Zoom clamp.  Starting from a zoom in [0.1, 5], no sequence of zoom
    buttons, wheel events and pointer events on the container takes the zoom
    out of [0.1, 5], whatever the rounding of the arithmetic. *)
Theorem zoom_stays_clamped {N : JsNumber} {B : Ctx.Browser} (acts : list Interaction)
    (s : State) :
  0.1 <= zoom (view s) <= 5 ->
  0.1 <= zoom (view (fold_left interact acts s)) <= 5.
Proof.
  revert s. induction acts as [| i acts IH]; intros s Hz; [exact Hz|].
  cbn [fold_left]. apply IH.
  destruct i as [delta | [e | e | e | e | e]]; cbn [interact containerHandler].
  - unfold handleZoom. cbn. apply clamp_range.
  - apply handleWheel_zoom, Hz.
  - rewrite handleMouseDown_zoom. exact Hz.
  - rewrite handleMouseMove_zoom. exact Hz.
  - rewrite handleMouseUp_zoom. exact Hz.
  - rewrite handleMouseUp_zoom. exact Hz.
Qed.

Lemma zoom_stays_clamped_witness :
  0.1 <= zoom (view (fold_left (interact (N := exactNumber) (B := boxBrowser))
                       [zoomButton 7; onContainer (onWheel sampleWheel);
                        zoomButton (-9); onContainer (onMouseDown rulerDown)]
                       loaded)) <= 5.
Proof.
  apply (zoom_stays_clamped (N := exactNumber) (B := boxBrowser)).
  split; by_compute.
Defined.

(** ** Exact arithmetic *)

Section Exact.
Context {N : JsNumber}.
Hypothesis exact : RoundsWithin N 0.

Lemma near_0 (x y : Q) : near 0 x y -> x == y.
Proof.
  unfold near. intros H.
  assert (H' : Qabs (x - y) <= 0) by lra.
  apply Qabs_le_0 in H'. lra.
Qed.


Lemma exact_sub (a b : Q) : a -! b == a - b.
Proof. apply near_0, round_sub, exact. Qed.

Lemma exact_mul (a b : Q) : a *! b == a * b.
Proof. apply near_0, round_mul, exact. Qed.

Lemma exact_div (a b : Q) : ~ b == 0 -> a /! b == a / b.
Proof. intros Hb. apply near_0, round_div; [exact exact | exact Hb]. Qed.

End Exact.

(** ** Fit to the container *)

Lemma inject_nat_pos (n : nat) : (0 < n)%nat -> 0 < inject_Z (Z.of_nat n).
Proof.
  intros Hn. change 0 with (inject_Z 0). rewrite <- Zlt_Qlt. lia.
Qed.

(** X2 - Reset view.  On a mounted container and a loaded image, [resetView]
    never zooms in beyond the natural size (zoom at most 1); in exact
    arithmetic the scaled image fits in the container less a margin of 40
    pixels in each direction and is centred in it, and the zoom is positive
    when the container is larger than the margin. *)
Theorem resetView_fits {N : JsNumber} (s : State) (cont : Container) (w h : nat) :
  RoundsWithin N 0 ->
  container s = Some cont -> dimensions s = (w, h) -> (0 < w)%nat -> (0 < h)%nat ->
  let W := inject_Z (Z.of_nat w) in
  let H := inject_Z (Z.of_nat h) in
  let z := zoom (view (resetView s)) in
  let p := pan (view (resetView s)) in
  z <= 1 /\
  W * z <= clientWidth cont - 40 /\ H * z <= clientHeight cont - 40 /\
  2 * pt_x p + W * z == clientWidth cont /\
  2 * pt_y p + H * z == clientHeight cont /\
  (40 < clientWidth cont -> 40 < clientHeight cont -> 0 < z).
Proof.
  intros R Hc Hd Hw Hh. cbv zeta. unfold resetView. rewrite Hc, Hd. cbn [fst snd].
  destruct (Nat.eqb_spec w 0) as [E | _]; [lia|].
  cbn [view zoom pan setZoom setPan setView pt_x pt_y].
  pose proof (inject_nat_pos w Hw) as HW. pose proof (inject_nat_pos h Hh) as HH.
  set (W := inject_Z (Z.of_nat w)) in *. set (H := inject_Z (Z.of_nat h)) in *.
  set (z := Qmin (Qmin ((clientWidth cont -! 40) /! W) ((clientHeight cont -! 40) /! H)) 1).
  assert (Hz1 : z <= 1) by apply Q.le_min_r.
  assert (Hzw : z <= (clientWidth cont - 40) / W).
  { eapply Qle_trans; [apply Q.le_min_l|]. eapply Qle_trans; [apply Q.le_min_l|].
    rewrite (exact_div R) by lra. rewrite (exact_sub R). lra. }
  assert (Hzh : z <= (clientHeight cont - 40) / H).
  { eapply Qle_trans; [apply Q.le_min_l|]. eapply Qle_trans; [apply Q.le_min_r|].
    rewrite (exact_div R) by lra. rewrite (exact_sub R). lra. }
  assert (Ew : W * ((clientWidth cont - 40) / W) == clientWidth cont - 40) by (field; lra).
  assert (Eh : H * ((clientHeight cont - 40) / H) == clientHeight cont - 40) by (field; lra).
  split; [exact Hz1|]. split; [| split; [| split; [| split]]].
  - rewrite <- Ew. apply Qmult_le_l; [exact HW | exact Hzw].
  - rewrite <- Eh. apply Qmult_le_l; [exact HH | exact Hzh].
  - rewrite (exact_div R) by lra. rewrite (exact_sub R), (exact_mul R). field.
  - rewrite (exact_div R) by lra. rewrite (exact_sub R), (exact_mul R). field.
  - intros Hcw Hch. unfold z.
    apply Q.min_glb_lt; [apply Q.min_glb_lt|]; try lra.
    + rewrite (exact_div R) by lra. rewrite (exact_sub R).
      apply Qlt_shift_div_l; [exact HW | lra].
    + rewrite (exact_div R) by lra. rewrite (exact_sub R).
      apply Qlt_shift_div_l; [exact HH | lra].
Qed.

Lemma exactNumber_exact : RoundsWithin exactNumber 0.
Proof. apply exactNumber_rounds. lra. Qed.

Lemma resetView_fits_witness :
  let s := resetView (N := exactNumber) (setDimensions (1600, 3000)%nat loaded) in
  zoom (view s) <= 1 /\ 3000 * zoom (view s) <= 600 - 40 /\ 0 < zoom (view s).
Proof.
  destruct (resetView_fits (N := exactNumber) (setDimensions (1600, 3000)%nat loaded)
              sampleContainer 1600 3000 exactNumber_exact eq_refl eq_refl)
    as (H1 & _ & H3 & _ & _ & H6); try lia.
  split; [exact H1|]. split; [exact H3|].
  apply H6; apply Qlt_alt; vm_compute; reflexivity.
Defined.

(** ** Panning *)

Lemma setView_same (s : State) : setView (view s) s = s.
Proof. destruct s; reflexivity. Qed.



Lemma last_cons {A : Type} (l : list A) (a d : A) : last (a :: l) d = last l a.
Proof.
  revert a d. induction l as [| b l IH]; intros a d; [reflexivity|].
  change (last (a :: b :: l) d) with (last (b :: l) d). rewrite !IH. reflexivity.
Qed.





(** ** The history under undo, redo and commit in any order *)

Lemma with_bitmap_twice (a b : ImageData) (c : Ctx.Context2D) :
  Ctx.with_bitmap a (Ctx.with_bitmap b c) = Ctx.with_bitmap a c.
Proof. reflexivity. Qed.

Lemma with_bitmap_same (c : Ctx.Context2D) : Ctx.with_bitmap (Ctx.bitmap c) c = c.
Proof. destruct c; reflexivity. Qed.

Lemma last_snoc {A} (l : list A) (a d : A) : last (l ++ [a]) d = a.
Proof. apply last_last. Qed.

Lemma tl_snoc_nonempty {A} (l : list A) (a : A) : (tl (l ++ [a]) ++ [a])%list <> [].
Proof. destruct (tl (l ++ [a])); discriminate. Qed.

Lemma initial_synced (s : State) (c : Ctx.Context2D) : initial s c -> synced s c.
Proof.
  intros (Hc & Hr & Hh & _). unfold synced. rewrite Hh.
  repeat split; try assumption. discriminate.
Qed.

Lemma synced_commit (f : Ctx.Context2D -> Ctx.Context2D) (s : State) (c : Ctx.Context2D) :
  synced s c -> synced (commitAction f s) (f c).
Proof.
  intros (Hc & Hr & Hh & Hl). unfold commitAction, drawOn. rewrite Hc.
  set (s1 := setCtx (Some (f c)) s).
  assert (Hc1 : ctx s1 = Some (f c)) by reflexivity.
  assert (Hr1 : canvasRef s1 = true) by exact Hr.
  destruct (saveState_other s1) as [E1 E2].
  unfold synced. rewrite E1, E2, (saveState_history s1 (f c) Hc1 Hr1).
  repeat split; try assumption.
  - destruct (List.length (history s1) <? maxDepth)%nat;
      [destruct (history s1) | destruct (tl (history s1))]; discriminate.
  - destruct (List.length (history s1) <? maxDepth)%nat; apply last_last.
Qed.

Lemma removelast_nonempty {A} (l : list A) :
  (2 <= List.length l)%nat -> removelast l <> [].
Proof. destruct l as [| a [| b l]]; cbn; intros H; [lia | lia | discriminate]. Qed.

Lemma last_removelast {A} (l : list A) (d : A) :
  (2 <= List.length l)%nat -> last (removelast l) d = nth (List.length l - 2) l d.
Proof.
  intros H.
  assert (Hne : l <> []) by (intros E; rewrite E in H; cbn in H; lia).
  pose proof (app_removelast_last d Hne) as E.
  remember (removelast l) as r eqn:Er. remember (last l d) as x eqn:Ex.
  clear Er Ex Hne. subst l. rewrite length_app in *. cbn [List.length] in *.
  rewrite app_nth1 by lia.
  replace (List.length r + 1 - 2)%nat with (List.length r - 1)%nat by lia.
  symmetry. apply nth_last.
Qed.

Lemma last_default {A} (l : list A) (d d' : A) : l <> [] -> last l d = last l d'.
Proof.
  destruct l as [| a l]; [congruence|]. intros _. rewrite !last_cons. reflexivity.
Qed.

(** What an effective undo does on a session whose history has at least two
    entries. *)
Lemma handleUndo_step (s : State) (c : Ctx.Context2D) (d : ImageData) :
  ctx s = Some c -> (2 <= List.length (history s))%nat ->
  handleUndo s =
    s ;> setRedoStack (last (history s) d :: redoStack s)
      ;> setHistory (removelast (history s))
      ;> setCtx (Some (Ctx.putImageData (last (removelast (history s)) d) c)).
Proof.
  intros Hc Hl. unfold handleUndo. cbv zeta. rewrite Hc.
  destruct (Nat.leb_spec (List.length (history s)) 1) as [H | _]; [lia|].
  rewrite (nth_error_nth' (history s) (List.length (history s) - 1) d) by lia.
  rewrite (nth_error_nth' (history s) (List.length (history s) - 2) d) by lia.
  rewrite nth_last, (last_removelast _ d Hl). reflexivity.
Qed.

Lemma synced_undo (s : State) (c : Ctx.Context2D) :
  synced s c -> exists c', synced (handleUndo s) c'.
Proof.
  intros (Hc & Hr & Hh & Hl).
  destruct (Nat.leb_spec (List.length (history s)) 1) as [H1 | H2].
  - exists c. unfold handleUndo. cbv zeta. rewrite Hc.
    destruct (Nat.leb_spec (List.length (history s)) 1); [|lia].
    repeat split; assumption.
  - rewrite (handleUndo_step s c (Ctx.bitmap c) Hc) by lia.
    eexists. unfold synced.
    cbn [ctx canvasRef history setCtx setHistory setRedoStack].
    repeat split; [exact Hr | apply removelast_nonempty; lia |].
    cbn [Ctx.putImageData Ctx.with_bitmap Ctx.bitmap].
    apply last_default. apply removelast_nonempty; lia.
Qed.

Lemma handleRedo_step (s : State) (c : Ctx.Context2D) (next : ImageData)
    (rest : list ImageData) :
  ctx s = Some c -> redoStack s = next :: rest ->
  handleRedo s =
    s ;> setRedoStack rest
      ;> setHistory (history s ++ [next])%list
      ;> setCtx (Some (Ctx.putImageData next c)).
Proof. intros Hc Hr. unfold handleRedo. rewrite Hc, Hr. reflexivity. Qed.

Lemma synced_redo (s : State) (c : Ctx.Context2D) :
  synced s c -> exists c', synced (handleRedo s) c'.
Proof.
  intros (Hc & Hr & Hh & Hl).
  destruct (redoStack s) as [| next rest] eqn:Er.
  - exists c. unfold handleRedo. rewrite Hc, Er. repeat split; assumption.
  - rewrite (handleRedo_step s c next rest Hc Er).
    eexists. unfold synced.
    cbn [ctx canvasRef history setCtx setHistory setRedoStack].
    repeat split; [exact Hr | destruct (history s); discriminate |].
    apply last_last.
Qed.

Lemma synced_run (ops : list HistoryOp) :
  forall (s : State) (c : Ctx.Context2D),
    synced s c -> exists c', synced (fold_left runOp ops s) c'.
Proof.
  induction ops as [| op ops IH]; intros s c Hs; [exists c; exact Hs|].
  cbn [fold_left]. destruct op as [f | |]; cbn [runOp].
  - apply (IH _ (f c)). apply synced_commit. exact Hs.
  - destruct (synced_undo s c Hs) as [c' Hs']. apply (IH _ c' Hs').
  - destruct (synced_redo s c Hs) as [c' Hs']. apply (IH _ c' Hs').
Qed.

(** An undo that took effect is reverted by a redo. *)
Lemma redo_of_undo (s : State) (c : Ctx.Context2D) :
  synced s c -> (2 <= List.length (history s))%nat -> handleRedo (handleUndo s) = s.
Proof.
  intros (Hc & Hr & Hh & Hl) H2.
  rewrite (handleUndo_step s c (Ctx.bitmap c) Hc H2).
  erewrite handleRedo_step; [| reflexivity | reflexivity].
  cbn [history setCtx setHistory setRedoStack].
  rewrite <- (app_removelast_last (Ctx.bitmap c) Hh), Hl.
  cbn [Ctx.putImageData]. rewrite with_bitmap_twice, with_bitmap_same.
  destruct s; cbn in *; subst; reflexivity.
Qed.

(** A redo that took effect is reverted by an undo. *)
Lemma undo_of_redo (s : State) (c : Ctx.Context2D) :
  synced s c -> redoStack s <> [] -> handleUndo (handleRedo s) = s.
Proof.
  intros (Hc & Hr & Hh & Hl) Hne.
  destruct (redoStack s) as [| next rest] eqn:Er; [congruence|].
  rewrite (handleRedo_step s c next rest Hc Er).
  erewrite (handleUndo_step _ _ (Ctx.bitmap c)); [| reflexivity |].
  - cbn [history redoStack setCtx setHistory setRedoStack].
    rewrite removelast_last, last_last, Hl.
    cbn [Ctx.putImageData]. rewrite with_bitmap_twice, with_bitmap_same.
    destruct s; cbn in *; subst; reflexivity.
  - cbn [history setCtx setHistory setRedoStack]. rewrite length_app. cbn.
    destruct (history s); [congruence | cbn; lia].
Qed.

Lemma initial_bounded (s : State) (c : Ctx.Context2D) : initial s c -> bounded s.
Proof.
  intros (_ & _ & Hh & Hr). unfold bounded, maxDepth. rewrite Hh, Hr. cbn. lia.
Qed.

(** X4 - History invariant.  From the state the image load establishes,
    whatever commits, undos and redos follow in whatever order, the canvas
    has a context whose surface is the newest entry of the history, the
    history is never empty, and the history and the redo stack together never
    hold more than 20 snapshots. *)
Theorem history_invariant (ops : list HistoryOp) (s0 : State) (c0 : Ctx.Context2D) :
  initial s0 c0 ->
  let s := fold_left runOp ops s0 in
  (exists c, ctx s = Some c /\ last (history s) (Ctx.bitmap c) = Ctx.bitmap c) /\
  (1 <= List.length (history s))%nat /\
  (List.length (history s) + List.length (redoStack s) <= 20)%nat.
Proof.
  intros Hi. cbv zeta.
  destruct (synced_run ops s0 c0 (initial_synced s0 c0 Hi)) as (c & Hc & _ & _ & Hl).
  destruct (bounded_run ops s0 (initial_bounded s0 c0 Hi)) as [[H1 H2] _].
  split; [exists c; split; assumption|]. split; assumption.
Qed.

Lemma history_invariant_witness :
  let s := fold_left runOp
             (repeat (Commit fillAll) 25 ++ [Undo; Undo; Redo; Commit Ctx.clearRect; Redo; Undo])
             loaded in
  (exists c, ctx s = Some c /\ last (history s) (Ctx.bitmap c) = Ctx.bitmap c) /\
  (1 <= List.length (history s))%nat /\
  (List.length (history s) + List.length (redoStack s) <= 20)%nat.
Proof. exact (history_invariant _ loaded loadedContext loaded_initial). Defined.

(** X5 - Undo and redo are inverse steps.  On a session whose surface is
    the newest history entry, an undo that has something to undo (at least
    two entries) followed by a redo gives back the same session, and a redo
    that has something to redo followed by an undo does too: surface,
    history and redo stack. *)
Theorem undo_inverts_redo (s : State) (c : Ctx.Context2D) :
  synced s c ->
  ((2 <= List.length (history s))%nat -> handleRedo (handleUndo s) = s) /\
  (redoStack s <> [] -> handleUndo (handleRedo s) = s).
Proof.
  intros Hs. split; [apply (redo_of_undo s c Hs) | apply (undo_of_redo s c Hs)].
Qed.

Lemma undo_inverts_redo_witness :
  handleRedo (handleUndo undoneOnce) = undoneOnce /\
  handleUndo (handleRedo undoneOnce) = undoneOnce.
Proof.
  destruct (undo_inverts_redo undoneOnce loadedPainted) as [H1 H2].
  - unfold synced. split; [|split; [|split]]; vm_compute; try reflexivity.
    discriminate.
  - split; [apply H1; vm_compute; lia | apply H2; vm_compute; discriminate].
Defined.

(** A commit on a coherent session: the redo stack is emptied, at least two
    snapshots are in the history, and the one before the last is the
    surface before the commit. *)
Lemma commit_history (f : Ctx.Context2D -> Ctx.Context2D) (s : State)
    (c : Ctx.Context2D) :
  synced s c ->
  let s1 := commitAction f s in
  ctx s1 = Some (f c) /\ redoStack s1 = [] /\
  (2 <= List.length (history s1))%nat /\
  last (removelast (history s1)) (Ctx.bitmap (f c)) = Ctx.bitmap c.
Proof.
  intros (Hc & Hr & Hh & Hl). cbv zeta. unfold commitAction, drawOn. rewrite Hc.
  set (s1 := setCtx (Some (f c)) s).
  assert (Hc1 : ctx s1 = Some (f c)) by reflexivity.
  assert (Hr1 : canvasRef s1 = true) by exact Hr.
  destruct (saveState_commit s1 (f c) Hc1 Hr1) as (Eh & Er & _).
  destruct (saveState_other s1) as [Ec _].
  rewrite Ec, Eh. change (history s1) with (history s).
  split; [exact Hc1|]. split; [exact Er|].
  destruct (Nat.ltb_spec (List.length (history s)) maxDepth) as [Hlt | Hge].
  - rewrite removelast_last, length_app. cbn [List.length]. split.
    + destruct (history s); [congruence | cbn; lia].
    + etransitivity; [|exact Hl]. apply last_default. exact Hh.
  - rewrite removelast_last, length_app. cbn [List.length].
    destruct (history s) as [| a [| b h]] eqn:E;
      [congruence | cbn in Hge; unfold maxDepth in Hge; lia |].
    cbn [tl]. split; [cbn; lia|].
    rewrite last_cons in Hl. etransitivity; [|exact Hl].
    apply last_default. discriminate.
Qed.

Lemma undo_of_commit (f : Ctx.Context2D -> Ctx.Context2D) (s : State)
    (c : Ctx.Context2D) :
  synced s c -> surface (handleUndo (commitAction f s)) = Some (Ctx.bitmap c).
Proof.
  intros Hs. destruct (commit_history f s c Hs) as (Hc1 & _ & H2 & Hl).
  rewrite (handleUndo_step _ (f c) (Ctx.bitmap (f c)) Hc1 H2).
  unfold surface. cbn [ctx setCtx option_map Ctx.putImageData Ctx.with_bitmap Ctx.bitmap].
  rewrite Hl. reflexivity.
Qed.

(** X6 - A commit is one undo step and discards what was undone.  After a
    committed action on a session whose surface is the newest history entry,
    the surface is the drawn one, nothing can be redone (redo changes
    nothing, whatever had been undone before), one undo shows the surface
    from before the action again, and a redo after that undo restores the
    session after the action exactly. *)
Theorem commit_undo (f : Ctx.Context2D -> Ctx.Context2D) (s : State)
    (c : Ctx.Context2D) :
  synced s c ->
  let s1 := commitAction f s in
  surface s1 = Some (Ctx.bitmap (f c)) /\
  handleRedo s1 = s1 /\
  surface (handleUndo s1) = Some (Ctx.bitmap c) /\
  handleRedo (handleUndo s1) = s1.
Proof.
  intros Hs. cbv zeta.
  destruct (commit_history f s c Hs) as (Hc1 & Hr1 & H2 & _).
  split; [unfold surface; rewrite Hc1; reflexivity|].
  split; [unfold handleRedo; rewrite Hc1, Hr1; reflexivity|].
  split; [apply (undo_of_commit f s c Hs)|].
  apply (redo_of_undo _ (f c) (synced_commit f s c Hs) H2).
Qed.

Lemma commit_undo_witness :
  let s1 := commitAction fillAll undoneOnce in
  surface s1 = Some (Ctx.bitmap (fillAll loadedPainted)) /\
  handleRedo s1 = s1 /\
  surface (handleUndo s1) = Some (Ctx.bitmap loadedPainted) /\
  handleRedo (handleUndo s1) = s1.
Proof.
  apply (commit_undo fillAll undoneOnce loadedPainted).
  unfold synced. split; [|split; [|split]]; vm_compute; try reflexivity.
  discriminate.
Defined.

(** X7 - Clear all.  On a session whose surface is the newest history
    entry, the clear button leaves a surface of the same size with every
    pixel transparent, keeps the background image, and is a committed action
    like any other: the redo stack is emptied and one undo shows the
    annotations again.  Without a context it does nothing. *)
Theorem clear_canvas (s : State) (c : Ctx.Context2D) :
  synced s c ->
  let s1 := clearCanvas s in
  surface s1 = Some (blankImage (width (Ctx.bitmap c)) (height (Ctx.bitmap c))) /\
  bgImage s1 = bgImage s /\
  redoStack s1 = [] /\
  surface (handleUndo s1) = Some (Ctx.bitmap c) /\
  (forall t, ctx t = None -> clearCanvas t = t).
Proof.
  intros Hs. cbv zeta.
  assert (Hr : canvasRef s = true) by (destruct Hs as (_ & Hr & _); exact Hr).
  rewrite (clearCanvas_commit s Hr).
  destruct (commit_history Ctx.clearRect s c Hs) as (Hc1 & Hr1 & _ & _).
  split; [unfold surface; rewrite Hc1; reflexivity|].
  split.
  { destruct Hs as (Hc & _). unfold commitAction, drawOn, saveState. rewrite Hc.
    cbn [ctx canvasRef setCtx]. rewrite Hr. reflexivity. }
  split; [exact Hr1|].
  split; [apply (undo_of_commit Ctx.clearRect s c Hs)|].
  intros t Ht. unfold clearCanvas. rewrite Ht. reflexivity.
Qed.

Lemma clear_canvas_witness :
  let s1 := clearCanvas undoneOnce in
  surface s1 = Some (blankImage 4 3) /\
  surface (handleUndo s1) = surface undoneOnce.
Proof.
  destruct (clear_canvas undoneOnce loadedPainted) as (H1 & _ & _ & H4 & _).
  - unfold synced. split; [|split; [|split]]; vm_compute; try reflexivity.
    discriminate.
  - cbv zeta. rewrite H1, H4. split; vm_compute; reflexivity.
Defined.

(** ** Shape previews *)

Ltac alike_prim :=
  intros (Hb & Hs & Hp);
  unfold alike, Ctx.set_strokeStyle, Ctx.set_fillStyle, Ctx.set_lineWidth,
    Ctx.set_lineCap, Ctx.set_lineJoin, Ctx.set_globalAlpha, Ctx.setLineDash,
    Ctx.set_globalCompositeOperation, Ctx.beginPath, Ctx.moveTo, Ctx.lineTo,
    Ctx.arc, Ctx.putImageData, Ctx.stroke, Ctx.fill, Ctx.strokeRect, Ctx.fillRect,
    Ctx.paint, Ctx.with_style, Ctx.with_path, Ctx.with_bitmap;
  cbv zeta;
  repeat match goal with
         | |- context [if ?b then _ else _] => destruct b
         end;
  cbn [Ctx.bitmap Ctx.style Ctx.path];
  rewrite ?Hb, ?Hs, ?Hp; repeat split; try assumption; reflexivity.

Section Alike.
Context {N : JsNumber} {B : Ctx.Browser}.
Variables c c' : Ctx.Context2D.

Lemma alike_strokeStyle v :
  alike c c' -> alike (Ctx.set_strokeStyle v c) (Ctx.set_strokeStyle v c').
Proof. alike_prim. Qed.
Lemma alike_fillStyle v : alike c c' -> alike (Ctx.set_fillStyle v c) (Ctx.set_fillStyle v c').
Proof. alike_prim. Qed.
Lemma alike_lineWidth v : alike c c' -> alike (Ctx.set_lineWidth v c) (Ctx.set_lineWidth v c').
Proof. alike_prim. Qed.
Lemma alike_lineCap v : alike c c' -> alike (Ctx.set_lineCap v c) (Ctx.set_lineCap v c').
Proof. alike_prim. Qed.
Lemma alike_lineJoin v : alike c c' -> alike (Ctx.set_lineJoin v c) (Ctx.set_lineJoin v c').
Proof. alike_prim. Qed.
Lemma alike_globalAlpha v :
  alike c c' -> alike (Ctx.set_globalAlpha v c) (Ctx.set_globalAlpha v c').
Proof. alike_prim. Qed.
Lemma alike_lineDash v : alike c c' -> alike (Ctx.setLineDash v c) (Ctx.setLineDash v c').
Proof. alike_prim. Qed.
Lemma alike_gco v :
  alike c c' ->
  alike (Ctx.set_globalCompositeOperation v c) (Ctx.set_globalCompositeOperation v c').
Proof. alike_prim. Qed.
Lemma alike_beginPath : alike c c' -> alike (Ctx.beginPath c) (Ctx.beginPath c').
Proof. alike_prim. Qed.
Lemma alike_moveTo x y : alike c c' -> alike (Ctx.moveTo x y c) (Ctx.moveTo x y c').
Proof. alike_prim. Qed.
Lemma alike_lineTo x y : alike c c' -> alike (Ctx.lineTo x y c) (Ctx.lineTo x y c').
Proof. alike_prim. Qed.
Lemma alike_arc x y r a0 a1 :
  alike c c' -> alike (Ctx.arc x y r a0 a1 c) (Ctx.arc x y r a0 a1 c').
Proof. alike_prim. Qed.
Lemma alike_stroke : alike c c' -> alike (Ctx.stroke c) (Ctx.stroke c').
Proof. alike_prim. Qed.
Lemma alike_fill : alike c c' -> alike (Ctx.fill c) (Ctx.fill c').
Proof. alike_prim. Qed.
Lemma alike_strokeRect x y w h :
  alike c c' -> alike (Ctx.strokeRect x y w h c) (Ctx.strokeRect x y w h c').
Proof. alike_prim. Qed.
Lemma alike_fillRect x y w h :
  alike c c' -> alike (Ctx.fillRect x y w h c) (Ctx.fillRect x y w h c').
Proof. alike_prim. Qed.

End Alike.

Ltac alike_step :=
  lazymatch goal with
  | |- alike (Ctx.set_strokeStyle _ _) (Ctx.set_strokeStyle _ _) => apply alike_strokeStyle
  | |- alike (Ctx.set_fillStyle _ _) (Ctx.set_fillStyle _ _) => apply alike_fillStyle
  | |- alike (Ctx.set_lineWidth _ _) (Ctx.set_lineWidth _ _) => apply alike_lineWidth
  | |- alike (Ctx.set_lineCap _ _) (Ctx.set_lineCap _ _) => apply alike_lineCap
  | |- alike (Ctx.set_lineJoin _ _) (Ctx.set_lineJoin _ _) => apply alike_lineJoin
  | |- alike (Ctx.set_globalAlpha _ _) (Ctx.set_globalAlpha _ _) => apply alike_globalAlpha
  | |- alike (Ctx.setLineDash _ _) (Ctx.setLineDash _ _) => apply alike_lineDash
  | |- alike (Ctx.set_globalCompositeOperation _ _) (Ctx.set_globalCompositeOperation _ _) =>
      apply alike_gco
  | |- alike (Ctx.beginPath _) (Ctx.beginPath _) => apply alike_beginPath
  | |- alike (Ctx.moveTo _ _ _) (Ctx.moveTo _ _ _) => apply alike_moveTo
  | |- alike (Ctx.lineTo _ _ _) (Ctx.lineTo _ _ _) => apply alike_lineTo
  | |- alike (Ctx.arc _ _ _ _ _ _) (Ctx.arc _ _ _ _ _ _) => apply alike_arc
  | |- alike (Ctx.stroke _) (Ctx.stroke _) => apply alike_stroke
  | |- alike (Ctx.fill _) (Ctx.fill _) => apply alike_fill
  | |- alike (Ctx.strokeRect _ _ _ _ _) (Ctx.strokeRect _ _ _ _ _) => apply alike_strokeRect
  | |- alike (Ctx.fillRect _ _ _ _ _) (Ctx.fillRect _ _ _ _ _) => apply alike_fillRect
  end.

Lemma alike_applyStyles {N : JsNumber} (g : Settings) (c c' : Ctx.Context2D) :
  alike c c' -> alike (applyStyles g c) (applyStyles g c').
Proof.
  intros H. unfold applyStyles. cbv zeta.
  destruct (tool g), (lineStyle g); repeat alike_step; exact H.
Qed.

Lemma alike_drawArrow {N : JsNumber} {B : Ctx.Browser} (g : Settings) (x1 y1 x2 y2 : Q)
    (c c' : Ctx.Context2D) :
  alike c c' -> alike (drawArrow g x1 y1 x2 y2 c) (drawArrow g x1 y1 x2 y2 c').
Proof. intros H. unfold drawArrow. cbv zeta. repeat alike_step. exact H. Qed.

Lemma alike_drawTHeads {N : JsNumber} {B : Ctx.Browser} (g : Settings) (x1 y1 x2 y2 : Q)
    (c c' : Ctx.Context2D) :
  alike c c' -> alike (drawTHeads g x1 y1 x2 y2 c) (drawTHeads g x1 y1 x2 y2 c').
Proof. intros H. unfold drawTHeads. cbv zeta. repeat alike_step. exact H. Qed.

Lemma set_lineWidth_positive (v : Q) (c : Ctx.Context2D) :
  0 < v ->
  Ctx.set_lineWidth v c =
    let s := Ctx.style c in
    Ctx.with_style
      (Ctx.mkStyle (Ctx.strokeStyle s) (Ctx.fillStyle s) v (Ctx.lineCap s) (Ctx.lineJoin s)
         (Ctx.globalAlpha s) (Ctx.lineDash s) (Ctx.globalCompositeOperation s) (Ctx.font s)
         (Ctx.textAlign s) (Ctx.textBaseline s) (Ctx.shadowColor s) (Ctx.shadowBlur s)) c.
Proof.
  intros Hv. unfold Ctx.set_lineWidth. cbv zeta.
  destruct (Qlt_le_dec 0 v) as [_ | Hle]; [reflexivity|].
  exfalso. apply (Qlt_not_le _ _ Hv Hle).
Qed.

Lemma set_globalAlpha_valid (v : Q) (c : Ctx.Context2D) :
  0 <= v <= 1 ->
  Ctx.set_globalAlpha v c =
    let s := Ctx.style c in
    Ctx.with_style
      (Ctx.mkStyle (Ctx.strokeStyle s) (Ctx.fillStyle s) (Ctx.lineWidth s) (Ctx.lineCap s)
         (Ctx.lineJoin s) v (Ctx.lineDash s) (Ctx.globalCompositeOperation s) (Ctx.font s)
         (Ctx.textAlign s) (Ctx.textBaseline s) (Ctx.shadowColor s) (Ctx.shadowBlur s)) c.
Proof.
  intros [H0 H1]. unfold Ctx.set_globalAlpha. cbv zeta.
  apply Qle_bool_iff in H0, H1. rewrite H0, H1. reflexivity.
Qed.

(** The drawing state after [applyStyles] for a shape tool. *)
Lemma applyStyles_shape {N : JsNumber} (g : Settings) (c : Ctx.Context2D) :
  isShape (tool g) = true -> 0 < lineWidth g -> 0 <= opacity g <= 1 ->
  applyStyles g c = Ctx.with_style (shapeStyle g (Ctx.style c)) c.
Proof.
  intros Ht Hw Ho. unfold applyStyles. cbv zeta.
  rewrite (set_lineWidth_positive _ _ Hw), (set_globalAlpha_valid _ _ Ho).
  unfold shapeStyle.
  destruct (tool g); try discriminate Ht; destruct (lineStyle g), c; reflexivity.
Qed.

Lemma shapeStyle_again {N : JsNumber} (g : Settings) (st : Ctx.Style) :
  shapeStyle g (shapeStyle g st) = shapeStyle g st.
Proof. reflexivity. Qed.

(** A rejected alpha leaves the context as it is, an accepted one is
    overwritten by the next assignment: either way the opacity of the
    settings is the alpha after the fill. *)
Lemma alpha_restored {B : Ctx.Browser} (a o : Q) (sh : Ctx.Shape) (c : Ctx.Context2D) :
  0 <= o <= 1 -> Ctx.globalAlpha (Ctx.style c) = o ->
  Ctx.style (Ctx.set_globalAlpha o (Ctx.paint sh (Ctx.set_globalAlpha a c))) = Ctx.style c.
Proof.
  intros Ho Ha. rewrite (set_globalAlpha_valid _ _ Ho). cbv zeta.
  unfold Ctx.set_globalAlpha. cbv zeta.
  destruct (Qle_bool 0 a && Qle_bool a 1);
    cbn [Ctx.paint Ctx.with_style Ctx.style Ctx.strokeStyle Ctx.fillStyle Ctx.lineWidth
         Ctx.lineCap Ctx.lineJoin Ctx.globalAlpha Ctx.lineDash
         Ctx.globalCompositeOperation Ctx.font Ctx.textAlign Ctx.textBaseline
         Ctx.shadowColor Ctx.shadowBlur];
    rewrite <- Ha; destruct c as [b [] sv p tr]; reflexivity.
Qed.

Lemma style_paint {B : Ctx.Browser} (sh : Ctx.Shape) (c : Ctx.Context2D) :
  Ctx.style (Ctx.paint sh c) = Ctx.style c.
Proof. reflexivity. Qed.

Lemma style_with_path (p : list Ctx.PathCmd) (c : Ctx.Context2D) :
  Ctx.style (Ctx.with_path p c) = Ctx.style c.
Proof. reflexivity. Qed.

(** A preview leaves the drawing state [applyStyles] set. *)
Lemma drawMove_shape_style {N : JsNumber} {B : Ctx.Browser} (g : Settings)
    (start : Point) (snap : ImageData) (x y : Q) (c : Ctx.Context2D) :
  isShape (tool g) = true -> 0 < lineWidth g -> 0 <= opacity g <= 1 ->
  Ctx.style (drawMove g start snap x y c) = shapeStyle g (Ctx.style c).
Proof.
  intros Ht Hw Ho. unfold drawMove. cbv zeta.
  destruct (tool g) eqn:Et; try discriminate Ht;
    rewrite (applyStyles_shape g _ ltac:(rewrite Et; reflexivity) Hw Ho).
  - reflexivity.
  - reflexivity.
  - destruct (isFilled g); [|reflexivity].
    unfold Ctx.strokeRect, Ctx.fillRect. rewrite style_paint.
    rewrite (alpha_restored _ _ _ _ Ho); reflexivity.
  - destruct (isFilled g); [|reflexivity].
    unfold Ctx.stroke, Ctx.fill. rewrite style_paint.
    rewrite (alpha_restored _ _ _ _ Ho); reflexivity.
Qed.

(** The preview of a shape depends on the context it is drawn on only
    through the part of the drawing state [applyStyles] leaves alone. *)
Lemma drawMove_shape_alike {N : JsNumber} {B : Ctx.Browser} (g : Settings)
    (start : Point) (snap : ImageData) (x y : Q) (c c' : Ctx.Context2D) :
  isShape (tool g) = true -> 0 < lineWidth g -> 0 <= opacity g <= 1 ->
  shapeStyle g (Ctx.style c) = shapeStyle g (Ctx.style c') ->
  alike (drawMove g start snap x y c) (drawMove g start snap x y c').
Proof.
  intros Ht Hw Ho Hs. unfold drawMove. cbv zeta.
  assert (H0 : alike (applyStyles g (Ctx.beginPath (Ctx.putImageData snap c)))
                     (applyStyles g (Ctx.beginPath (Ctx.putImageData snap c')))).
  { rewrite !(applyStyles_shape g _ Ht Hw Ho). unfold alike.
    cbn [Ctx.with_style Ctx.beginPath Ctx.putImageData Ctx.with_path Ctx.with_bitmap
         Ctx.bitmap Ctx.style Ctx.path].
    rewrite Hs. repeat split. }
  destruct (tool g); try discriminate Ht.
  - apply alike_drawTHeads. repeat alike_step. exact H0.
  - apply alike_drawArrow. exact H0.
  - destruct (isFilled g); repeat alike_step; exact H0.
  - destruct (isFilled g); repeat alike_step; exact H0.
Qed.

(** The pointer-down that starts a drawing gesture. *)
Lemma handleMouseDown_draws {N : JsNumber} {B : Ctx.Browser} (e0 : MouseEvent)
    (s : State) (c : Ctx.Context2D) :
  tool (settings s) <> Pan -> tool (settings s) <> Text -> button e0 <> 1%Z ->
  ctx s = Some c -> canvasRef s = true -> isVisible (textInput s) = false ->
  handleMouseDown e0 s =
    let p := getPos e0 s in
    s ;> setIsDrawing true
      ;> setStartPos (Some p)
      ;> setSnapshot (Some (Ctx.getImageData c))
      ;> setCtx (Some (c ;> Ctx.beginPath
                         ;> applyStyles (settings s)
                         ;> Ctx.moveTo (pt_x p) (pt_y p))).
Proof.
  intros Hp Ht Hb Hc Hr Hv. unfold handleMouseDown.
  destruct (Tool_eqb (tool (settings s)) Pan) eqn:E1;
    [apply Tool_eqb_eq in E1; contradiction|].
  destruct (Z.eqb_spec (button e0) 1) as [E2 | _]; [contradiction|].
  cbn [orb]. rewrite Hc, Hr, Hv. cbn [negb].
  destruct (Tool_eqb (tool (settings s)) Text) eqn:E3;
    [apply Tool_eqb_eq in E3; contradiction|].
  reflexivity.
Qed.

(** A pointer-move of a drawing gesture in progress. *)
Lemma handleMouseMove_draws {N : JsNumber} {B : Ctx.Browser} (e : MouseEvent)
    (s : State) (c : Ctx.Context2D) (start : Point) (snap : ImageData) :
  isPanning (view s) = false -> isDrawing s = true -> ctx s = Some c ->
  canvasRef s = true -> startPos s = Some start -> snapshot s = Some snap ->
  handleMouseMove e s =
    setCtx (Some (drawMove (settings s) start snap (pt_x (getPos e s)) (pt_y (getPos e s)) c)) s.
Proof.
  intros Hp Hd Hc Hr Hs Hn. unfold handleMouseMove. cbv zeta.
  rewrite Hp, Hd, Hc, Hr, Hs, Hn. reflexivity.
Qed.

Lemma shape_not_pan_text (t : Tool) : isShape t = true -> t <> Pan /\ t <> Text.
Proof. destruct t; intros H; try discriminate H; split; discriminate. Qed.

Lemma setCtx_setCtx (a b : option Ctx.Context2D) (s : State) :
  setCtx a (setCtx b s) = setCtx a s.
Proof. reflexivity. Qed.

(** The moves of a shape gesture only replace the context, by one whose
    drawing state [applyStyles] maps to the same one. *)
Lemma shape_drag {N : JsNumber} {B : Ctx.Browser} (g : Settings) (down : State)
    (c : Ctx.Context2D) (start : Point) (snap : ImageData) (moves : list MouseEvent) :
  isShape (tool g) = true -> 0 < lineWidth g -> 0 <= opacity g <= 1 ->
  settings down = g -> isPanning (view down) = false -> isDrawing down = true ->
  canvasRef down = true -> startPos down = Some start -> snapshot down = Some snap ->
  forall ck, shapeStyle g (Ctx.style ck) = shapeStyle g (Ctx.style c) ->
    exists ck', drag moves (setCtx (Some ck) down) = setCtx (Some ck') down /\
                shapeStyle g (Ctx.style ck') = shapeStyle g (Ctx.style c).
Proof.
  intros Ht Hw Ho Hg Hp Hd Hr Hs Hn.
  induction moves as [| e moves IH]; intros ck Hk; [exists ck; split; [reflexivity | exact Hk]|].
  unfold drag. cbn [fold_left].
  rewrite (handleMouseMove_draws e (setCtx (Some ck) down) ck start snap Hp Hd eq_refl Hr Hs Hn).
  rewrite setCtx_setCtx. change (settings (setCtx (Some ck) down)) with (settings down).
  rewrite Hg. apply IH.
  rewrite (drawMove_shape_style g start snap _ _ ck Ht Hw Ho), shapeStyle_again. exact Hk.
Qed.

(** X8 - Shape preview.  While the ruler, the arrow, the rectangle or the
    circle is dragged, with a line width and an opacity the context accepts,
    the surface after any pointer-move is the surface of the pointer-down
    with one shape drawn on it, from the point of the pointer-down to the
    current point: the previews of the moves in between leave nothing
    behind. *)
Theorem shape_preview {N : JsNumber} {B : Ctx.Browser} (e0 e : MouseEvent)
    (moves : list MouseEvent) (s : State) (c : Ctx.Context2D) :
  isShape (tool (settings s)) = true ->
  0 < lineWidth (settings s) -> 0 <= opacity (settings s) <= 1 ->
  ctx s = Some c -> canvasRef s = true ->
  isVisible (textInput s) = false -> isPanning (view s) = false -> button e0 <> 1%Z ->
  let p := getPos e s in
  surface (handleMouseMove e (drag moves (handleMouseDown e0 s)))
  = Some (Ctx.bitmap (drawMove (settings s) (getPos e0 s) (Ctx.bitmap c)
                        (pt_x p) (pt_y p) c)).
Proof.
  intros Ht Hw Ho Hc Hr Hv Hp Hb. cbv zeta.
  destruct (shape_not_pan_text _ Ht) as [Hnp Hnt].
  rewrite (handleMouseDown_draws e0 s c Hnp Hnt Hb Hc Hr Hv). cbv zeta.
  set (c0 := Ctx.moveTo _ _ _).
  set (down := setSnapshot _ _).
  assert (H0 : shapeStyle (settings s) (Ctx.style c0) = shapeStyle (settings s) (Ctx.style c)).
  { unfold c0. unfold Ctx.moveTo. rewrite style_with_path.
    rewrite (applyStyles_shape _ _ Ht Hw Ho). reflexivity. }
  destruct (shape_drag (settings s) down c (getPos e0 s) (Ctx.bitmap c) moves Ht Hw Ho
              eq_refl Hp eq_refl Hr eq_refl eq_refl c0 H0) as (ck & Ek & Hk).
  rewrite Ek.
  rewrite (handleMouseMove_draws e (setCtx (Some ck) down) ck (getPos e0 s) (Ctx.bitmap c)
             Hp eq_refl eq_refl Hr eq_refl eq_refl).
  unfold surface. cbn [ctx setCtx option_map]. f_equal.
  change (settings (setCtx (Some ck) down)) with (settings s).
  change (getPos e (setCtx (Some ck) down)) with (getPos e s).
  apply (drawMove_shape_alike (settings s) (getPos e0 s) (Ctx.bitmap c) _ _ ck c Ht Hw Ho Hk).
Qed.

Lemma shape_preview_witness :
  surface (handleMouseMove (N := exactNumber) (B := boxBrowser) panTo
             (drag (N := exactNumber) (B := boxBrowser) [rulerUp; sampleMouse]
                (handleMouseDown (N := exactNumber) (B := boxBrowser) rulerDown rectSession)))
  = surface (handleMouseMove (N := exactNumber) (B := boxBrowser) panTo
               (handleMouseDown (N := exactNumber) (B := boxBrowser) rulerDown rectSession)).
Proof.
  assert (Hw : 0 < lineWidth (settings rectSession)) by (vm_compute; reflexivity).
  assert (Ho : 0 <= opacity (settings rectSession) <= 1)
    by (split; apply Qle_bool_imp_le; vm_compute; reflexivity).
  assert (Hb : button rulerDown <> 1%Z) by (vm_compute; discriminate).
  etransitivity.
  - exact (shape_preview (N := exactNumber) (B := boxBrowser) rulerDown panTo
             [rulerUp; sampleMouse] rectSession loadedContext
             eq_refl Hw Ho eq_refl eq_refl eq_refl eq_refl Hb).
  - symmetry.
    exact (shape_preview (N := exactNumber) (B := boxBrowser) rulerDown panTo
             [] rectSession loadedContext
             eq_refl Hw Ho eq_refl eq_refl eq_refl eq_refl Hb).
Defined.

(** ** A gesture is one undo step *)

(** The moves of a drawing gesture only replace the context. *)
Lemma drawing_drag {N : JsNumber} {B : Ctx.Browser} (down : State) (start : Point)
    (snap : ImageData) (moves : list MouseEvent) :
  isPanning (view down) = false -> isDrawing down = true ->
  canvasRef down = true -> startPos down = Some start -> snapshot down = Some snap ->
  forall ck, exists ck', drag moves (setCtx (Some ck) down) = setCtx (Some ck') down.
Proof.
  intros Hp Hd Hr Hs Hn.
  induction moves as [| e moves IH]; intros ck; [exists ck; reflexivity|].
  unfold drag. cbn [fold_left].
  rewrite (handleMouseMove_draws e (setCtx (Some ck) down) ck start snap Hp Hd eq_refl Hr Hs Hn).
  rewrite setCtx_setCtx. apply IH.
Qed.

Lemma setCtx_ctx (s : State) (c : Ctx.Context2D) : ctx s = Some c -> setCtx (Some c) s = s.
Proof. intros H. destruct s; cbn in *; subst; reflexivity. Qed.

(** X9 - One gesture, one undo step.  On a session whose surface is the
    newest history entry, a gesture with the pen, the highlighter, the
    eraser, the arrow, the rectangle or the circle (pointer-down, any moves,
    pointer-up) ends the drawing, puts exactly one snapshot on the history,
    the surface it leaves (the oldest entry dropped at 20), and empties the
    redo stack; one undo then shows the surface from before the gesture, and
    a redo after it restores the session after the gesture. *)
Theorem gesture_undo {N : JsNumber} {B : Ctx.Browser} (e0 e1 : MouseEvent)
    (moves : list MouseEvent) (s : State) (c : Ctx.Context2D) :
  commitsOnUp (tool (settings s)) = true ->
  synced s c -> isVisible (textInput s) = false -> isPanning (view s) = false ->
  button e0 <> 1%Z ->
  let s' := gesture e0 moves e1 s in
  isDrawing s' = false /\
  (exists c', ctx s' = Some c' /\ history s' = pushed (history s) (Ctx.bitmap c')) /\
  redoStack s' = [] /\
  surface (handleUndo s') = Some (Ctx.bitmap c) /\
  handleRedo (handleUndo s') = s'.
Proof.
  intros Ht Hs Hv Hp Hb. cbv zeta. unfold gesture.
  pose proof Hs as (Hc & Hr & Hh & Hl).
  assert (Hnp : tool (settings s) <> Pan) by (intros E; rewrite E in Ht; discriminate).
  assert (Hnt : tool (settings s) <> Text) by (intros E; rewrite E in Ht; discriminate).
  rewrite (handleMouseDown_draws e0 s c Hnp Hnt Hb Hc Hr Hv). cbv zeta.
  set (c0 := Ctx.moveTo _ _ _).
  set (down := setSnapshot _ _).
  destruct (drawing_drag down (getPos e0 s) (Ctx.bitmap c) moves Hp eq_refl Hr
              eq_refl eq_refl c0) as (ck & Ek).
  rewrite Ek.
  set (base := setCtx (Some c) (setIsDrawing false down)).
  assert (Hbase : synced base c) by (repeat split; assumption).
  assert (Eup : exists f, handleMouseUp e1 (setCtx (Some ck) down) = commitAction f base).
  { unfold handleMouseUp.
    change (isPanning (view (setCtx (Some ck) down))) with (isPanning (view s)).
    rewrite Hp.
    change (isDrawing (setCtx (Some ck) down)) with true.
    change (ctx (setCtx (Some ck) down)) with (Some ck).
    change (startPos (setCtx (Some ck) down)) with (Some (getPos e0 s)).
    cbv zeta.
    change (tool (settings (setIsDrawing false (setCtx (Some ck) down))))
      with (tool (settings s)).
    destruct (tool (settings s)); try discriminate Ht.
    - exists (fun _ => Ctx.closePath ck). reflexivity.
    - exists (fun _ => Ctx.closePath ck). reflexivity.
    - exists (fun _ => ck). reflexivity.
    - exists (fun _ => ck). reflexivity.
    - exists (fun _ => ck). reflexivity.
    - exists (fun _ => Ctx.closePath ck). reflexivity. }
  destruct Eup as (f & Eup). rewrite Eup.
  destruct (commit_history f base c Hbase) as (Hc1 & Hr1 & H2 & _).
  split.
  { unfold commitAction. rewrite (saveState_isDrawing (drawOn f base)).
    unfold drawOn. rewrite (proj1 Hbase). reflexivity. }
  split.
  { exists (f c). split; [exact Hc1|].
    unfold commitAction. unfold pushed.
    rewrite (saveState_history (drawOn f base) (f c)); [reflexivity | reflexivity | exact Hr]. }
  split; [exact Hr1|].
  split; [apply (undo_of_commit f base c Hbase)|].
  apply (redo_of_undo _ (f c) (synced_commit f base c Hbase) H2).
Qed.

Lemma gesture_undo_witness :
  let s' := gesture (N := exactNumber) (B := boxBrowser) rulerDown [rulerUp; sampleMouse]
              panTo arrowSession in
  isDrawing s' = false /\ redoStack s' = [] /\
  surface (handleUndo s') = surface arrowSession /\
  handleRedo (handleUndo s') = s'.
Proof.
  assert (Hb : button rulerDown <> 1%Z) by (vm_compute; discriminate).
  assert (Hs : synced arrowSession paintedContext).
  { unfold synced. split; [|split; [|split]]; vm_compute; try reflexivity. discriminate. }
  destruct (gesture_undo (N := exactNumber) (B := boxBrowser) rulerDown panTo
              [rulerUp; sampleMouse] arrowSession paintedContext
              eq_refl Hs eq_refl eq_refl Hb) as (H1 & _ & H3 & H4 & H5).
  cbv zeta. split; [exact H1|]. split; [exact H3|]. split; [|exact H5].
  rewrite H4. vm_compute. reflexivity.
Defined.

(** ** What the controls can reach *)

Ltac split_matches :=
  repeat match goal with
         | |- context [match ?x with _ => _ end] => destruct x
         end.

Ltac through_setters :=
  cbn [settings history redoStack setTextInput setCtx setView setHistory setRedoStack
       setIsDrawing setStartPos setSnapshot setZoom setPan setIsPanning setLastPanPoint
       setDimensions setSettings setDescription].

Lemma saveState_settings (s : State) : settings (saveState s) = settings s.
Proof. unfold saveState. destruct (ctx s); [destruct (canvasRef s)|]; reflexivity. Qed.

Section Frames.
Context {N : JsNumber} {B : Ctx.Browser}.

Lemma commitText_settings (s : State) : settings (commitText s) = settings s.
Proof.
  unfold commitText. cbv zeta.
  split_matches; through_setters; rewrite ?saveState_settings; reflexivity.
Qed.

Lemma interact_settings (i : Interaction) (s : State) :
  settings (interact s i) = settings s.
Proof.
  destruct i as [delta | [e | e | e | e | e]]; cbn [interact containerHandler].
  - reflexivity.
  - unfold handleWheel. split_matches; reflexivity.
  - unfold handleMouseDown.
    split_matches; through_setters; rewrite ?commitText_settings; reflexivity.
  - unfold handleMouseMove. cbv zeta. split_matches; reflexivity.
  - unfold handleMouseUp. cbv zeta.
    split_matches; through_setters; rewrite ?saveState_settings; reflexivity.
  - unfold handleMouseUp. cbv zeta.
    split_matches; through_setters; rewrite ?saveState_settings; reflexivity.
Qed.

Lemma ui_settings (e : UiEvent) (s : State) :
  (forall t, e <> onToolbar t) -> settings (ui s e) = settings s.
Proof.
  intros Ht. destruct e; cbn [ui].
  - exfalso. apply (Ht e). reflexivity.
  - apply interact_settings.
  - unfold resetView. split_matches; reflexivity.
  - unfold handleUndo. cbv zeta. split_matches; reflexivity.
  - unfold handleRedo. split_matches; reflexivity.
  - unfold clearCanvas. split_matches; through_setters; rewrite ?saveState_settings; reflexivity.
  - split_matches; reflexivity.
  - unfold handleInputKeyDown. cbv zeta.
    split_matches; through_setters; rewrite ?commitText_settings, ?saveState_settings;
      reflexivity.
  - split_matches; through_setters; rewrite ?commitText_settings; reflexivity.
  - reflexivity.
Qed.

End Frames.

Lemma offered_toolbar (e : ToolbarEvent) (s : State) :
  offered (settings s) -> offered (settings (toolbar e s)).
Proof.
  intros (Ho & Hw & Hl & Hc). destruct e; cbn [toolbar].
  - repeat split; assumption.
  - destruct (nth_error swatches i) as [c |] eqn:E; [|repeat split; assumption].
    repeat split; try assumption. apply (nth_error_In _ _ E).
  - repeat split; try assumption.
    exists (rangeValue 1 25 v). split; [unfold rangeValue; lia | reflexivity].
  - repeat split; try assumption. discriminate.
  - repeat split; try assumption. discriminate.
  - repeat split; assumption.
Qed.

(** X10 - Reachable settings.  Whatever the user does (tool buttons,
    swatches, width slider, line style and fill buttons, zoom, pointer and
    wheel events on the container, reset, undo, redo, clear, typing in the
    text overlay or in the description), the settings stay among those the
    controls offer: the opacity stays 1 (no control sets it), the line width
    a whole number from 1 to 25, the line style is never dotted (it has no
    button) and the colour is one of the seven swatches; and only the
    toolbar changes the settings at all. *)
Theorem settings_offered {N : JsNumber} {B : Ctx.Browser} (evs : list UiEvent)
    (s : State) :
  offered (settings s) ->
  offered (settings (fold_left ui evs s)) /\
  (forall e, (forall t, e <> onToolbar t) -> settings (ui s e) = settings s).
Proof.
  intros H. split; [|intros e He; apply ui_settings; exact He].
  revert s H. induction evs as [| e evs IH]; intros s H; [exact H|].
  cbn [fold_left]. apply IH.
  destruct e as [t | | | | | | | | |];
    try (rewrite ui_settings by discriminate; exact H).
  apply offered_toolbar. exact H.
Qed.

Lemma settings_offered_witness :
  offered (settings (fold_left (ui (N := exactNumber) (B := boxBrowser)) sampleEvents loaded)).
Proof.
  apply (settings_offered (N := exactNumber) (B := boxBrowser) sampleEvents loaded).
  split; [reflexivity|]. split; [exists 3%Z; split; [lia | reflexivity]|].
  split; [discriminate|]. left. reflexivity.
Defined.

(** ** The history under every event *)

Section Bounded.
Context {N : JsNumber} {B : Ctx.Browser}.

Lemma bounded_commitText (s : State) : bounded s -> bounded (commitText s).
Proof.
  intros Hb. unfold commitText. cbv zeta.
  split_matches;
    first [ exact Hb
          | apply bounded_saveState; exact Hb
          | apply (bounded_saveState (setCtx _ s)); exact Hb ].
Qed.

Lemma bounded_clearCanvas (s : State) : bounded s -> bounded (clearCanvas s).
Proof.
  intros Hb. unfold clearCanvas.
  split_matches; first [exact Hb | apply bounded_saveState; exact Hb].
Qed.

Lemma bounded_interact (i : Interaction) (s : State) :
  bounded s -> bounded (interact s i).
Proof.
  intros Hb.
  destruct i as [delta | [e | e | e | e | e]]; cbn [interact containerHandler].
  - exact Hb.
  - unfold handleWheel. split_matches; exact Hb.
  - unfold handleMouseDown.
    split_matches; first [exact Hb | apply bounded_commitText; exact Hb].
  - unfold handleMouseMove. cbv zeta. split_matches; exact Hb.
  - unfold handleMouseUp. cbv zeta.
    split_matches; first [exact Hb | apply bounded_saveState; exact Hb].
  - unfold handleMouseUp. cbv zeta.
    split_matches; first [exact Hb | apply bounded_saveState; exact Hb].
Qed.

Lemma bounded_ui (e : UiEvent) (s : State) : bounded s -> bounded (ui s e).
Proof.
  intros Hb. destruct e; cbn [ui].
  - destruct e; cbn [toolbar]; split_matches; exact Hb.
  - apply bounded_interact. exact Hb.
  - unfold resetView. split_matches; exact Hb.
  - apply bounded_undo. exact Hb.
  - apply bounded_redo. exact Hb.
  - apply bounded_clearCanvas. exact Hb.
  - split_matches; exact Hb.
  - unfold handleInputKeyDown. cbv zeta.
    split_matches;
      first [ exact Hb | apply bounded_commitText; exact Hb
            | apply bounded_saveState; exact Hb ].
  - split_matches; first [exact Hb | apply bounded_commitText; exact Hb].
  - exact Hb.
Qed.

End Bounded.

(** X11 - History bound under every event.  From a session with a
    history of 1 to 20 snapshots that, together with the redo stack, holds no
    more than 20 (as after the image load), whatever the user does, toolbar,
    pointer, wheel, text overlay, undo, redo, clear, the history keeps
    between 1 and 20 snapshots and the two stacks together no more than
    20. *)
Theorem events_keep_bound {N : JsNumber} {B : Ctx.Browser} (evs : list UiEvent)
    (s : State) :
  (1 <= List.length (history s))%nat ->
  (List.length (history s) + List.length (redoStack s) <= 20)%nat ->
  let s' := fold_left ui evs s in
  (1 <= List.length (history s') <= 20)%nat /\
  (List.length (history s') + List.length (redoStack s') <= 20)%nat.
Proof.
  intros H1 H2. cbv zeta.
  assert (Hb : bounded (fold_left ui evs s)).
  { assert (H : bounded s) by (split; assumption). clear H1 H2.
    revert s H. induction evs as [| e evs IH]; intros s H; [exact H|].
    cbn [fold_left]. apply IH. apply bounded_ui. exact H. }
  destruct Hb as [Ha Hb]. unfold maxDepth in Hb. lia.
Qed.

Lemma events_keep_bound_witness :
  let s' := fold_left (ui (N := exactNumber) (B := boxBrowser)) sampleEvents fullSession in
  (1 <= List.length (history s') <= 20)%nat /\
  (List.length (history s') + List.length (redoStack s') <= 20)%nat.
Proof.
  apply (events_keep_bound (N := exactNumber) (B := boxBrowser) sampleEvents fullSession);
    vm_compute; lia.
Defined.

(** ** The view after the image load *)

(** X12 - Image load.  The load handler acts only on a rendered canvas, and
    the canvas is rendered only when [dimensions.width > 0].  So on the first
    render, where the dimensions are 0 by 0 and there is no canvas, the load
    changes nothing at all.  When the image loads on a session whose canvas is
    rendered, at zoom 1, the canvas takes the size of the image with a blank
    surface that is the only history entry; the zoom is lowered, never raised,
    and in exact arithmetic the image as displayed is at most the container
    width less 40 pixels wide and at most 600 pixels high, is centred
    horizontally, at least 20 pixels from the left edge, and is centred
    vertically whenever it is not higher than the container.  Either way the
    canvas is rendered after the load exactly when the dimensions are not
    0. *)
Theorem onImageLoad_fits {N : JsNumber} (img : ImageData) (s : State) (cont : Container) :
  RoundsWithin N 0 ->
  container s = Some cont -> canvasRef s = canvasRendered s -> zoom (view s) == 1 ->
  (0 < width img)%nat -> (0 < height img)%nat ->
  let s' := onImageLoad img s in
  let W := inject_Z (Z.of_nat (width img)) in
  let H := inject_Z (Z.of_nat (height img)) in
  let z := zoom (view s') in
  let p := pan (view s') in
  canvasRef s' = canvasRendered s' /\
  (fst (dimensions s) = 0%nat -> s' = s) /\
  (fst (dimensions s) <> 0%nat ->
   dimensions s' = (width img, height img) /\
   surface s' = Some (blankImage (width img) (height img)) /\
   history s' = [blankImage (width img) (height img)] /\
   z <= 1 /\
   W * z <= clientWidth cont - 40 /\ H * z <= 600 /\
   2 * pt_x p + W * z == clientWidth cont /\ 20 <= pt_x p /\
   (H * z <= clientHeight cont -> 2 * pt_y p + H * z == clientHeight cont)).
Proof.
  intros R Hc Hm Hz Hw Hh. cbv zeta. unfold canvasRendered in Hm.
  destruct (Nat.eqb_spec (fst (dimensions s)) 0) as [E0 | E0]; cbn [negb] in Hm.
  { assert (E : onImageLoad img s = s).
    { unfold onImageLoad. rewrite Hc, Hm. reflexivity. }
    rewrite E. split; [|split; [reflexivity | contradiction]].
    unfold canvasRendered. rewrite Hm, E0. reflexivity. }
  assert (Hr : canvasRef s = true) by exact Hm. clear Hm.
  split.
  { unfold onImageLoad, canvasRendered. rewrite Hc, Hr. cbn [negb]. cbv zeta.
    match goal with |- context [if ?b then _ else _] => destruct b end;
      cbn [canvasRef dimensions setCtx setHistory setZoom setPan setView setDimensions fst];
      rewrite Hr; destruct (Nat.eqb_spec (width img) 0) as [E | _]; try reflexivity; lia. }
  split; [contradiction|]. intros _.
  unfold onImageLoad. rewrite Hc, Hr.
  cbn [negb]. cbv zeta.
  pose proof (inject_nat_pos _ Hw) as HW. pose proof (inject_nat_pos _ Hh) as HH.
  set (W := inject_Z (Z.of_nat (width img))) in *.
  set (H := inject_Z (Z.of_nat (height img))) in *.
  set (sf := Qmin ((clientWidth cont -! 40) /! W) (600 /! H)).
  assert (Ew : (clientWidth cont -! 40) /! W == (clientWidth cont - 40) / W).
  { rewrite (exact_div R) by lra. rewrite (exact_sub R). reflexivity. }
  assert (Eh : 600 /! H == 600 / H) by (apply (exact_div R); lra).
  assert (Mw : W * ((clientWidth cont - 40) / W) == clientWidth cont - 40) by (field; lra).
  assert (Mh : H * (600 / H) == 600) by (field; lra).
  assert (Hsw : sf <= (clientWidth cont - 40) / W).
  { rewrite <- Ew. apply Q.le_min_l. }
  assert (Hsh : sf <= 600 / H).
  { rewrite <- Eh. apply Q.le_min_r. }
  destruct (Qlt_le_dec sf 1) as [Hlt | Hge];
    (split; [reflexivity|]); (split; [reflexivity|]); (split; [reflexivity|]);
    cbn [view zoom pan setZoom setPan setView setCtx setHistory setDimensions pt_x pt_y].
  - assert (Hzw : W * sf <= clientWidth cont - 40).
    { rewrite <- Mw. apply Qmult_le_l; [exact HW | exact Hsw]. }
    assert (Hzh : H * sf <= 600).
    { rewrite <- Mh. apply Qmult_le_l; [exact HH | exact Hsh]. }
    assert (Ex : (clientWidth cont -! W *! sf) /! 2 == (clientWidth cont - W * sf) / 2).
    { rewrite (exact_div R) by lra. rewrite (exact_sub R), (exact_mul R). reflexivity. }
    assert (Ey : (clientHeight cont -! H *! sf) /! 2 == (clientHeight cont - H * sf) / 2).
    { rewrite (exact_div R) by lra. rewrite (exact_sub R), (exact_mul R). reflexivity. }
    split; [lra|]. split; [exact Hzw|]. split; [exact Hzh|].
    rewrite Ex, Ey. split; [field|]. split; [|intros _; field].
    apply Qle_shift_div_l; lra.
  - assert (H1w : 1 <= (clientWidth cont - 40) / W) by lra.
    assert (H1h : 1 <= 600 / H) by lra.
    assert (Hzw : W <= clientWidth cont - 40).
    { rewrite <- Mw. rewrite <- (Qmult_1_r W) at 1.
      apply Qmult_le_l; [exact HW | exact H1w]. }
    assert (Hzh : H <= 600).
    { rewrite <- Mh. rewrite <- (Qmult_1_r H) at 1.
      apply Qmult_le_l; [exact HH | exact H1h]. }
    assert (Ex : (clientWidth cont -! W) /! 2 == (clientWidth cont - W) / 2).
    { rewrite (exact_div R) by lra. rewrite (exact_sub R). reflexivity. }
    assert (Ey : (clientHeight cont -! H) /! 2 == (clientHeight cont - H) / 2).
    { rewrite (exact_div R) by lra. rewrite (exact_sub R). reflexivity. }
    rewrite Hz. split; [lra|]. split; [lra|]. split; [lra|].
    assert (Hx : 20 <= (clientWidth cont - W) / 2) by (apply Qle_shift_div_l; lra).
    destruct (Qlt_le_dec 0 ((clientWidth cont -! W) /! 2)) as [Hpx | Hpx];
      [|rewrite Ex in Hpx; lra].
    rewrite Ex. split; [field|]. split; [exact Hx|].
    intros Hfit.
    destruct (Qlt_le_dec 0 ((clientHeight cont -! H) /! 2)) as [Hpy | Hpy].
    + rewrite Ey. field.
    + rewrite Ey in Hpy.
      assert (Hy : (clientHeight cont - H) / 2 * 2 <= 0 * 2)
        by (apply Qmult_le_compat_r; lra).
      assert (Ey2 : (clientHeight cont - H) / 2 * 2 == clientHeight cont - H) by field.
      lra.
Qed.

Lemma onImageLoad_fits_witness :
  let first := firstRender sampleContainer sampleImage in
  let s' := onImageLoad (N := exactNumber) sampleImage mounted in
  onImageLoad (N := exactNumber) sampleImage first = first /\
  canvasRef first = false /\ dimensions first = (0, 0)%nat /\
  history s' = [blankImage 4 3] /\ zoom (view s') <= 1 /\ 20 <= pt_x (pan (view s')).
Proof.
  cbv zeta. split; [|split; [reflexivity|split; [reflexivity|]]].
  - destruct (onImageLoad_fits (N := exactNumber) sampleImage
                (firstRender sampleContainer sampleImage) sampleContainer
                exactNumber_exact eq_refl eq_refl) as (_ & H & _).
    + reflexivity.
    + vm_compute. lia.
    + vm_compute. lia.
    + apply H. reflexivity.
  - destruct (onImageLoad_fits (N := exactNumber) sampleImage mounted sampleContainer
                exactNumber_exact eq_refl eq_refl) as (_ & _ & H).
    + reflexivity.
    + vm_compute. lia.
    + vm_compute. lia.
    + destruct H as (_ & _ & H3 & H4 & _ & _ & _ & H8 & _); [vm_compute; discriminate|].
      split; [exact H3|]. split; [exact H4 | exact H8].
Defined.

(** ** The ruler and its label *)

Lemma saveState_setTextInput (t : TextInput) (s : State) :
  saveState (setTextInput t s) = setTextInput t (saveState s).
Proof.
  unfold saveState. cbn [ctx canvasRef setTextInput].
  destruct (ctx s); [destruct (canvasRef s)|]; reflexivity.
Qed.

Lemma handleUndo_setTextInput (t : TextInput) (s : State) :
  handleUndo (setTextInput t s) = setTextInput t (handleUndo s).
Proof.
  unfold handleUndo. cbv zeta. cbn [ctx history setTextInput].
  destruct (ctx s); [|reflexivity].
  destruct (List.length (history s) <=? 1)%nat; [reflexivity|].
  destruct (nth_error (history s) (List.length (history s) - 1)); [|reflexivity].
  destruct (nth_error (history s) (List.length (history s) - 2)); reflexivity.
Qed.

Lemma setTextInput_twice (a b : TextInput) (s : State) :
  setTextInput a (setTextInput b s) = setTextInput a s.
Proof. reflexivity. Qed.

Lemma setCtx_setTextInput (a : option Ctx.Context2D) (t : TextInput) (s : State) :
  setCtx a (setTextInput t s) = setTextInput t (setCtx a s).
Proof. reflexivity. Qed.

Lemma commitAction_over (f : Ctx.Context2D -> Ctx.Context2D) (c : Ctx.Context2D)
    (s : State) :
  commitAction f (setCtx (Some c) s) = saveState (setCtx (Some (f c)) s).
Proof. reflexivity. Qed.

(** X13 - The ruler and its label are one undo step.  A ruler gesture
    (pointer-down, any moves, pointer-up) on a session whose surface is the
    newest history entry commits nothing: it opens the overlay and leaves the
    history and the redo stack alone.  Whatever the label is edited to, Enter
    or Escape then closes the overlay and puts exactly one snapshot on the
    history, the line with or without its label, so that a single undo shows
    the surface from before the gesture; Escape leaves the surface as the
    gesture drew it. *)
Theorem ruler_one_step {N : JsNumber} {B : Ctx.Browser} (e0 e1 : MouseEvent)
    (moves : list MouseEvent) (s : State) (c : Ctx.Context2D) :
  tool (settings s) = Line ->
  synced s c -> isVisible (textInput s) = false -> isPanning (view s) = false ->
  button e0 <> 1%Z ->
  let s1 := gesture e0 moves e1 s in
  history s1 = history s /\ redoStack s1 = redoStack s /\
  isVisible (textInput s1) = true /\
  forall (v key : string), key = "Enter" \/ key = "Escape" ->
    let s2 := handleInputKeyDown key (handleTextChange v s1) in
    isVisible (textInput s2) = false /\
    (exists c', ctx s2 = Some c' /\ history s2 = pushed (history s) (Ctx.bitmap c')) /\
    redoStack s2 = [] /\
    surface (handleUndo s2) = Some (Ctx.bitmap c) /\
    (key = "Escape" -> surface s2 = surface s1).
Proof.
  intros Ht Hs Hv Hp Hb. cbv zeta. unfold gesture.
  pose proof Hs as (Hc & Hr & Hh & Hl).
  assert (Hnp : tool (settings s) <> Pan) by (rewrite Ht; discriminate).
  assert (Hnt : tool (settings s) <> Text) by (rewrite Ht; discriminate).
  rewrite (handleMouseDown_draws e0 s c Hnp Hnt Hb Hc Hr Hv). cbv zeta.
  set (c0 := Ctx.moveTo _ _ _).
  set (down := setSnapshot _ _).
  destruct (drawing_drag down (getPos e0 s) (Ctx.bitmap c) moves Hp eq_refl Hr
              eq_refl eq_refl c0) as (ck & Ek).
  rewrite Ek.
  set (base := setCtx (Some c) (setIsDrawing false down)).
  assert (Hbase : synced base c) by (repeat split; assumption).
  assert (Eup : exists t, isVisible t = true /\
            handleMouseUp e1 (setCtx (Some ck) down)
            = setTextInput t (setCtx (Some ck) (setIsDrawing false down))).
  { unfold handleMouseUp.
    change (isPanning (view (setCtx (Some ck) down))) with (isPanning (view s)).
    rewrite Hp.
    change (isDrawing (setCtx (Some ck) down)) with true.
    change (ctx (setCtx (Some ck) down)) with (Some ck).
    change (startPos (setCtx (Some ck) down)) with (Some (getPos e0 s)).
    cbv zeta.
    change (tool (settings (setIsDrawing false (setCtx (Some ck) down))))
      with (tool (settings s)).
    rewrite Ht. eexists. split; [|reflexivity]. reflexivity. }
  destruct Eup as (t & Htv & Eup). rewrite Eup.
  split; [reflexivity|]. split; [reflexivity|]. split; [exact Htv|].
  intros v key Hkey.
  assert (E2 : exists f t',
            isVisible t' = false /\
            handleInputKeyDown key
              (handleTextChange v (setTextInput t (setCtx (Some ck) (setIsDrawing false down))))
            = setTextInput t' (commitAction f base) /\
            (key = "Escape" -> f c = ck)).
  { unfold handleTextChange. cbv zeta. cbn [textInput setTextInput]. rewrite Htv.
    set (t1 := mkTextInput true (text_x t) (text_y t) v (rotation t)).
    set (x := setTextInput t1 _).
    destruct Hkey as [-> | ->]; unfold handleInputKeyDown.
    - change (String.eqb "Enter" "Enter") with true. cbv iota.
      unfold commitText. cbv zeta.
      change (ctx x) with (Some ck).
      change (isVisible (textInput x)) with true.
      change (value (textInput x)) with v.
      change (tool (settings x)) with (tool (settings s)). rewrite Ht.
      cbn [negb orb Tool_eqb].
      destruct (truthy (trim v)); cbn [negb].
      + match goal with |- context [setCtx (Some ?cc) x] => set (cd := cc) end.
        exists (fun _ => cd), (mkTextInput false (text_x t) (text_y t) "" (rotation t)).
        split; [reflexivity|]. split; [|discriminate].
        unfold x, base.
        rewrite setTextInput_twice, setCtx_setTextInput, setCtx_setCtx,
          saveState_setTextInput, setTextInput_twice, commitAction_over.
        reflexivity.
      + exists (fun _ => ck), (mkTextInput false (text_x t) (text_y t) v (rotation t)).
        split; [reflexivity|]. split; [|reflexivity].
        unfold x, base.
        rewrite !setTextInput_twice, saveState_setTextInput, commitAction_over.
        reflexivity.
    - change (String.eqb "Escape" "Enter") with false.
      change (String.eqb "Escape" "Escape") with true. cbv iota. cbv zeta.
      change (tool (settings x)) with (tool (settings s)). rewrite Ht.
      cbn [Tool_eqb].
      exists (fun _ => ck), (mkTextInput false (text_x t) (text_y t) v (rotation t)).
      split; [reflexivity|]. split; [|reflexivity].
      unfold x, base.
      rewrite !setTextInput_twice, saveState_setTextInput, commitAction_over.
      reflexivity. }
  destruct E2 as (f & t' & Ht' & E2 & Hesc). cbv zeta. rewrite E2.
  destruct (commit_history f base c Hbase) as (Hc1 & Hr1 & H2 & _).
  split; [exact Ht'|]. split.
  { exists (f c). split; [exact Hc1|].
    cbn [history setTextInput]. unfold commitAction, pushed.
    rewrite (saveState_history (drawOn f base) (f c)); [reflexivity | | exact Hr].
    unfold drawOn. rewrite (proj1 Hbase). reflexivity. }
  split; [exact Hr1|]. split.
  { rewrite handleUndo_setTextInput.
    change (surface (setTextInput t' (handleUndo (commitAction f base))))
      with (surface (handleUndo (commitAction f base))).
    apply (undo_of_commit f base c Hbase). }
  intros Hk. unfold surface. cbn [ctx setTextInput setCtx]. rewrite Hc1, (Hesc Hk).
  reflexivity.
Qed.

Lemma ruler_one_step_witness :
  let s1 := gesture (N := exactNumber) (B := boxBrowser) rulerDown [sampleMouse] rulerUp
              rulerSession in
  let s2 := handleInputKeyDown (N := exactNumber) (B := boxBrowser) "Enter"
              (handleTextChange "2 cm" s1) in
  history s1 = history rulerSession /\
  surface (handleUndo s2) = surface rulerSession.
Proof.
  assert (Hb : button rulerDown <> 1%Z) by (vm_compute; discriminate).
  assert (Hs : synced rulerSession paintedContext).
  { unfold synced. split; [|split; [|split]]; vm_compute; try reflexivity. discriminate. }
  destruct (ruler_one_step (N := exactNumber) (B := boxBrowser) rulerDown rulerUp
              [sampleMouse] rulerSession paintedContext
              eq_refl Hs eq_refl eq_refl Hb) as (H1 & _ & _ & H4).
  cbv zeta. split; [exact H1|].
  destruct (H4 "2 cm" "Enter" (or_introl eq_refl)) as (_ & _ & _ & H5 & _).
  rewrite H5. vm_compute. reflexivity.
Defined.

(** ** The layers of the export *)

Lemma over_on_transparent (p : Pixel) : pixel_eq (Ctx.over p transparent) p.
Proof. destruct p as [r g b a]. unfold pixel_eq, Ctx.over. cbn. repeat split; ring. Qed.

Lemma over_opaque (p d : Pixel) : chA p == 1 -> pixel_eq (Ctx.over p d) p.
Proof.
  intros Ha. destruct p as [r g b a], d as [r' g' b' a']. unfold pixel_eq, Ctx.over.
  cbn in *. rewrite Ha. repeat split; ring.
Qed.

Lemma pixel_eq_trans (p q r : Pixel) : pixel_eq p q -> pixel_eq q r -> pixel_eq p r.
Proof.
  intros (A1 & A2 & A3 & A4) (B1 & B2 & B3 & B4).
  repeat split; etransitivity; eassumption.
Qed.

(** X14 - Layers of the export.  In the buffer [handleSave] encodes, a
    pixel is the pixel of the bitmap of the canvas context, as the drawing
    left it, composited source-over on the pixel of the source image scaled to
    the canvas size: where the canvas is transparent (never drawn on, erased
    or cleared) the export shows the image, where the annotation is opaque it
    shows the annotation and hides the image. *)
Theorem export_layers {B : Ctx.Browser} (s : State) (c : Ctx.Context2D) (i : nat)
    (a m : Pixel) :
  let w := fst (dimensions s) in
  let h := snd (dimensions s) in
  ctx s = Some c ->
  (i < w * h)%nat ->
  nth_error (data (Ctx.bitmap c)) i = Some a ->
  nth_error (data (Ctx.resample w h (bgImage s))) i = Some m ->
  exists px,
    nth_error (data (exportBuffer s)) i = Some px /\
    px = Ctx.over a (Ctx.over m transparent) /\
    (pixel_eq a transparent -> pixel_eq px m) /\
    (chA a == 1 -> pixel_eq px a).
Proof.
  cbv zeta. intros Hc Hi Ha Hm.
  exists (Ctx.over a (Ctx.over m transparent)). split.
  - apply (exportBuffer_pixel s c i a m Hc Hi Ha Hm).
  - split; [reflexivity|]. split.
    + intros Ht. eapply pixel_eq_trans; [apply over_transparent; exact Ht|].
      apply over_on_transparent.
    + intros Ho. apply over_opaque. exact Ho.
Qed.

Lemma export_layers_witness :
  let grey := mkPixel (1 # 2) (1 # 2) (1 # 2) 1 in
  let red := mkPixel (239 # 255) (4 # 15) (4 # 15) 1 in
  (exists drawn px,
      nth_error (data (Ctx.bitmap (contextOf annotated))) 5 = Some drawn /\
      pixel_eq drawn red /\
      nth_error (data (exportBuffer (B := boxBrowser) annotated)) 5 = Some px /\
      pixel_eq px drawn) /\
  (exists px,
      nth_error (data (exportBuffer (B := boxBrowser) loaded)) 5 = Some px /\
      pixel_eq px grey).
Proof.
  cbv zeta. split.
  - destruct (export_layers (B := boxBrowser) annotated (contextOf annotated) 5
                (nth 5 (data (Ctx.bitmap (contextOf annotated))) transparent)
                (mkPixel (1 # 2) (1 # 2) (1 # 2) 1)) as (px & H1 & _ & _ & H4).
    + vm_compute. reflexivity.
    + vm_compute. lia.
    + vm_compute. reflexivity.
    + vm_compute. reflexivity.
    + exists (nth 5 (data (Ctx.bitmap (contextOf annotated))) transparent), px.
      split; [vm_compute; reflexivity|].
      split; [vm_compute; repeat split; reflexivity|].
      split; [exact H1|]. apply H4. vm_compute. reflexivity.
  - destruct (export_layers (B := boxBrowser) loaded (contextOf loaded) 5 transparent
                (mkPixel (1 # 2) (1 # 2) (1 # 2) 1)) as (px & H1 & _ & H3 & _).
    + vm_compute. reflexivity.
    + vm_compute. lia.
    + vm_compute. reflexivity.
    + vm_compute. reflexivity.
    + exists px. split; [exact H1|]. apply H3. repeat split; reflexivity.
Defined.

(** ** The highlighter *)






(** * Properties of the service and of the illustration view *)

Section Service.
Import Gemini.
Local Open Scope Z_scope.

(** ** Whole numbers as JS numbers *)

Lemma roundNearestEven_small (a : Z) : a <= 2 ^ 53 -> roundNearestEven a = a.
Proof.
  intros H. unfold roundNearestEven. apply Z.leb_le in H. rewrite H. reflexivity.
Qed.

Lemma toNumber_exact (z : Z) : - 2 ^ 53 <= z <= 2 ^ 53 -> toNumber z = z.
Proof.
  intros H. unfold toNumber. rewrite roundNearestEven_small by lia.
  rewrite Z.mul_comm. apply Z.abs_sgn.
Qed.

(** The binade of a number above 2^53. *)
Lemma ulp_binade (a : Z) :
  2 ^ 53 < a ->
  2 <= ulp a /\ 2 ^ 52 * ulp a <= a < 2 ^ 53 * ulp a /\
  2 ^ 52 <= a / ulp a < 2 ^ 53 /\ 0 <= a mod ulp a < ulp a /\
  a = a / ulp a * ulp a + a mod ulp a.
Proof.
  intros Ha. unfold ulp.
  assert (H0 : 0 < a) by lia.
  pose proof (Z.log2_spec a H0) as [Hl Hu].
  assert (He : 53 <= Z.log2 a).
  { apply Z.log2_le_pow2; lia. }
  set (e := Z.log2 a) in *.
  assert (E1 : 2 ^ e = 2 ^ 52 * 2 ^ (e - 52)).
  { rewrite <- Z.pow_add_r by lia. f_equal. lia. }
  assert (E2 : 2 ^ Z.succ e = 2 ^ 53 * 2 ^ (e - 52)).
  { rewrite <- Z.pow_add_r by lia. f_equal. lia. }
  assert (Hu2 : 2 <= 2 ^ (e - 52)).
  { change 2 with (2 ^ 1) at 1. apply Z.pow_le_mono_r; lia. }
  set (u := 2 ^ (e - 52)) in *.
  split; [exact Hu2|]. split; [lia|].
  split.
  - split.
    + apply Z.div_le_lower_bound; lia.
    + apply Z.div_lt_upper_bound; lia.
  - split; [apply Z.mod_pos_bound; lia|].
    rewrite Z.mul_comm. apply Z.div_mod. lia.
Qed.

(** The number rounded to lies between the two neighbours. *)
Lemma roundNearestEven_cases (a : Z) :
  2 ^ 53 < a ->
  roundNearestEven a = a / ulp a * ulp a \/
  (roundNearestEven a = (a / ulp a + 1) * ulp a /\ 0 < a mod ulp a).
Proof.
  intros Ha. destruct (ulp_binade a Ha) as (Hu & _ & _ & Hr & _).
  unfold roundNearestEven.
  destruct (Z.leb_spec a (2 ^ 53)); [lia|]. cbv zeta.
  destruct (Z.ltb_spec (2 * (a mod ulp a)) (ulp a)); [left; reflexivity|].
  destruct (Z.ltb_spec (ulp a) (2 * (a mod ulp a))); [right; split; [reflexivity | lia]|].
  destruct (Z.even (a / ulp a)); [left; reflexivity | right; split; [reflexivity | lia]].
Qed.

Lemma log2_binade (q e : Z) :
  53 <= e -> 2 ^ 52 <= q < 2 ^ 53 -> Z.log2 (q * 2 ^ (e - 52)) = e.
Proof.
  intros He Hq.
  assert (E1 : 2 ^ e = 2 ^ 52 * 2 ^ (e - 52)).
  { rewrite <- Z.pow_add_r by lia. f_equal. lia. }
  assert (E2 : 2 ^ Z.succ e = 2 ^ 53 * 2 ^ (e - 52)).
  { rewrite <- Z.pow_add_r by lia. f_equal. lia. }
  assert (Hu : 0 < 2 ^ (e - 52)) by (apply Z.pow_pos_nonneg; lia).
  apply Z.log2_unique; [lia|]. rewrite E1, E2. nia.
Qed.

(** A multiple of its own gap is a JS number. *)
Lemma roundNearestEven_multiple (a : Z) :
  2 ^ 53 < a -> a mod ulp a = 0 -> roundNearestEven a = a.
Proof.
  intros Ha Hm. destruct (ulp_binade a Ha) as (Hu & _ & _ & _ & E).
  unfold roundNearestEven.
  destruct (Z.leb_spec a (2 ^ 53)); [lia|]. cbv zeta. rewrite Hm.
  destruct (Z.ltb_spec (2 * 0) (ulp a)); lia.
Qed.

(** What a number above 2^53 rounds to: at least 2^53, and a multiple of its
    own gap. *)
Lemma roundNearestEven_number (a : Z) :
  2 ^ 53 < a ->
  2 ^ 53 <= roundNearestEven a /\
  (2 ^ 53 < roundNearestEven a -> roundNearestEven a mod ulp (roundNearestEven a) = 0).
Proof.
  intros Ha. destruct (ulp_binade a Ha) as (Hu & Hb & Hq & Hr & E).
  assert (H0 : 0 < a) by lia.
  assert (He : 53 <= Z.log2 a) by (apply Z.log2_le_pow2; lia).
  assert (Eu : ulp a = 2 ^ (Z.log2 a - 52)) by reflexivity.
  set (u := ulp a) in *. set (q := a / u) in *. set (e := Z.log2 a) in *.
  assert (Hlow : 2 ^ 53 <= q * u) by nia.
  assert (Eq : ulp (q * u) = u).
  { unfold ulp. rewrite Eu, log2_binade by lia. reflexivity. }
  destruct (roundNearestEven_cases a Ha) as [Er | [Er Hpos]]; fold u in Er; fold q in Er;
    rewrite Er.
  - split; [exact Hlow|]. intros _. rewrite Eq. apply Z.mod_mul. lia.
  - split; [nia|]. intros _.
    destruct (Z.eq_dec (q + 1) (2 ^ 53)) as [Ec | Ec].
    + assert (Ev : (q + 1) * u = 2 ^ 52 * 2 ^ (Z.succ e - 52)).
      { rewrite Ec, Eu.
        replace (Z.succ e - 52) with (1 + (e - 52)) by lia.
        rewrite Z.pow_add_r by lia. change (2 ^ 53) with (2 ^ 52 * 2 ^ 1). ring. }
      rewrite Ev. unfold ulp. rewrite log2_binade by lia. apply Z.mod_mul.
      assert (0 < 2 ^ (Z.succ e - 52)) by (apply Z.pow_pos_nonneg; lia). lia.
    + assert (Eq' : ulp ((q + 1) * u) = u).
      { unfold ulp. rewrite Eu, log2_binade by lia. reflexivity. }
      rewrite Eq'. apply Z.mod_mul. lia.
Qed.

Lemma roundNearestEven_idem (a : Z) :
  roundNearestEven (roundNearestEven a) = roundNearestEven a.
Proof.
  destruct (Z_le_gt_dec a (2 ^ 53)) as [H | H].
  - rewrite (roundNearestEven_small a H). apply roundNearestEven_small. exact H.
  - destruct (roundNearestEven_number a ltac:(lia)) as [H1 H2].
    destruct (Z_le_gt_dec (roundNearestEven a) (2 ^ 53)) as [H3 | H3].
    + apply roundNearestEven_small. exact H3.
    + apply roundNearestEven_multiple; [lia|]. apply H2. lia.
Qed.

Lemma roundNearestEven_pos (a : Z) : 0 < a -> 0 < roundNearestEven a.
Proof.
  intros Ha. destruct (Z_le_gt_dec a (2 ^ 53)) as [H | H].
  - rewrite roundNearestEven_small; assumption.
  - destruct (roundNearestEven_number a ltac:(lia)) as [H1 _]. lia.
Qed.

Lemma toNumber_idem (z : Z) : toNumber (toNumber z) = toNumber z.
Proof.
  unfold toNumber. destruct (Z.lt_trichotomy z 0) as [H | [H | H]].
  - pose proof (roundNearestEven_pos (Z.abs z) ltac:(lia)) as Hp.
    rewrite (Z.sgn_neg z H).
    rewrite Z.sgn_neg by lia.
    replace (Z.abs (-1 * roundNearestEven (Z.abs z))) with (roundNearestEven (Z.abs z)) by lia.
    rewrite roundNearestEven_idem. reflexivity.
  - subst z. reflexivity.
  - pose proof (roundNearestEven_pos (Z.abs z) ltac:(lia)) as Hp.
    rewrite (Z.sgn_pos z H).
    rewrite Z.sgn_pos by lia.
    replace (Z.abs (1 * roundNearestEven (Z.abs z))) with (roundNearestEven (Z.abs z)) by lia.
    rewrite roundNearestEven_idem. reflexivity.
Qed.

(** The sign of a number is the sign of what was rounded. *)
Lemma toNumber_sign (z : Z) :
  (0 < toNumber z <-> 0 < z) /\ (toNumber z < 0 <-> z < 0).
Proof.
  unfold toNumber. destruct (Z.lt_trichotomy z 0) as [H | [H | H]].
  - pose proof (roundNearestEven_pos (Z.abs z) ltac:(lia)) as Hp.
    rewrite (Z.sgn_neg z H). lia.
  - subst z. cbn. lia.
  - pose proof (roundNearestEven_pos (Z.abs z) ltac:(lia)) as Hp.
    rewrite (Z.sgn_pos z H). lia.
Qed.

(** One less than a JS number does not round above it. *)
Lemma roundNearestEven_pred (d : Z) :
  2 ^ 53 < d -> roundNearestEven d = d -> roundNearestEven (d - 1) <= d.
Proof.
  intros Hd Hfix.
  destruct (Z_le_gt_dec (d - 1) (2 ^ 53)) as [H | H].
  { rewrite roundNearestEven_small by exact H. lia. }
  assert (Ha : 2 ^ 53 < d - 1) by lia.
  destruct (roundNearestEven_number d Hd) as [_ Hmod].
  rewrite Hfix in Hmod. specialize (Hmod Hd).
  destruct (ulp_binade (d - 1) Ha) as (Hu & Hb & Hq & Hr & E).
  (* the gap of [d] is a multiple of the gap of [d - 1] *)
  assert (Hle : Z.log2 (d - 1) <= Z.log2 d) by (apply Z.log2_le_mono; lia).
  assert (He : 53 <= Z.log2 (d - 1)) by (apply Z.log2_le_pow2; lia).
  assert (Eu : ulp d = 2 ^ (Z.log2 d - Z.log2 (d - 1)) * ulp (d - 1)).
  { unfold ulp. rewrite <- Z.pow_add_r by lia. f_equal. lia. }
  assert (Hk : 0 < 2 ^ (Z.log2 d - Z.log2 (d - 1))) by (apply Z.pow_pos_nonneg; lia).
  assert (Hdiv : d = d / ulp d * 2 ^ (Z.log2 d - Z.log2 (d - 1)) * ulp (d - 1)).
  { assert (Hud : 0 < ulp d) by (rewrite Eu; nia).
    pose proof (Z.div_mod d (ulp d) ltac:(lia)) as Hdm. rewrite Hmod in Hdm.
    rewrite <- Z.mul_assoc, <- Eu. lia. }
  set (u := ulp (d - 1)) in *. set (m := d / ulp d * 2 ^ (Z.log2 d - Z.log2 (d - 1))) in *.
  assert (Hqm : (d - 1) / u < m).
  { apply Z.div_lt_upper_bound; [lia|]. nia. }
  destruct (roundNearestEven_cases (d - 1) Ha) as [Er | [Er _]]; fold u in Er; rewrite Er; nia.
Qed.

(** A counter less than 2 that is a JS number, incremented. *)
Lemma toNumber_succ (c : Z) :
  toNumber c = c -> c < 2 -> c <= toNumber (c + 1) <= 2.
Proof.
  intros Hc Hlt. destruct (Z_le_gt_dec (- 2 ^ 53) (c + 1)) as [H | H].
  - rewrite toNumber_exact by lia. lia.
  - assert (Hd : roundNearestEven (- c) = - c).
    { unfold toNumber in Hc. rewrite Z.sgn_neg in Hc by lia.
      replace (Z.abs c) with (- c) in Hc by lia. lia. }
    pose proof (roundNearestEven_pred (- c) ltac:(lia) Hd) as Hp.
    pose proof (roundNearestEven_pos (- c - 1) ltac:(lia)) as Hpos.
    unfold toNumber. rewrite Z.sgn_neg by lia.
    replace (Z.abs (c + 1)) with (- c - 1) by lia. lia.
Qed.

(** ** The quota *)

Lemma getUsageStats_month (m : string) (w : Window) : month (getUsageStats m w) = m.
Proof.
  unfold getUsageStats. destruct (endo_usage_stats w) as [p |]; [|reflexivity].
  destruct (String.eqb_spec (parsed_month p) m) as [E | _]; [exact E | reflexivity].
Qed.

(** The counters read are JS numbers. *)
Lemma getUsageStats_numbers (m : string) (w : Window) (k : UsageType) :
  toNumber (current k (getUsageStats m w)) = current k (getUsageStats m w).
Proof.
  unfold getUsageStats. destruct (endo_usage_stats w) as [p |]; [|destruct k; reflexivity].
  destruct (String.eqb (parsed_month p) m); [|destruct k; reflexivity].
  destruct k; cbn [current searchCount deepThinkCount imageGenCount];
    try apply toNumber_idem.
  destruct (parsed_imageGenCount p); [apply toNumber_idem | reflexivity].
Qed.

(** What is read back after [saveUsageStats] in the month of the stats. *)
Lemma getUsageStats_saved (stats : UsageStats) (w : Window) :
  getUsageStats (month stats) (saveUsageStats stats w)
  = mkStats (month stats) (toNumber (searchCount stats)) (toNumber (deepThinkCount stats))
      (toNumber (imageGenCount stats)).
Proof.
  unfold getUsageStats, saveUsageStats. cbn. rewrite String.eqb_refl. reflexivity.
Qed.

Lemma saveUsageStats_key (stats : UsageStats) (w : Window) :
  endo_custom_api_key (saveUsageStats stats w) = endo_custom_api_key w.
Proof. reflexivity. Qed.

(** One increment without a key of one's own. *)
Lemma incrementUsage_counts (m : string) (type : UsageType) (w : Window) :
  given (endo_custom_api_key w) = false ->
  let w' := incrementUsage m type w in
  given (endo_custom_api_key w') = false /\
  (forall k, current k (getUsageStats m w')
             = toNumber (current k (getUsageStats m w)
                         + match type, k with
                           | SEARCH, SEARCH | DEEP_THINK, DEEP_THINK
                           | IMAGE_GEN, IMAGE_GEN => 1
                           | _, _ => 0
                           end)) /\
  dispatched w' = (dispatched w ++ ["endo-usage-updated"])%list /\
  alerts w' = alerts w /\ API_KEY w' = API_KEY w.
Proof.
  intros Hk. cbv zeta. unfold incrementUsage. rewrite Hk. cbv zeta.
  split; [exact Hk|]. split; [|repeat split].
  intros k.
  pose proof (getUsageStats_month m w) as Hm.
  destruct type;
    match goal with
    | |- context [saveUsageStats ?st w] =>
        assert (E : getUsageStats m (saveUsageStats st w)
                    = mkStats (month st) (toNumber (searchCount st))
                        (toNumber (deepThinkCount st)) (toNumber (imageGenCount st)))
          by (rewrite <- Hm at 1; apply (getUsageStats_saved st w))
    end;
    rewrite E; destruct k; cbn [current searchCount deepThinkCount imageGenCount];
    rewrite ?Z.add_0_r, ?toNumber_idem; reflexivity.
Qed.






(** X17 - A new month resets the quota.  When the stored statistics are of
    another month than the current one, every type has its whole limit
    remaining, and the first use recorded without a key of one's own
    overwrites them: its counter is 1, the other two are 0, whatever they
    were.  An item stored without [imageGenCount] counts as 0 images. *)
Theorem month_rollover (currentMonth : string) (type : UsageType) (p : Parsed)
    (w : Window) :
  given (endo_custom_api_key w) = false ->
  endo_usage_stats w = Some p ->
  (parsed_month p <> currentMonth ->
   (forall k, remaining (checkUsageLimit currentMonth k w) = LIMITS k /\
              allowed (checkUsageLimit currentMonth k w) = true) /\
   (forall k, current k (getUsageStats currentMonth (incrementUsage currentMonth type w))
              = match type, k with
                | SEARCH, SEARCH | DEEP_THINK, DEEP_THINK | IMAGE_GEN, IMAGE_GEN => 1
                | _, _ => 0
                end)) /\
  (parsed_month p = currentMonth -> parsed_imageGenCount p = None ->
   remaining (checkUsageLimit currentMonth IMAGE_GEN w) = 2).
Proof.
  intros Hk Hp. split.
  - intros Hm.
    assert (E : getUsageStats currentMonth w = mkStats currentMonth 0 0 0).
    { unfold getUsageStats. rewrite Hp.
      destruct (String.eqb_spec (parsed_month p) currentMonth); [contradiction | reflexivity]. }
    split.
    + intros k. unfold checkUsageLimit. rewrite Hk, E. cbv zeta.
      destruct k; split; reflexivity.
    + intros k.
      destruct (incrementUsage_counts currentMonth type w Hk) as (_ & H2 & _).
      rewrite H2, E. destruct type, k; reflexivity.
  - intros Hm Hi. unfold checkUsageLimit, getUsageStats. rewrite Hk, Hp, Hm, Hi.
    rewrite String.eqb_refl. reflexivity.
Qed.

Lemma month_rollover_witness :
  let w := mkWindow (Some (mkParsed "2026-10" 15 5 (Some 2))) None (Some "k") [] [] in
  remaining (checkUsageLimit "2026-11" IMAGE_GEN w) = 2 /\
  current SEARCH (getUsageStats "2026-11" (incrementUsage "2026-11" IMAGE_GEN w)) = 0.
Proof.
  destruct (month_rollover "2026-11" IMAGE_GEN (mkParsed "2026-10" 15 5 (Some 2))
              (mkWindow (Some (mkParsed "2026-10" 15 5 (Some 2))) None (Some "k") [] [])
              eq_refl eq_refl) as [H _].
  destruct H as [H1 H2]; [discriminate|].
  cbv zeta. split; [exact (proj1 (H1 IMAGE_GEN)) | exact (H2 SEARCH)].
Defined.

(** ** Retries *)

(** [withRetry] issues at least one request and at most [retries + 1]. *)
Lemma withRetry_bound {T} (operation : Api T) (retries : nat) :
  forall (baseDelay : Z) (n : Net),
    (calls n < calls (snd (withRetry operation retries baseDelay n)) <= calls n + S retries)%nat.
Proof.
  induction retries as [| retries IH]; intros baseDelay n; cbn [withRetry].
  - destruct (operation (calls n)); cbn [snd calls]; lia.
  - destruct (operation (calls n)) as [v | e]; [cbn [snd calls]; lia|].
    destruct (isUnavailable e); [|cbn [snd calls]; lia].
    specialize (IH (baseDelay * 2) (mkNet (S (calls n)) (sleeps n ++ [baseDelay])%list)).
    cbn [calls sleeps] in *. lia.
Qed.

(** X18 - Retries.  [withRetry] issues between 1 and [retries + 1]
    requests and settles as the last of them did; every request before the
    last was rejected with an error that counts as unavailable (status 503 or
    429, or one of the four messages), the delays waited before the retries
    are [baseDelay], [2 baseDelay], [4 baseDelay] and so on, and a rejection
    is passed on only when the retries are used up or the error does not
    count as unavailable. *)
Theorem withRetry_settles {T} (operation : Api T) (retries : nat) :
  forall (baseDelay : Z) (n : Net),
    let r := fst (withRetry operation retries baseDelay n) in
    let n' := snd (withRetry operation retries baseDelay n) in
    exists k : nat,
      (k <= retries)%nat /\
      calls n' = (calls n + S k)%nat /\
      r = operation (calls n + k)%nat /\
      (forall i, (i < k)%nat ->
                 exists e, operation (calls n + i)%nat = Rejected e /\ isUnavailable e = true) /\
      sleeps n' = (sleeps n ++ map (fun i => baseDelay * 2 ^ Z.of_nat i) (seq 0 k))%list /\
      (forall e, r = Rejected e -> k = retries \/ isUnavailable e = false).
Proof.
  cbv zeta.
  induction retries as [| retries IH]; intros baseDelay n.
  - exists 0%nat. cbn [withRetry]. rewrite Nat.add_0_r.
    destruct (operation (calls n)) as [v | e] eqn:E; cbn [fst snd calls sleeps];
      (split; [lia|]); (split; [lia|]); (split; [reflexivity|]);
      (split; [intros i Hi; lia|]); (split; [cbn; rewrite app_nil_r; reflexivity|]);
      intros e' _; left; reflexivity.
  - cbn [withRetry].
    destruct (operation (calls n)) as [v | e] eqn:E.
    + exists 0%nat. rewrite Nat.add_0_r. cbn [fst snd calls sleeps].
      split; [lia|]. split; [lia|]. split; [symmetry; exact E|].
      split; [intros i Hi; lia|]. split; [cbn; rewrite app_nil_r; reflexivity|].
      intros e' He. discriminate He.
    + destruct (isUnavailable e) eqn:Eu.
      * destruct (IH (baseDelay * 2)
                    (mkNet (S (calls n)) (sleeps n ++ [baseDelay])%list))
          as (k & Hk & Hc & Hr & Hf & Hs & Hl).
        cbn [calls sleeps] in *.
        exists (S k). split; [lia|]. split; [rewrite Hc; lia|].
        split; [rewrite Hr; f_equal; lia|].
        split.
        { intros i Hi. destruct i as [| i].
          - exists e. rewrite Nat.add_0_r. split; [exact E | exact Eu].
          - destruct (Hf i ltac:(lia)) as (e' & He' & Hu').
            exists e'. split; [|exact Hu'].
            rewrite <- He'. f_equal. lia. }
        split.
        { rewrite Hs, <- app_assoc. f_equal. cbn [seq map app].
          f_equal; [cbn; lia|].
          rewrite <- seq_shift, map_map. apply map_ext. intros i.
          rewrite Nat2Z.inj_succ, Z.pow_succ_r by lia. lia. }
        intros e' He'. destruct (Hl e' He') as [-> | Hn]; [left; reflexivity | right; exact Hn].
      * exists 0%nat. rewrite Nat.add_0_r. cbn [fst snd calls sleeps].
        split; [lia|]. split; [lia|]. split; [symmetry; exact E|].
        split; [intros i Hi; lia|]. split; [cbn; rewrite app_nil_r; reflexivity|].
        intros e' He. right. congruence.
Qed.

Lemma withRetry_settles_witness :
  let request := mkRequest "gemini-2.5-flash-image" "heart" "3:4" in
  let n' := snd (withRetry (overloadedApi request) 2 1000 (mkNet 0 [])) in
  calls n' = 3%nat /\ sleeps n' = [1000; 2000].
Proof.
  cbv zeta.
  destruct (withRetry_settles (overloadedApi (mkRequest "gemini-2.5-flash-image" "heart" "3:4"))
              2 1000 (mkNet 0 [])) as (k & Hk & Hc & Hr & _ & Hs & Hl).
  cbv zeta in *.
  assert (E : k = 2%nat).
  { destruct (Hl _ Hr) as [E | E]; [exact E | vm_compute in E; discriminate E]. }
  subst k. split; [exact Hc | exact Hs].
Defined.

End Service.

(** ** The illustration request *)

Section Illustration.
Import Gemini.
Local Open Scope Z_scope.

Lemma getAiClient_cases (w : Window) :
  (given (endo_custom_api_key w) = false /\ given (API_KEY w) = false /\
   exists e, getAiClient w = Rejected e /\ message_includes e "API Key" = true) \/
  ((given (endo_custom_api_key w) = true \/ given (API_KEY w) = true) /\
   exists key, getAiClient w = Resolved key).
Proof.
  unfold getAiClient. cbv zeta.
  destruct (given (endo_custom_api_key w)) eqn:Eu.
  - right. split; [left; reflexivity|].
    destruct (endo_custom_api_key w) as [k |]; [|discriminate Eu].
    cbn [given] in Eu. rewrite Eu. exists k. reflexivity.
  - destruct (API_KEY w) as [k |]; cbn [given].
    + destruct (truthy k) eqn:Ek.
      * right. split; [right; reflexivity|]. exists k. reflexivity.
      * left. split; [reflexivity|]. split; [reflexivity|].
        eexists. split; [reflexivity|]. vm_compute. reflexivity.
    + left. split; [reflexivity|]. split; [reflexivity|].
      eexists. split; [reflexivity|]. vm_compute. reflexivity.
Qed.

Lemma incrementUsage_custom (m : string) (type : UsageType) (w : Window) :
  given (endo_custom_api_key w) = true -> incrementUsage m type w = w.
Proof. intros H. unfold incrementUsage. rewrite H. reflexivity. Qed.

(** What the view relies on: the bound on the requests, and the failure
    without a key. *)
Lemma illustration_facts (currentMonth : string)
    (generateContent : Request -> Api GenerateContentResponse)
    (prompt size : string) (x : World) :
  let r := fst (generateMedicalIllustration currentMonth generateContent prompt size x) in
  let x' := snd (generateMedicalIllustration currentMonth generateContent prompt size x) in
  (calls (net x) <= calls (net x') <= calls (net x) + 3)%nat /\
  (given (endo_custom_api_key (window x)) = false -> given (API_KEY (window x)) = false ->
   x' = x /\ exists e, r = Rejected e /\ message_includes e "API Key" = true).
Proof.
  cbv zeta. unfold generateMedicalIllustration.
  destruct (getAiClient_cases (window x)) as [(Hu & Hs & e & He & Hm) | (Hk & key & He)];
    rewrite He.
  - cbn [fst snd]. split; [lia|].
    intros _ _. split; [reflexivity|]. exists e. split; [reflexivity | exact Hm].
  - pose proof (withRetry_bound
                  (generateContent (mkRequest "gemini-2.5-flash-image" prompt "3:4"))
                  2 1000 (net x)) as Hb.
    destruct (withRetry _ 2 1000 (net x)) as [r n] eqn:Ew. cbn [snd] in Hb.
    assert (Hno : given (endo_custom_api_key (window x)) = false ->
                  given (API_KEY (window x)) = false -> False).
    { intros H1 H2. destruct Hk as [Hk | Hk]; congruence. }
    destruct r as [response | e];
      [destruct (firstInline _) as [d |]|]; cbn [fst snd window net];
      (split; [lia|]); intros H1 H2; destruct (Hno H1 H2).
Qed.

(** The use is recorded exactly when an image comes back. *)
Lemma illustration_usage (currentMonth : string)
    (generateContent : Request -> Api GenerateContentResponse)
    (prompt size : string) (x : World) :
  let r := fst (generateMedicalIllustration currentMonth generateContent prompt size x) in
  let x' := snd (generateMedicalIllustration currentMonth generateContent prompt size x) in
  (forall url, r = Resolved url ->
               window x' = incrementUsage currentMonth IMAGE_GEN (window x)) /\
  (forall e, r = Rejected e -> window x' = window x).
Proof.
  cbv zeta. unfold generateMedicalIllustration.
  destruct (getAiClient (window x)) as [key | e0].
  - destruct (withRetry _ 2 1000 (net x)) as [r n].
    destruct r as [response | e];
      [destruct (firstInline _) as [d |]|]; cbn [fst snd window];
      split; try reflexivity; intros ? H; discriminate H.
  - cbn [fst snd]. split; [intros ? H; discriminate H | reflexivity].
Qed.

(** With a key, at least one request is issued. *)
Lemma illustration_issued (currentMonth : string)
    (generateContent : Request -> Api GenerateContentResponse)
    (prompt size : string) (x : World) :
  given (endo_custom_api_key (window x)) = true \/ given (API_KEY (window x)) = true ->
  (calls (net x)
   < calls (net (snd (generateMedicalIllustration currentMonth generateContent prompt
                        size x))))%nat.
Proof.
  intros Hk. unfold generateMedicalIllustration.
  destruct (getAiClient_cases (window x)) as [(Hu & Hs & _) | (_ & key & He)].
  - destruct Hk; congruence.
  - rewrite He.
    pose proof (withRetry_bound
                  (generateContent (mkRequest "gemini-2.5-flash-image" prompt "3:4"))
                  2 1000 (net x)) as Hb.
    destruct (withRetry _ 2 1000 (net x)) as [r n]. cbn [snd] in Hb.
    destruct r as [response | e];
      [destruct (firstInline _) as [d |]|]; cbn [snd net]; lia.
Qed.

(** X19 - The illustration request.  [generateMedicalIllustration] never
    looks at the requested size: every size gives the same request and the
    same result.  It issues at most 3 requests; without any key it issues
    none, changes nothing and fails with a message that names the API key.
    The use is recorded exactly when an image comes back, a failure records
    nothing, and with a key of the user's own nothing is ever recorded. *)
Theorem illustration_request (currentMonth : string)
    (generateContent : Request -> Api GenerateContentResponse)
    (prompt size : string) (x : World) :
  let r := fst (generateMedicalIllustration currentMonth generateContent prompt size x) in
  let x' := snd (generateMedicalIllustration currentMonth generateContent prompt size x) in
  (forall size',
      generateMedicalIllustration currentMonth generateContent prompt size' x = (r, x')) /\
  (calls (net x) <= calls (net x') <= calls (net x) + 3)%nat /\
  (given (endo_custom_api_key (window x)) = false -> given (API_KEY (window x)) = false ->
   x' = x /\ exists e, r = Rejected e /\ message_includes e "API Key" = true) /\
  (forall url, r = Resolved url ->
               window x' = incrementUsage currentMonth IMAGE_GEN (window x)) /\
  (forall e, r = Rejected e -> window x' = window x) /\
  (given (endo_custom_api_key (window x)) = true -> window x' = window x).
Proof.
  cbv zeta. unfold generateMedicalIllustration.
  destruct (getAiClient_cases (window x)) as [(Hu & Hs & e & He & Hm) | (Hk & key & He)];
    rewrite He.
  - cbn [fst snd]. split; [reflexivity|]. split; [lia|].
    split; [intros _ _; split; [reflexivity|]; exists e; split; [reflexivity | exact Hm]|].
    split; [intros url H; discriminate H|]. split; [reflexivity|]. reflexivity.
  - pose proof (withRetry_bound
                  (generateContent (mkRequest "gemini-2.5-flash-image" prompt "3:4"))
                  2 1000 (net x)) as Hb.
    destruct (withRetry _ 2 1000 (net x)) as [r n] eqn:Ew. cbn [snd] in Hb.
    assert (Hno : given (endo_custom_api_key (window x)) = false ->
                  given (API_KEY (window x)) = false -> False).
    { intros H1 H2. destruct Hk as [Hk | Hk]; congruence. }
    destruct r as [response | e].
    + destruct (firstInline _) as [d |]; cbn [fst snd window net].
      * split; [reflexivity|]. split; [lia|].
        split; [intros H1 H2; destruct (Hno H1 H2)|].
        split; [reflexivity|]. split; [intros e H; discriminate H|].
        intros Hc. apply incrementUsage_custom. exact Hc.
      * split; [reflexivity|]. split; [lia|].
        split; [intros H1 H2; destruct (Hno H1 H2)|].
        split; [intros url H; discriminate H|]. split; reflexivity.
    + cbn [fst snd window net]. split; [reflexivity|]. split; [lia|].
      split; [intros H1 H2; destruct (Hno H1 H2)|].
      split; [intros url H; discriminate H|]. split; reflexivity.
Qed.

Lemma illustration_request_witness :
  generateMedicalIllustration "2026-11" imageApi "heart" "1K" freeWorld
  = generateMedicalIllustration "2026-11" imageApi "heart" "4K" freeWorld /\
  fst (generateMedicalIllustration "2026-11" imageApi "heart" "4K" freeWorld)
  = Resolved "data:image/png;base64,AAAA".
Proof.
  destruct (illustration_request "2026-11" imageApi "heart" "4K" freeWorld) as (H1 & _).
  cbv zeta in H1. split.
  - rewrite (H1 "1K"). apply surjective_pairing.
  - vm_compute. reflexivity.
Defined.

End Illustration.

(** ** The generate button *)

Section Generate.
Import Gemini.
Local Open Scope Z_scope.

Lemma deliver_none (m : string) (w : Window) (s : IllustrationView.State) :
  IllustrationView.deliver m w w s = s.
Proof.
  unfold IllustrationView.deliver. rewrite skipn_all. reflexivity.
Qed.

Lemma deliver_usage (m : string) (w w' : Window) (s : IllustrationView.State) :
  dispatched w' = (dispatched w ++ ["endo-usage-updated"])%list ->
  IllustrationView.deliver m w w' s = IllustrationView.refreshLimit m w' s.
Proof.
  intros H. unfold IllustrationView.deliver.
  rewrite H, skipn_app, skipn_all, Nat.sub_diag. reflexivity.
Qed.

(** The three ways a click goes. *)
Lemma handleGenerate_blocked_prompt (m : string)
    (api : Request -> Api GenerateContentResponse) (s : IllustrationView.State) (x : World) :
  truthy (IllustrationView.prompt s) = false ->
  IllustrationView.handleGenerate m api s x = (s, x).
Proof. intros H. unfold IllustrationView.handleGenerate. rewrite H. reflexivity. Qed.

Lemma handleGenerate_blocked_quota (m : string)
    (api : Request -> Api GenerateContentResponse) (s : IllustrationView.State) (x : World) :
  truthy (IllustrationView.prompt s) = true ->
  IllustrationView.isCustom (IllustrationView.limitState s) = false ->
  IllustrationView.remaining (IllustrationView.limitState s) <= 0 ->
  exists msg,
    IllustrationView.handleGenerate m api s x
    = (s, mkWorld (alert msg (window x)) (net x)).
Proof.
  intros Hp Hc Hr. unfold IllustrationView.handleGenerate. rewrite Hp, Hc.
  apply Z.leb_le in Hr. rewrite Hr. cbn [negb andb]. eexists. reflexivity.
Qed.

Lemma handleGenerate_runs (m : string)
    (api : Request -> Api GenerateContentResponse) (s : IllustrationView.State) (x : World) :
  truthy (IllustrationView.prompt s) = true ->
  IllustrationView.isCustom (IllustrationView.limitState s) = true
  \/ 0 < IllustrationView.remaining (IllustrationView.limitState s) ->
  let started := IllustrationView.setImageUrl None (IllustrationView.setLoading true s) in
  let r := fst (generateMedicalIllustration m api (IllustrationView.prompt s)
                  (IllustrationView.size s) x) in
  let x' := snd (generateMedicalIllustration m api (IllustrationView.prompt s)
                   (IllustrationView.size s) x) in
  let heard := IllustrationView.deliver m (window x) (window x') started in
  IllustrationView.handleGenerate m api s x =
    match r with
    | Resolved url =>
        (IllustrationView.setLoading false (IllustrationView.setImageUrl (Some url) heard), x')
    | Rejected error =>
        if message_includes error "API Key" then
          (IllustrationView.setLoading false heard,
           mkWorld
             (alert
                "É necessário configurar uma Chave de API para gerar ilustrações. As configurações foram abertas."
                (dispatchEvent "endo-open-settings" (window x')))
             (net x'))
        else
          (IllustrationView.setLoading false heard,
           mkWorld (alert "Erro ao gerar ilustração." (window x')) (net x'))
    end.
Proof.
  intros Hp Hq. cbv zeta. unfold IllustrationView.handleGenerate. rewrite Hp. cbn [negb].
  assert (E : negb (IllustrationView.isCustom (IllustrationView.limitState s))
              && (IllustrationView.remaining (IllustrationView.limitState s) <=? 0) = false).
  { destruct Hq as [Hq | Hq]; [rewrite Hq; reflexivity|].
    apply andb_false_iff. right. apply Z.leb_gt. exact Hq. }
  rewrite E.
  change (IllustrationView.prompt
            (IllustrationView.setImageUrl None (IllustrationView.setLoading true s)))
    with (IllustrationView.prompt s).
  change (IllustrationView.size
            (IllustrationView.setImageUrl None (IllustrationView.setLoading true s)))
    with (IllustrationView.size s).
  destruct (generateMedicalIllustration m api (IllustrationView.prompt s)
              (IllustrationView.size s) x) as [r x'].
  cbn [fst snd]. destruct r; reflexivity.
Qed.

Lemma deliver_loading (m : string) (w w' : Window) (s : IllustrationView.State) :
  IllustrationView.loading (IllustrationView.deliver m w w' s) = IllustrationView.loading s /\
  IllustrationView.imageUrl (IllustrationView.deliver m w w' s) = IllustrationView.imageUrl s /\
  IllustrationView.prompt (IllustrationView.deliver m w w' s) = IllustrationView.prompt s.
Proof.
  unfold IllustrationView.deliver.
  generalize (skipn (List.length (dispatched w)) (dispatched w')). intros evs.
  revert s. induction evs as [| ev evs IH]; intros s; [repeat split|].
  cbn [fold_left]. destruct (IH (IllustrationView.listener m w' s ev)) as (H1 & H2 & H3).
  rewrite H1, H2, H3. unfold IllustrationView.listener.
  destruct (_ || _); repeat split.
Qed.

(** X20 - The generate button.  With an empty prompt a click does nothing
    at all.  With a prompt, no key of the user's own in the limit the view
    holds and nothing remaining in it, the click shows one alert and issues
    no request.  Otherwise the click ends with [loading] off in every case,
    after at most 3 requests; the image shown is the one the service
    returned, or none when it failed; and when no API key is configured at
    all, no request is issued and the settings are opened
    (['endo-open-settings']). *)
Theorem generate_button (currentMonth : string)
    (generateContent : Request -> Api GenerateContentResponse)
    (s : IllustrationView.State) (x : World) :
  let s' := fst (IllustrationView.handleGenerate currentMonth generateContent s x) in
  let x' := snd (IllustrationView.handleGenerate currentMonth generateContent s x) in
  (truthy (IllustrationView.prompt s) = false -> s' = s /\ x' = x) /\
  (truthy (IllustrationView.prompt s) = true ->
   IllustrationView.isCustom (IllustrationView.limitState s) = false ->
   IllustrationView.remaining (IllustrationView.limitState s) <= 0 ->
   s' = s /\ net x' = net x /\
   endo_usage_stats (window x') = endo_usage_stats (window x) /\
   dispatched (window x') = dispatched (window x) /\
   List.length (alerts (window x')) = S (List.length (alerts (window x)))) /\
  (truthy (IllustrationView.prompt s) = true ->
   IllustrationView.isCustom (IllustrationView.limitState s) = true
   \/ 0 < IllustrationView.remaining (IllustrationView.limitState s) ->
   let r := fst (generateMedicalIllustration currentMonth generateContent
                   (IllustrationView.prompt s) (IllustrationView.size s) x) in
   IllustrationView.loading s' = false /\
   (calls (net x') <= calls (net x) + 3)%nat /\
   IllustrationView.imageUrl s'
   = match r with Resolved url => Some url | Rejected _ => None end /\
   (given (endo_custom_api_key (window x)) = false -> given (API_KEY (window x)) = false ->
    net x' = net x /\
    dispatched (window x') = (dispatched (window x) ++ ["endo-open-settings"])%list /\
    endo_usage_stats (window x') = endo_usage_stats (window x))).
Proof.
  cbv zeta. split; [|split].
  - intros Hp. rewrite (handleGenerate_blocked_prompt _ _ _ _ Hp). split; reflexivity.
  - intros Hp Hc Hr.
    destruct (handleGenerate_blocked_quota currentMonth generateContent s x Hp Hc Hr)
      as (msg & E).
    rewrite E. cbn [fst snd net window alert endo_usage_stats dispatched alerts].
    repeat split. rewrite length_app. cbn [List.length]. lia.
  - intros Hp Hq.
    rewrite (handleGenerate_runs currentMonth generateContent s x Hp Hq). cbv zeta.
    destruct (illustration_facts currentMonth generateContent (IllustrationView.prompt s)
                (IllustrationView.size s) x) as (Hcalls & Hnokey).
    set (g := generateMedicalIllustration currentMonth generateContent
                (IllustrationView.prompt s) (IllustrationView.size s) x) in *.
    destruct (deliver_loading currentMonth (window x) (window (snd g))
                (IllustrationView.setImageUrl None (IllustrationView.setLoading true s)))
      as (_ & Hurl & _).
    destruct (fst g) as [url | e] eqn:Er.
    + cbn [fst snd IllustrationView.loading IllustrationView.setLoading
           IllustrationView.imageUrl IllustrationView.setImageUrl].
      split; [reflexivity|]. split; [lia|]. split; [reflexivity|].
      intros H1 H2. destruct (Hnokey H1 H2) as (_ & e & He & _). discriminate He.
    + destruct (message_includes e "API Key") eqn:Em;
        cbn [fst snd IllustrationView.loading IllustrationView.setLoading
             IllustrationView.imageUrl net window alert dispatchEvent dispatched
             endo_usage_stats];
        (split; [reflexivity|]); (split; [lia|]); (split; [exact Hurl|]);
        intros H1 H2; destruct (Hnokey H1 H2) as (Hx & e' & He' & Hm');
        rewrite Hx; [repeat split|].
      assert (e' = e) by congruence. subst e'. congruence.
Qed.

Lemma generate_button_witness :
  let s := IllustrationView.setPrompt "heart"
             (IllustrationView.refreshLimit "2026-11" keylessWindow
                IllustrationView.initialState) in
  let r := IllustrationView.handleGenerate "2026-11" imageApi s
             (mkWorld keylessWindow (mkNet 0 [])) in
  IllustrationView.loading (fst r) = false /\
  IllustrationView.imageUrl (fst r) = None /\
  calls (net (snd r)) = 0%nat /\
  dispatched (window (snd r)) = ["endo-open-settings"].
Proof.
  destruct (generate_button "2026-11" imageApi
              (IllustrationView.setPrompt "heart"
                 (IllustrationView.refreshLimit "2026-11" keylessWindow
                    IllustrationView.initialState))
              (mkWorld keylessWindow (mkNet 0 []))) as (_ & _ & H).
  destruct H as (H1 & _ & H3 & H4); [reflexivity | right; reflexivity|].
  destruct H4 as (H5 & H6 & _); [reflexivity | reflexivity|].
  cbv zeta. split; [exact H1|]. split; [exact H3|].
  split; [rewrite H5; reflexivity | exact H6].
Defined.

End Generate.

(** ** The quota through the view *)

Section Quota.
Import Gemini.
Local Open Scope Z_scope.

(** The limit depends on the two items of the storage only. *)
Lemma checkUsageLimit_storage (m : string) (type : UsageType) (w w' : Window) :
  endo_usage_stats w' = endo_usage_stats w ->
  endo_custom_api_key w' = endo_custom_api_key w ->
  checkUsageLimit m type w' = checkUsageLimit m type w.
Proof.
  intros H1 H2. unfold checkUsageLimit, getUsageStats. rewrite H1, H2. reflexivity.
Qed.

Lemma getUsageStats_storage (m : string) (w w' : Window) :
  endo_usage_stats w' = endo_usage_stats w -> getUsageStats m w' = getUsageStats m w.
Proof. intros H. unfold getUsageStats. rewrite H. reflexivity. Qed.

Lemma inSync_storage (m : string) (s s' : IllustrationView.State) (w w' : Window) :
  endo_usage_stats w' = endo_usage_stats w ->
  endo_custom_api_key w' = endo_custom_api_key w ->
  IllustrationView.limitState s' = IllustrationView.limitState s ->
  inSync m s w -> inSync m s' w'.
Proof.
  intros H1 H2 H3 H. unfold inSync, IllustrationView.refreshLimit in *. cbv zeta in *.
  rewrite (checkUsageLimit_storage m IMAGE_GEN w w' H1 H2), H3.
  cbn [IllustrationView.limitState IllustrationView.setLimit] in *. exact H.
Qed.

Lemma inSync_refreshed (m : string) (s : IllustrationView.State) (w : Window) :
  inSync m (IllustrationView.refreshLimit m w s) w.
Proof. reflexivity. Qed.

(** One click keeps the view in step with the storage and records at most
    one image, and none once two are recorded. *)
Lemma click_step (m : string) (api : Request -> Api GenerateContentResponse)
    (s : IllustrationView.State) (x : World) :
  given (endo_custom_api_key (window x)) = false -> inSync m s (window x) ->
  let s' := fst (IllustrationView.handleGenerate m api s x) in
  let x' := snd (IllustrationView.handleGenerate m api s x) in
  let count w := current IMAGE_GEN (getUsageStats m w) in
  given (endo_custom_api_key (window x')) = false /\ inSync m s' (window x') /\
  count (window x) <= count (window x') <= Z.max 2 (count (window x)).
Proof.
  intros Hk Hs. cbv zeta.
  destruct (truthy (IllustrationView.prompt s)) eqn:Hp.
  2:{ rewrite (handleGenerate_blocked_prompt m api s x Hp). cbn [fst snd].
      split; [exact Hk|]. split; [exact Hs|]. lia. }
  assert (Hl : IllustrationView.limitState s
               = IllustrationView.mkLimitState
                   (Z.max 0 (toNumber (2 - current IMAGE_GEN (getUsageStats m (window x)))))
                   2 false).
  { rewrite Hs. unfold IllustrationView.refreshLimit, checkUsageLimit. rewrite Hk. reflexivity. }
  destruct (Z_le_gt_dec (IllustrationView.remaining (IllustrationView.limitState s)) 0)
    as [Hr | Hr].
  - destruct (handleGenerate_blocked_quota m api s x Hp) as (msg & E);
      [rewrite Hl; reflexivity | exact Hr|].
    rewrite E. cbn [fst snd window].
    split; [exact Hk|]. split.
    + apply (inSync_storage m s s (window x)); try reflexivity. exact Hs.
    + rewrite (getUsageStats_storage m (window x) (alert msg (window x)) eq_refl). lia.
  - assert (Hq : IllustrationView.isCustom (IllustrationView.limitState s) = true
                 \/ 0 < IllustrationView.remaining (IllustrationView.limitState s))
      by (right; lia).
    rewrite (handleGenerate_runs m api s x Hp Hq). cbv zeta.
    destruct (illustration_usage m api (IllustrationView.prompt s)
                (IllustrationView.size s) x) as (Hok & Hfail).
    set (g := generateMedicalIllustration m api (IllustrationView.prompt s)
                (IllustrationView.size s) x) in *.
    set (started := IllustrationView.setImageUrl None (IllustrationView.setLoading true s)).
    assert (Hcount : current IMAGE_GEN (getUsageStats m (window x)) < 2).
    { rewrite Hl in Hr. cbn [IllustrationView.remaining] in Hr.
      pose proof (toNumber_sign (2 - current IMAGE_GEN (getUsageStats m (window x))))
        as [Hsign _].
      lia. }
    destruct (fst g) as [url | e] eqn:Er.
    + pose proof (Hok url eq_refl) as Hw.
      destruct (incrementUsage_counts m IMAGE_GEN (window x) Hk) as (H1 & H2 & H3 & _).
      cbv zeta in *. rewrite <- Hw in H1, H2, H3.
      cbn [fst snd]. split; [exact H1|]. split.
      * rewrite (deliver_usage m (window x) (window (snd g)) started H3).
        apply (inSync_storage m (IllustrationView.refreshLimit m (window (snd g)) started) _
                 (window (snd g))); try reflexivity.
      * rewrite (H2 IMAGE_GEN).
        pose proof (toNumber_succ _ (getUsageStats_numbers m (window x) IMAGE_GEN) Hcount).
        lia.
    + pose proof (Hfail e eq_refl) as Hw.
      assert (Hd : IllustrationView.deliver m (window x) (window (snd g)) started = started).
      { rewrite Hw. apply deliver_none. }
      destruct (message_includes e "API Key"); cbn [fst snd window]; rewrite Hd, Hw;
        (split; [exact Hk|]);
        (split; [apply (inSync_storage m s _ (window x)); try reflexivity; exact Hs|]);
        match goal with
        | |- context [getUsageStats m (alert ?a ?b)] =>
            rewrite (getUsageStats_storage m (window x) (alert a b) eq_refl)
        end; lia.
Qed.

(** X21 - The quota holds through the view.  For a user without a key of
    their own, starting from a view whose limit is the one the storage gives,
    whatever prompts are typed and however the API answers, the clicks on the
    generate button of one month never take the recorded number of images
    above 2 (or above what it already was), never lower it, and leave the
    view in step with the storage. *)
Theorem quota_respected (currentMonth : string)
    (generateContent : Request -> Api GenerateContentResponse) (prompts : list string)
    (s : IllustrationView.State) (x : World) :
  given (endo_custom_api_key (window x)) = false -> inSync currentMonth s (window x) ->
  let s' := fst (fold_left (click currentMonth generateContent) prompts (s, x)) in
  let x' := snd (fold_left (click currentMonth generateContent) prompts (s, x)) in
  let count w := current IMAGE_GEN (getUsageStats currentMonth w) in
  count (window x) <= count (window x') <= Z.max 2 (count (window x)) /\
  inSync currentMonth s' (window x').
Proof.
  cbv zeta. revert s x. induction prompts as [| p prompts IH]; intros s x Hk Hs.
  - cbn [fold_left fst snd]. split; [lia | exact Hs].
  - cbn [fold_left].
    change (click currentMonth generateContent (s, x) p)
      with (IllustrationView.handleGenerate currentMonth generateContent
              (IllustrationView.setPrompt p s) x).
    assert (Hs0 : inSync currentMonth (IllustrationView.setPrompt p s) (window x)) by exact Hs.
    destruct (click_step currentMonth generateContent (IllustrationView.setPrompt p s) x Hk Hs0)
      as (Hk1 & Hs1 & Hc1).
    destruct (IllustrationView.handleGenerate currentMonth generateContent
                (IllustrationView.setPrompt p s) x) as [s1 x1].
    cbn [fst snd] in *.
    destruct (IH s1 x1 Hk1 Hs1) as (Hc & Hsync).
    split; [lia | exact Hsync].
Qed.

Lemma quota_respected_witness :
  let r := fold_left (click "2026-11" imageApi) ["heart"; ""; "liver"; "kidney"; "lung"]
             (mountedView, freeWorld) in
  current IMAGE_GEN (getUsageStats "2026-11" (window (snd r))) <= 2 /\
  inSync "2026-11" (fst r) (window (snd r)).
Proof.
  destruct (quota_respected "2026-11" imageApi ["heart"; ""; "liver"; "kidney"; "lung"]
              mountedView freeWorld eq_refl eq_refl) as (H1 & H2).
  cbv zeta. split; [|exact H2].
  eapply Z.le_trans; [apply (proj2 H1)|]. vm_compute. discriminate.
Defined.

(** A click with a key of the user's own. *)
Lemma click_own_key (m : string) (api : Request -> Api GenerateContentResponse)
    (s : IllustrationView.State) (x : World) :
  given (endo_custom_api_key (window x)) = true -> inSync m s (window x) ->
  let s' := fst (IllustrationView.handleGenerate m api s x) in
  let x' := snd (IllustrationView.handleGenerate m api s x) in
  given (endo_custom_api_key (window x')) = true /\ inSync m s' (window x') /\
  endo_usage_stats (window x') = endo_usage_stats (window x) /\
  (calls (net x) + (if truthy (IllustrationView.prompt s) then 1 else 0)
   <= calls (net x'))%nat.
Proof.
  intros Hk Hs. cbv zeta.
  destruct (truthy (IllustrationView.prompt s)) eqn:Hp.
  2:{ rewrite (handleGenerate_blocked_prompt m api s x Hp). cbn [fst snd].
      split; [exact Hk|]. split; [exact Hs|]. split; [reflexivity | lia]. }
  assert (Hq : IllustrationView.isCustom (IllustrationView.limitState s) = true
               \/ 0 < IllustrationView.remaining (IllustrationView.limitState s)).
  { left. rewrite Hs. unfold IllustrationView.refreshLimit, checkUsageLimit.
    rewrite Hk. reflexivity. }
  rewrite (handleGenerate_runs m api s x Hp Hq). cbv zeta.
  pose proof (illustration_issued m api (IllustrationView.prompt s)
                (IllustrationView.size s) x (or_introl Hk)) as Hcalls.
  destruct (illustration_usage m api (IllustrationView.prompt s)
              (IllustrationView.size s) x) as (Hok & Hfail).
  set (g := generateMedicalIllustration m api (IllustrationView.prompt s)
              (IllustrationView.size s) x) in *.
  set (started := IllustrationView.setImageUrl None (IllustrationView.setLoading true s)).
  assert (Hw : window (snd g) = window x).
  { destruct (fst g) as [url | e] eqn:Er.
    - rewrite (Hok url eq_refl). apply incrementUsage_custom. exact Hk.
    - apply (Hfail e eq_refl). }
  assert (Hd : IllustrationView.deliver m (window x) (window (snd g)) started = started).
  { rewrite Hw. apply deliver_none. }
  destruct (fst g) as [url | e]; [|destruct (message_includes e "API Key")];
    cbn [fst snd window net]; rewrite Hd, Hw;
    (split; [exact Hk|]);
    (split; [apply (inSync_storage m s _ (window x)); try reflexivity; exact Hs|]);
    (split; [reflexivity | lia]).
Qed.

(** X22 - A key of one's own is never metered.  For a user with a key of
    their own and a view whose limit is the one the storage gives, no click
    is held back by the quota: every click with a prompt issues at least one
    request, however many came before; and whatever the API answers the
    stored statistics are never written. *)
Theorem own_key_unmetered (currentMonth : string)
    (generateContent : Request -> Api GenerateContentResponse) (prompts : list string)
    (s : IllustrationView.State) (x : World) :
  given (endo_custom_api_key (window x)) = true -> inSync currentMonth s (window x) ->
  let x' := snd (fold_left (click currentMonth generateContent) prompts (s, x)) in
  endo_usage_stats (window x') = endo_usage_stats (window x) /\
  (calls (net x) + List.length (filter truthy prompts) <= calls (net x'))%nat.
Proof.
  cbv zeta. revert s x. induction prompts as [| p prompts IH]; intros s x Hk Hs.
  - cbn [fold_left fst snd filter List.length]. split; [reflexivity | lia].
  - cbn [fold_left].
    change (click currentMonth generateContent (s, x) p)
      with (IllustrationView.handleGenerate currentMonth generateContent
              (IllustrationView.setPrompt p s) x).
    assert (Hs0 : inSync currentMonth (IllustrationView.setPrompt p s) (window x)) by exact Hs.
    destruct (click_own_key currentMonth generateContent (IllustrationView.setPrompt p s)
                x Hk Hs0) as (Hk1 & Hs1 & Hu1 & Hc1).
    change (IllustrationView.prompt (IllustrationView.setPrompt p s)) with p in Hc1.
    destruct (IllustrationView.handleGenerate currentMonth generateContent
                (IllustrationView.setPrompt p s) x) as [s1 x1].
    cbn [fst snd] in *.
    destruct (IH s1 x1 Hk1 Hs1) as (Hu & Hc).
    split; [congruence|]. cbn [filter].
    destruct (truthy p); cbn [List.length]; lia.
Qed.

Lemma own_key_unmetered_witness :
  let w := mkWindow None (Some "my-key") None [] [] in
  let s := IllustrationView.refreshLimit "2026-11" w IllustrationView.initialState in
  let x' := snd (fold_left (click "2026-11" imageApi) ["a"; "b"; "c"; ""]
                   (s, mkWorld w (mkNet 0 []))) in
  endo_usage_stats (window x') = None /\ (3 <= calls (net x'))%nat.
Proof.
  exact (own_key_unmetered "2026-11" imageApi ["a"; "b"; "c"; ""]
           (IllustrationView.refreshLimit "2026-11" (mkWindow None (Some "my-key") None [] [])
              IllustrationView.initialState)
           (mkWorld (mkWindow None (Some "my-key") None [] []) (mkNet 0 []))
           eq_refl eq_refl).
Defined.

End Quota.

(** * Properties of the image view *)

(** ** The previews of the analysis mode *)

Lemma removeAt_length {A} (i : nat) (l : list A) :
  List.length (ImageView.removeAt i l)
  = if (i <? List.length l)%nat then pred (List.length l) else List.length l.
Proof.
  revert i. induction l as [| a l IH]; intros i; [destruct i; reflexivity|].
  destruct i as [| i]; [reflexivity|].
  cbn [ImageView.removeAt List.length]. rewrite IH.
  change (S i <? S (List.length l))%nat with (i <? List.length l)%nat.
  destruct (Nat.ltb_spec i (List.length l)); [|reflexivity].
  destruct l; [cbn in *; lia | reflexivity].
Qed.

Lemma removeAt_In {A} (i : nat) (l : list A) (a : A) :
  In a (ImageView.removeAt i l) -> In a l.
Proof.
  revert i. induction l as [| b l IH]; intros i H; [destruct i; exact H|].
  destruct i as [| i]; [right; exact H|].
  destruct H as [H | H]; [left; exact H | right; apply (IH i H)].
Qed.

Lemma removeAt_keeps {A} (i : nat) (l : list A) (a : A) :
  In a l -> In a (ImageView.removeAt i l) \/ nth_error l i = Some a.
Proof.
  revert i. induction l as [| b l IH]; intros i H; [destruct H|].
  destruct i as [| i].
  - destruct H as [-> | H]; [right; reflexivity | left; exact H].
  - destruct H as [-> | H]; [left; left; reflexivity|].
    destruct (IH i H) as [H' | H']; [left; right; exact H' | right; exact H'].
Qed.

Lemma removeAt_NoDup {A} (i : nat) (l : list A) :
  NoDup l ->
  NoDup (ImageView.removeAt i l) /\
  (forall a, nth_error l i = Some a -> ~ In a (ImageView.removeAt i l)).
Proof.
  revert i. induction l as [| b l IH]; intros i H.
  - split; [destruct i; constructor | intros a Ha; destruct i; discriminate Ha].
  - inversion H as [| ? ? Hb Hl]; subst. destruct i as [| i].
    + split; [exact Hl|]. intros a Ha. injection Ha as <-. exact Hb.
    + destruct (IH i Hl) as [IH1 IH2]. split.
      * constructor; [intros Hin; apply Hb, (removeAt_In i l b Hin) | exact IH1].
      * intros a Ha [E | Hin]; [|exact (IH2 a Ha Hin)].
        subst a. apply Hb. apply (nth_error_In l i Ha).
Qed.

Lemma removeAt_Forall {A} (P : A -> Prop) (i : nat) (l : list A) :
  Forall P l -> Forall P (ImageView.removeAt i l).
Proof.
  intros H. apply Forall_forall. intros a Ha.
  apply (proj1 (Forall_forall P l) H a (removeAt_In i l a Ha)).
Qed.

Lemma revoke_all (urls : list ImageView.ObjectUrl) :
  forall e,
    let e' := fold_left (fun e url => ImageView.revokeObjectURL (Some url) e) urls e in
    ImageView.created e' = ImageView.created e /\
    ImageView.revoked e' = (ImageView.revoked e ++ urls)%list /\
    ImageView.window e' = ImageView.window e.
Proof.
  induction urls as [| u urls IH]; intros e; cbv zeta.
  - cbn [fold_left]. rewrite app_nil_r. repeat split.
  - cbn [fold_left]. destruct (IH (ImageView.revokeObjectURL (Some u) e)) as (H1 & H2 & H3).
    rewrite H1, H2, H3. cbn [ImageView.revokeObjectURL ImageView.created ImageView.revoked
                              ImageView.window].
    rewrite <- app_assoc. repeat split.
Qed.

Lemma handleClear_inOrder (s : ImageView.State) (e : ImageView.Env) :
  previewsInOrder s e ->
  previewsInOrder (fst (ImageView.handleClear s e)) (snd (ImageView.handleClear s e)) /\
  ImageView.selectedFiles (fst (ImageView.handleClear s e)) = [] /\
  ImageView.window (snd (ImageView.handleClear s e)) = ImageView.window e.
Proof.
  intros (Hl & Hn & Hlive & Hall & Hrev). unfold ImageView.handleClear. cbn [fst snd].
  destruct (revoke_all (ImageView.previewUrls s) e) as (H1 & H2 & H3). cbv zeta in *.
  split; [|split; [reflexivity | exact H3]].
  unfold previewsInOrder. rewrite H1, H2.
  cbn [ImageView.selectedFiles ImageView.previewUrls ImageView.resetAnnotation
       ImageView.setAnnotationNote ImageView.setAnnotatedImageUrl ImageView.setAnnotationFile
       ImageView.setPrompt ImageView.setAnalysis ImageView.setPreviewUrls
       ImageView.setSelectedFiles].
  split; [reflexivity|]. split; [constructor|]. split; [intros u []|]. split.
  - intros u Hu. right. apply in_or_app. destruct (Hall u Hu); [right | left]; assumption.
  - intros u Hu. apply in_app_or in Hu. destruct Hu as [Hu | Hu];
      [apply (Hrev u Hu) | apply (Hlive u Hu)].
Qed.

(** Files added to the selection with their fresh URLs. *)
Lemma added_inOrder (fs : list ImageView.File) (s : ImageView.State) (e : ImageView.Env) :
  previewsInOrder s e ->
  previewsInOrder
    (s ;> ImageView.setSelectedFiles (ImageView.selectedFiles s ++ fs)%list
       ;> ImageView.setPreviewUrls
            (ImageView.previewUrls s ++ seq (ImageView.created e) (List.length fs))%list
       ;> ImageView.setAnalysis None)
    (ImageView.mkEnv (ImageView.created e + List.length fs) (ImageView.revoked e)
       (ImageView.window e)).
Proof.
  intros (Hl & Hn & Hlive & Hall & Hrev). unfold previewsInOrder.
  cbn [ImageView.selectedFiles ImageView.previewUrls ImageView.setAnalysis
       ImageView.setPreviewUrls ImageView.setSelectedFiles ImageView.created
       ImageView.revoked].
  split; [rewrite !length_app, length_seq; lia|]. split.
  { apply NoDup_app; [exact Hn | apply seq_NoDup|].
    intros u Hu Hs. apply in_seq in Hs. destruct (Hlive u Hu). lia. }
  split.
  { intros u Hu. apply in_app_or in Hu. destruct Hu as [Hu | Hu].
    - destruct (Hlive u Hu). split; [lia | assumption].
    - apply in_seq in Hu. split; [lia|].
      intros Hr. pose proof (Hrev u Hr). lia. }
  split.
  { intros u Hu.
    destruct (Nat.lt_ge_cases u (ImageView.created e)) as [Hlt | Hge].
    - destruct (Hall u Hlt); [left; apply in_or_app; left | right]; assumption.
    - left. apply in_or_app. right. apply in_seq. lia. }
  intros u Hu. pose proof (Hrev u Hu). lia.
Qed.

Lemma removed_inOrder (idx : nat) (s : ImageView.State) (e : ImageView.Env) :
  previewsInOrder s e ->
  previewsInOrder (fst (ImageView.removeAnalysisFile idx s e))
    (snd (ImageView.removeAnalysisFile idx s e)).
Proof.
  intros (Hl & Hn & Hlive & Hall & Hrev). unfold ImageView.removeAnalysisFile, previewsInOrder.
  cbn [fst snd ImageView.selectedFiles ImageView.previewUrls ImageView.setPreviewUrls
       ImageView.setSelectedFiles].
  destruct (removeAt_NoDup idx (ImageView.previewUrls s) Hn) as [Hn' Hout].
  split; [rewrite !removeAt_length, Hl; reflexivity|]. split; [exact Hn'|].
  destruct (nth_error (ImageView.previewUrls s) idx) as [u0 |] eqn:E;
    cbn [ImageView.revokeObjectURL ImageView.created ImageView.revoked].
  - split.
    { intros u Hu. destruct (Hlive u (removeAt_In idx _ u Hu)) as [H1 H2].
      split; [exact H1|]. intros Hr. apply in_app_or in Hr. destruct Hr as [Hr | [-> | []]].
      - exact (H2 Hr).
      - exact (Hout u eq_refl Hu). }
    split.
    { intros u Hu. destruct (Hall u Hu) as [H | H].
      - destruct (removeAt_keeps idx _ u H) as [H' | H']; [left; exact H'|].
        right. apply in_or_app. right. left.
        assert (Eu : Some u0 = Some u) by (etransitivity; [symmetry; exact E | exact H']).
        injection Eu as Eu. exact Eu.
      - right. apply in_or_app. left. exact H. }
    intros u Hu. apply in_app_or in Hu. destruct Hu as [Hu | [<- | []]].
    + exact (Hrev u Hu).
    + apply (Hlive u0 (nth_error_In _ _ E)).
  - split; [intros u Hu; apply (Hlive u (removeAt_In idx _ u Hu))|].
    split; [|exact Hrev].
    intros u Hu. destruct (Hall u Hu) as [H | H]; [|right; exact H].
    destruct (removeAt_keeps idx _ u H) as [H' | H']; [left; exact H'|].
    assert (Eu : None = Some u) by (etransitivity; [symmetry; exact E | exact H']).
    discriminate Eu.
Qed.

Lemma handle_inOrder (m : string) (ev : ImageView.Event) (s : ImageView.State)
    (e : ImageView.Env) :
  previewsInOrder s e ->
  let s' := fst (ImageView.handle m (s, e) ev) in
  let e' := snd (ImageView.handle m (s, e) ev) in
  previewsInOrder s' e' /\
  Gemini.endo_custom_api_key (ImageView.window e')
  = Gemini.endo_custom_api_key (ImageView.window e) /\
  (given (Gemini.endo_custom_api_key (ImageView.window e)) = false ->
   noVideo s -> noVideo s').
Proof.
  intros Hin. cbv zeta.
  destruct ev as [files | idx | | md]; cbn [ImageView.handle fst snd].
  - unfold ImageView.handleAnalysisFileChange.
    destruct files as [| f files];
      [cbn [fst snd]; split; [exact Hin|]; split; [reflexivity | intros _ H; exact H]|].
    cbv zeta. set (fs := f :: files).
    unfold Gemini.checkUsageLimit.
    destruct (given (Gemini.endo_custom_api_key (ImageView.window e))) eqn:Ek;
      cbn [Gemini.isCustomKey negb]; rewrite ?andb_false_r, ?andb_true_r.
    + cbn [fst snd]. split; [apply added_inOrder; exact Hin|].
      split; [reflexivity | intros H; discriminate H].
    + destruct (existsb _ fs) eqn:Ev; cbn [fst snd].
      * split; [exact Hin|]. split; [reflexivity|]. intros _ H. exact H.
      * split; [apply added_inOrder; exact Hin|]. split; [reflexivity|].
        intros _ Hv. unfold noVideo in *.
        cbn [ImageView.selectedFiles ImageView.setAnalysis ImageView.setPreviewUrls
             ImageView.setSelectedFiles].
        apply Forall_app. split; [exact Hv|].
        apply Forall_forall. intros g Hg.
        destruct (ImageView.startsWith (ImageView.type g) "video") eqn:Eg; [|reflexivity].
        assert (existsb (fun f => ImageView.startsWith (ImageView.type f) "video") fs = true)
          by (apply existsb_exists; exists g; split; assumption).
        congruence.
  - split; [apply removed_inOrder; exact Hin|]. split.
    + unfold ImageView.removeAnalysisFile. cbn [snd].
      destruct (nth_error _ idx); reflexivity.
    + intros _ Hv. unfold noVideo, ImageView.removeAnalysisFile in *.
      cbn [fst ImageView.selectedFiles ImageView.setPreviewUrls ImageView.setSelectedFiles].
      apply removeAt_Forall. exact Hv.
  - destruct (handleClear_inOrder s e Hin) as (H1 & H2 & H3).
    split; [exact H1|]. split; [rewrite H3; reflexivity|].
    intros _ _. unfold noVideo. rewrite H2. constructor.
  - unfold ImageView.modeButton.
    assert (Hin' : previewsInOrder (ImageView.setMode md s) e) by exact Hin.
    destruct (handleClear_inOrder (ImageView.setMode md s) e Hin') as (H1 & H2 & H3).
    split; [exact H1|]. split; [rewrite H3; reflexivity|].
    intros _ _. unfold noVideo. rewrite H2. constructor.
Qed.

(** X23 - Previews stay in order.  Through any sequence of file choices,
    removals, clears and mode switches of the analysis mode, starting from an
    orderly state (the empty initial one, say): there is exactly one preview
    URL per selected file, so the grid never looks up a file that is not
    there; no URL appears twice; no URL shown has been revoked; and every
    URL ever created is either shown or revoked, so none leaks.  For a user
    without a key of their own, no video ever enters the selection. *)
Theorem previews_in_order (currentMonth : string) (evs : list ImageView.Event)
    (s : ImageView.State) (e : ImageView.Env) :
  previewsInOrder s e ->
  let s' := fst (fold_left (ImageView.handle currentMonth) evs (s, e)) in
  let e' := snd (fold_left (ImageView.handle currentMonth) evs (s, e)) in
  previewsInOrder s' e' /\
  (given (Gemini.endo_custom_api_key (ImageView.window e)) = false ->
   noVideo s -> noVideo s').
Proof.
  cbv zeta. revert s e. induction evs as [| ev evs IH]; intros s e Hin.
  - cbn [fold_left fst snd]. split; [exact Hin | intros _ H; exact H].
  - cbn [fold_left].
    destruct (handle_inOrder currentMonth ev s e Hin) as (H1 & H2 & H3). cbv zeta in *.
    destruct (ImageView.handle currentMonth (s, e) ev) as [s1 e1]. cbn [fst snd] in *.
    destruct (IH s1 e1 H1) as (IH1 & IH2).
    split; [exact IH1|]. intros Hk Hv. apply IH2; [congruence | apply (H3 Hk Hv)].
Qed.

Lemma previews_in_order_witness :
  let r := fold_left (ImageView.handle "2026-11") sampleSelection
             (ImageView.initialState, sampleEnv) in
  previewsInOrder (fst r) (snd r) /\ noVideo (fst r).
Proof.
  destruct (previews_in_order "2026-11" sampleSelection ImageView.initialState sampleEnv)
    as (H1 & H2).
  - unfold previewsInOrder. cbn. split; [reflexivity|]. split; [constructor|].
    split; [intros u []|]. split; [intros u Hu; lia | intros u []].
  - cbv zeta. split; [exact H1|]. apply H2; [reflexivity | constructor].
Defined.

(** ** The annotation mode and the canvas *)

(** X24 - Annotation flow.  Choosing files for annotation takes the first
    file only, and only if its type starts with [image/]: then the canvas is
    rendered on it; any other file changes nothing but an alert.  With the
    canvas rendered, its attach button, once the image is loaded, hands the
    encoded export and the description of the canvas to the view, which
    then shows the result with that URL (and the note when it is not empty);
    the download button leaves the view as it is, as does an attach before
    the image has loaded; and the cancel button brings back the upload. *)
Theorem annotation_flow {B : Ctx.Browser} (files : list ImageView.File)
    (s : ImageView.State) (e : ImageView.Env) (canvas : State) (now : Z) :
  let chosen := ImageView.handleAnnotationFileChange files s e in
  (forall file rest, files = file :: rest ->
     (ImageView.startsWith (ImageView.type file) "image/" = true ->
      ImageView.annotationScreen (fst chosen) = ImageView.CanvasView file /\ snd chosen = e) /\
     (ImageView.startsWith (ImageView.type file) "image/" = false ->
      fst chosen = s /\
      List.length (Gemini.alerts (ImageView.window (snd chosen)))
      = S (List.length (Gemini.alerts (ImageView.window e))))) /\
  (forall file, ImageView.annotationFile s = Some file ->
     let url := Ctx.toDataURL (exportBuffer canvas) in
     (canvasRef canvas = true -> fst (dimensions canvas) <> 0%nat -> truthy url = true ->
      ImageView.annotationScreen (canvasFooter (saveButton attach) now canvas s)
      = ImageView.ResultView url
          (if truthy (description canvas) then Some (description canvas) else None)) /\
     (canvasRef canvas = false \/ fst (dimensions canvas) = 0%nat ->
      canvasFooter (saveButton attach) now canvas s = s)) /\
  canvasFooter (saveButton download) now canvas s = s /\
  ImageView.annotationScreen (canvasFooter cancelButton now canvas s) = ImageView.UploadView.
Proof.
  cbv zeta. split; [|split; [|split]].
  - intros file rest ->. unfold ImageView.handleAnnotationFileChange.
    split; intros Ht; rewrite Ht.
    + split; reflexivity.
    + cbn [fst snd ImageView.alert ImageView.window Gemini.alert Gemini.alerts].
      split; [reflexivity|]. rewrite length_app. cbn [List.length]. lia.
  - intros file Hf. split.
    + intros Hr Hd Hu. unfold canvasFooter, handleSave. rewrite Hr.
      destruct (Nat.eqb_spec (fst (dimensions canvas)) 0) as [E | _]; [contradiction|].
      cbn [negb orb]. cbv zeta.
      change (Ctx.toDataURL _) with (Ctx.toDataURL (exportBuffer canvas)).
      unfold ImageView.annotationScreen, ImageView.handleAnnotationSave.
      cbn [ImageView.annotationFile ImageView.annotatedImageUrl ImageView.annotationNote
           ImageView.setAnnotationNote ImageView.setAnnotatedImageUrl].
      rewrite Hf, Hu. cbn [given]. reflexivity.
    + intros Hno. unfold canvasFooter, handleSave.
      destruct Hno as [Hr | Hd]; [rewrite Hr; reflexivity|].
      rewrite Hd. rewrite orb_true_r. reflexivity.
  - unfold canvasFooter, handleSave.
    destruct (negb (canvasRef canvas) || (fst (dimensions canvas) =? 0)%nat); reflexivity.
  - reflexivity.
Qed.

Lemma annotation_flow_witness :
  ImageView.annotationScreen
    (fst (ImageView.handleAnnotationFileChange [xray; clip] ImageView.initialState sampleEnv))
  = ImageView.CanvasView xray /\
  fst (ImageView.handleAnnotationFileChange [clip; xray] ImageView.initialState sampleEnv)
  = ImageView.initialState.
Proof.
  destruct (annotation_flow (B := boxBrowser) [xray; clip] ImageView.initialState sampleEnv
              loaded 0) as (H1 & _).
  destruct (annotation_flow (B := boxBrowser) [clip; xray] ImageView.initialState sampleEnv
              loaded 0) as (H2 & _).
  split.
  - apply (proj1 (H1 xray [clip] eq_refl)). reflexivity.
  - apply (proj2 (H2 clip [xray] eq_refl)). reflexivity.
Defined.
